(** * nrc-server-mappings: manifest validation and PR comment publishing

    A shallow embedding of [scripts/validate-manifest.js] (with the logger of
    [scripts/logger.js]) and of the pull-request comment script, together with
    the properties the specification states about them.

    JavaScript strings are sequences of UTF-16 code units and [.length],
    indices, [split] and regular expressions all work on code units, so a
    string is modelled as a list of code units. *)

From Stdlib Require Import String Ascii.
From Stdlib Require Import List NArith ZArith Lia Bool Arith.
Import ListNotations.

Set Implicit Arguments.

(** ** Strings *)

Definition jschar := N.
Definition jsstring := list jschar.

(** An ASCII literal as a JavaScript string. *)
Definition u16 (s : string) : jsstring :=
  map N_of_ascii (list_ascii_of_string s).
Arguments u16 s%_string : simpl never.

Definition CR : jschar := 13%N.
Definition LF : jschar := 10%N.

Fixpoint jsstring_eqb (a b : jsstring) : bool :=
  match a, b with
  | [], [] => true
  | x :: a', y :: b' => N.eqb x y && jsstring_eqb a' b'
  | _, _ => false
  end.

(** [s.startsWith(p)] *)
Fixpoint startsWith (p s : jsstring) : bool :=
  match p, s with
  | [], _ => true
  | x :: p', y :: s' => N.eqb x y && startsWith p' s'
  | _ :: _, [] => false
  end.

(** [s.indexOf(t)]: the first index at which [t] occurs, [None] for -1. *)
Fixpoint indexOf_from (t s : jsstring) (i : nat) : option nat :=
  if startsWith t s then Some i
  else match s with
       | [] => None
       | _ :: s' => indexOf_from t s' (S i)
       end.

Definition indexOf (t s : jsstring) : option nat := indexOf_from t s 0.

(** [s.includes(t)] *)
Definition includes (t s : jsstring) : bool :=
  match indexOf t s with Some _ => true | None => false end.

(** [parts.join(sep)] *)
Fixpoint join (sep : jsstring) (parts : list jsstring) : jsstring :=
  match parts with
  | [] => []
  | [p] => p
  | p :: rest => p ++ sep ++ join sep rest
  end.

(** [s.split(c)] for a one-character separator [c]. *)
Fixpoint split_chr_aux (c : jschar) (cur : jsstring) (s : jsstring)
  : list jsstring :=
  match s with
  | [] => [rev cur]
  | x :: s' =>
      if N.eqb x c then rev cur :: split_chr_aux c [] s'
      else split_chr_aux c (x :: cur) s'
  end.

Definition split_chr (c : jschar) (s : jsstring) : list jsstring :=
  split_chr_aux c [] s.

(** [text.split(/\r?\n/)]: a line feed, together with a carriage return
    directly before it, separates two lines. *)
Fixpoint split_lines_aux (cur : jsstring) (s : jsstring) : list jsstring :=
  match s with
  | [] => [rev cur]
  | x :: s' =>
      if N.eqb x LF then rev cur :: split_lines_aux [] s'
      else if N.eqb x CR then
        match s' with
        | y :: s'' =>
            if N.eqb y LF then rev cur :: split_lines_aux [] s''
            else split_lines_aux (x :: cur) s'
        | [] => split_lines_aux (x :: cur) s'
        end
      else split_lines_aux (x :: cur) s'
  end.

Definition split_lines (text : jsstring) : list jsstring :=
  split_lines_aux [] text.

(** [String(n)] for a non-negative integer. *)
Fixpoint uint_chars (d : Decimal.uint) : jsstring :=
  match d with
  | Decimal.Nil => []
  | Decimal.D0 d => 48%N :: uint_chars d
  | Decimal.D1 d => 49%N :: uint_chars d
  | Decimal.D2 d => 50%N :: uint_chars d
  | Decimal.D3 d => 51%N :: uint_chars d
  | Decimal.D4 d => 52%N :: uint_chars d
  | Decimal.D5 d => 53%N :: uint_chars d
  | Decimal.D6 d => 54%N :: uint_chars d
  | Decimal.D7 d => 55%N :: uint_chars d
  | Decimal.D8 d => 56%N :: uint_chars d
  | Decimal.D9 d => 57%N :: uint_chars d
  end.

Definition String_of_N (n : N) : jsstring := uint_chars (N.to_uint n).

(** [String(z)] for an integer. *)
Definition String_of_Z (z : Z) : jsstring :=
  match z with
  | Zneg p => 45%N :: String_of_N (Npos p)
  | _ => String_of_N (Z.to_N z)
  end.

(** [s.padStart(n)] (padding with spaces). *)
Definition padStart (n : nat) (s : jsstring) : jsstring :=
  repeat 32%N (n - length s) ++ s.

(** [" ".repeat(n)]; a negative count does not occur in the program. *)
Definition spaces (n : Z) : jsstring := repeat 32%N (Z.to_nat n).

(** ** Error Locator *)

Record LineCol := mkLineCol {
  lc_line : Z;
  lc_column : Z;
  lc_lineText : jsstring
}.

(** The [for] loop of [getLineAndColumnFromIndex]: [i] is the index of the
    first line of [lines], [count] the running character count. *)
Fixpoint locate_loop (lines : list jsstring) (index i count : Z)
  : option LineCol :=
  match lines with
  | [] => None
  | l :: rest =>
      let lineLen := (Z.of_nat (length l) + 1)%Z in
      if (index <? count + lineLen)%Z then
        Some (mkLineCol (i + 1) (index - count + 1) l)
      else locate_loop rest index (i + 1)%Z (count + lineLen)%Z
  end.

Definition getLineAndColumnFromIndex (text : jsstring) (index : Z) : LineCol :=
  let lines := split_lines text in
  match locate_loop lines index 0 0 with
  | Some r => r
  | None =>
      mkLineCol (Z.of_nat (length lines))
                (Z.max 1 (Z.of_nat (length (last lines []))))
                (last lines [])
  end.

(** ** Regular expressions

    The regular expressions of the program are kept as syntax and run by a
    backtracking matcher that follows the ECMAScript semantics: alternatives
    are tried left to right, a greedy quantifier tries one more iteration
    before it stops, a lazy one stops before it tries more, and an iteration
    that consumes nothing is refused.  A class is a positive set of code
    units.  With the [i] flag letters are compared up to ASCII case: the
    literals and classes of the program are ASCII, for which this is the
    canonicalisation of the language.  The one expression built from data,
    that of [findPropertySnippet], is run on the name of a property: the
    language also identifies the two cases of a letter outside ASCII, so for
    a name with such a letter the search of the model can miss an occurrence
    that is written in the other case. *)

Inductive regex : Type :=
| RChr (c : jschar)
| RCls (p : jschar -> bool)
| REps
| RSeq (r1 r2 : regex)
| RAlt (r1 r2 : regex)
| RStar (greedy : bool) (r : regex)
| RGroup (r : regex)
| RBol
| REol.

Record flags := mkFlags { ignoreCase : bool; multiline : bool }.

Definition no_flags := mkFlags false false.
Definition flag_i := mkFlags true false.
Definition flag_m := mkFlags false true.

Definition RPlus (greedy : bool) (r : regex) : regex :=
  RSeq r (RStar greedy r).

(** [r?] *)
Definition ROpt (r : regex) : regex := RAlt r REps.

Fixpoint RLit (s : jsstring) : regex :=
  match s with
  | [] => REps
  | c :: s' => RSeq (RChr c) (RLit s')
  end.

Definition to_upper (c : jschar) : jschar :=
  if ((97 <=? c) && (c <=? 122))%N then (c - 32)%N else c.

Definition to_lower (c : jschar) : jschar :=
  if ((65 <=? c) && (c <=? 90))%N then (c + 32)%N else c.

Definition is_line_terminator (c : jschar) : bool :=
  (N.eqb c 10 || N.eqb c 13 || N.eqb c 8232 || N.eqb c 8233)%N.

(** The class [\s]: white space and line terminators. *)
Definition is_space (c : jschar) : bool :=
  (((9 <=? c) && (c <=? 13)) || N.eqb c 32 || N.eqb c 160 || N.eqb c 5760
   || ((8192 <=? c) && (c <=? 8202)) || N.eqb c 8232 || N.eqb c 8233
   || N.eqb c 8239 || N.eqb c 8287 || N.eqb c 12288 || N.eqb c 65279)%N.

(** The class [\d]. *)
Definition is_digit (c : jschar) : bool := ((48 <=? c) && (c <=? 57))%N.

(** The class [.] *)
Definition is_dot (c : jschar) : bool := negb (is_line_terminator c).

Definition one_of (cs : jsstring) (c : jschar) : bool :=
  existsb (N.eqb c) cs.

Section Matcher.

Variable fl : flags.

Definition chr_matches (c x : jschar) : bool :=
  if ignoreCase fl then N.eqb (to_upper c) (to_upper x) else N.eqb c x.

Definition cls_matches (p : jschar -> bool) (x : jschar) : bool :=
  if ignoreCase fl then p x || p (to_upper x) || p (to_lower x) else p x.

(** [^]: [prev] is the code unit before the current position. *)
Definition at_bol (prev : option jschar) : bool :=
  match prev with
  | None => true
  | Some c => multiline fl && is_line_terminator c
  end.

(** [$] *)
Definition at_eol (s : jsstring) : bool :=
  match s with
  | [] => true
  | c :: _ => multiline fl && is_line_terminator c
  end.

(** The result of a match attempt: the input left after the match and the
    text of the capturing group. *)
Definition mresult : Type := option (jsstring * option jsstring).

Definition mcont : Type :=
  option jschar -> jsstring -> option jsstring -> mresult.

(** The iterations of a quantifier [r*] (greedy) or [r*?] (lazy): [body] runs
    [r] once, [n] bounds the iterations left; every iteration consumes
    input, so the length of the input is bound enough. *)
Fixpoint iterate (greedy : bool)
         (body : option jschar -> jsstring -> option jsstring -> mcont
                 -> mresult)
         (k : mcont) (n : nat) (prev : option jschar) (s : jsstring)
         (cap : option jsstring) {struct n} : mresult :=
  let more (_ : unit) :=
    match n with
    | O => None
    | S n' =>
        body prev s cap
          (fun prev' s' cap' =>
             if length s' <? length s then iterate greedy body k n' prev' s' cap'
             else None)
    end in
  if greedy then
    match more tt with
    | Some res => Some res
    | None => k prev s cap
    end
  else
    match k prev s cap with
    | Some res => Some res
    | None => more tt
    end.

Fixpoint rmatch (r : regex) (prev : option jschar) (s : jsstring)
         (cap : option jsstring) (k : mcont) {struct r} : mresult :=
  match r with
  | RChr c =>
      match s with
      | x :: s' => if chr_matches c x then k (Some x) s' cap else None
      | [] => None
      end
  | RCls p =>
      match s with
      | x :: s' => if cls_matches p x then k (Some x) s' cap else None
      | [] => None
      end
  | REps => k prev s cap
  | RSeq r1 r2 =>
      rmatch r1 prev s cap (fun prev' s' cap' => rmatch r2 prev' s' cap' k)
  | RAlt r1 r2 =>
      match rmatch r1 prev s cap k with
      | Some res => Some res
      | None => rmatch r2 prev s cap k
      end
  | RStar greedy r' => iterate greedy (rmatch r') k (length s) prev s cap
  | RGroup r' =>
      rmatch r' prev s cap
        (fun prev' s' _ =>
           k prev' s' (Some (firstn (length s - length s') s)))
  | RBol => if at_bol prev then k prev s cap else None
  | REol => if at_eol s then k prev s cap else None
  end.

Record Match := mkMatch {
  m_index : nat;
  m_text : jsstring;
  m_group : option jsstring
}.

(** The match that starts exactly at the current position. *)
Definition match_here (r : regex) (prev : option jschar) (s : jsstring)
  : mresult :=
  rmatch r prev s None (fun _ s' cap => Some (s', cap)).

(** [re.exec(s)]: the leftmost match; [i] is the index of the current
    position. *)
Fixpoint exec_from (r : regex) (prev : option jschar) (s : jsstring)
         (i : nat) : option Match :=
  match match_here r prev s with
  | Some (s', cap) =>
      Some (mkMatch i (firstn (length s - length s') s) cap)
  | None =>
      match s with
      | [] => None
      | x :: s' => exec_from r (Some x) s' (S i)
      end
  end.

Definition exec (r : regex) (s : jsstring) : option Match :=
  exec_from r None s 0.

(** [re.test(s)], and the truth value of [s.match(re)]. *)
Definition test (r : regex) (s : jsstring) : bool :=
  match exec r s with Some _ => true | None => false end.

(** Move [n] code units forward. *)
Fixpoint seek (n : nat) (prev : option jschar) (s : jsstring)
  : option (option jschar * jsstring) :=
  match n with
  | O => Some (prev, s)
  | S n' =>
      match s with
      | [] => None
      | x :: s' => seek n' (Some x) s'
      end
  end.

(** [s.match(re)] for a regular expression with the [g] flag: the texts of
    all matches, each search starting where the last match ended (one
    further on after an empty match). *)
Fixpoint match_all_fuel (fuel : nat) (r : regex) (prev : option jschar)
         (s : jsstring) : list jsstring :=
  match fuel with
  | O => []
  | S fuel' =>
      match exec_from r prev s 0 with
      | None => []
      | Some m =>
          let len := length (m_text m) in
          m_text m ::
            match seek (m_index m + (if len =? 0 then 1 else len)) prev s with
            | Some (prev', s') => match_all_fuel fuel' r prev' s'
            | None => []
            end
      end
  end.

Definition match_all (r : regex) (s : jsstring) : list jsstring :=
  match_all_fuel (S (length s)) r None s.

(** [s.replace(re, repl)] without the [g] flag, for a replacement text
    without [$] patterns. *)
Definition replace_first (r : regex) (repl s : jsstring) : jsstring :=
  match exec r s with
  | None => s
  | Some m =>
      firstn (m_index m) s ++ repl
        ++ skipn (m_index m + length (m_text m)) s
  end.

End Matcher.

(** ** JSON values and the JavaScript operations on them *)

(** A parsed JSON document.  The program tests numbers only for truthiness
    (and prints them in messages), so a number is kept as an integer: the
    values are those of documents whose numbers are integers that a double
    holds exactly and prints in full (below 10^21 in absolute value and
    within 2^53). *)
#[warnings="-register-all"] Inductive JSON : Type :=
| JNull
| JBool (b : bool)
| JNum (n : Z)
| JStr (s : jsstring)
| JArr (items : list JSON)
| JObj (fields : list (jsstring * JSON)).

(** What an operation of the language or of a library evaluates to: a
    value, or a thrown error (with its [message]). *)
Inductive Try (A : Type) : Type :=
| Value (a : A)
| Raised (msg : jsstring).
Arguments Value {A} a.
Arguments Raised {A} msg.

(** What a computation of the program ends in: a value, a thrown error or
    the end of the process by [process.exit]. *)
Inductive Outcome (A : Type) : Type :=
| Ret (a : A)
| Throw (msg : jsstring)
| Exit (code : Z).
Arguments Ret {A} a.
Arguments Throw {A} msg.
Arguments Exit {A} code.

(** A property read yields [None] for [undefined]. *)
Definition jsvalue := option JSON.

Definition truthy (v : JSON) : bool :=
  match v with
  | JNull => false
  | JBool b => b
  | JNum n => negb (Z.eqb n 0)
  | JStr s => match s with [] => false | _ => true end
  | JArr _ => true
  | JObj _ => true
  end.

Definition truthy_val (v : jsvalue) : bool :=
  match v with
  | None => false
  | Some j => truthy j
  end.

Definition nonempty (s : jsstring) : bool :=
  match s with [] => false | _ => true end.

Fixpoint lookup (k : jsstring) (fields : list (jsstring * JSON)) : jsvalue :=
  match fields with
  | [] => None
  | (k', v) :: rest => if jsstring_eqb k k' then Some v else lookup k rest
  end.

(** [v.k] for a parsed JSON value [v] and one of the property names the
    program reads (none of them is defined on the prototypes of strings,
    numbers, booleans or arrays): reading from [null] throws. *)
Definition get_prop (v : JSON) (k : jsstring) : Try jsvalue :=
  match v with
  | JNull =>
      Raised (u16 "Cannot read properties of null (reading '" ++ k ++ u16 "')")
  | JObj fields => Value (lookup k fields)
  | _ => Value None
  end.

(** [v.k] where [v] may be [undefined]. *)
Definition get_prop_val (v : jsvalue) (k : jsstring) : Try jsvalue :=
  match v with
  | None =>
      Raised (u16 "Cannot read properties of undefined (reading '" ++ k
               ++ u16 "')")
  | Some j => get_prop j k
  end.

(** [String(v)], as template literals apply it (for a number, the decimal
    digits of the integer). *)
Fixpoint ToString (v : JSON) : jsstring :=
  match v with
  | JNull => u16 "null"
  | JBool true => u16 "true"
  | JBool false => u16 "false"
  | JNum n => String_of_Z n
  | JStr s => s
  | JArr items =>
      join (u16 ",")
        (map (fun x => match x with JNull => [] | _ => ToString x end) items)
  | JObj _ => u16 "[object Object]"
  end.

Definition ToString_val (v : jsvalue) : jsstring :=
  match v with
  | None => u16 "undefined"
  | Some j => ToString j
  end.

(** [callee.join(sep)], where the expression [callee] has the value [v]:
    only arrays have the method, and the error names the expression. *)
Definition call_join (callee : string) (v : jsvalue) (sep : jsstring)
  : Try jsstring :=
  match v with
  | Some (JArr items) =>
      Value (join sep
             (map (fun x => match x with JNull => [] | _ => ToString x end)
                  items))
  | _ => Raised (u16 callee ++ u16 ".join is not a function")
  end.

(** ** Effects

    The program writes log messages, reads files and sends requests; a
    computation returns its outcome together with the effects it performed,
    in order.  Nothing the program does changes what a later read returns;
    the one object that the program changes as it runs is the Ajv instance
    of the module, which is described by the answers it gives in the
    course of a run ([ajv_in_run]). *)

Inductive Level := info | warn | error.

Inductive Event : Type :=
| Log (level : Level) (header : jsstring) (lines : list jsstring)
| ReadFile (path : jsstring)
| HttpGet (url : jsstring).

Definition M (A : Type) : Type := (Outcome A * list Event)%type.

Definition ret {A} (a : A) : M A := (Ret a, []).

Definition bind {A B} (m : M A) (f : A -> M B) : M B :=
  match m with
  | (Ret a, t) => let (o, t') := f a in (o, t ++ t')
  | (Throw msg, t) => (Throw msg, t)
  | (Exit c, t) => (Exit c, t)
  end.

Definition lift {A} (o : Try A) : M A :=
  match o with
  | Value a => (Ret a, [])
  | Raised msg => (Throw msg, [])
  end.

Definition emit (e : Event) : M unit := (Ret tt, [e]).

(** [try { m } catch (e) { h e.message }]; [process.exit] is not caught. *)
Definition try_catch {A} (m : M A) (h : jsstring -> M A) : M A :=
  match m with
  | (Throw msg, t) => let (o, t') := h msg in (o, t ++ t')
  | other => other
  end.

Definition process_exit {A} (code : Z) : M A := (Exit code, []).

Declare Scope js_scope.
Delimit Scope js_scope with js.
Notation "x <- m ;; k" := (bind m (fun x => k))
  (at level 61, m at next level, right associativity) : js_scope.
Notation "m ;; k" := (bind m (fun _ => k))
  (at level 61, right associativity) : js_scope.
Open Scope js_scope.

(** [for (const x of l) f x] *)
Fixpoint M_iter {A} (f : A -> M unit) (l : list A) : M unit :=
  match l with
  | [] => ret tt
  | x :: rest => f x ;; M_iter f rest
  end.

Definition outcome {A} (m : M A) : Outcome A := fst m.
Definition effects {A} (m : M A) : list Event := snd m.

(** *** Logger ([scripts/logger.js]) *)

Definition logger (level : Level) (header : jsstring) (lines : list jsstring)
  : M unit :=
  emit (Log level header lines).

Definition reportError (title : jsstring) (lines : list jsstring) : M unit :=
  logger error title lines.

Definition reportWarning (title : jsstring) (lines : list jsstring) : M unit :=
  logger warn title lines.

(** What a call of [logger] writes: every line on the error stream, in the
    colour of the level and with the level as a tag, and, when the program
    runs in GitHub Actions, one annotation on the output stream for an error
    or a warning. *)
Definition ESC : jschar := 27%N.

Definition COLORS (level : Level) : jsstring :=
  match level with
  | info => ESC :: u16 "[32m"
  | warn => ESC :: u16 "[33m"
  | error => ESC :: u16 "[31m"
  end.

Definition COLOR_RESET : jsstring := ESC :: u16 "[0m".

Definition level_name (level : Level) : jsstring :=
  match level with
  | info => u16 "info"
  | warn => u16 "warn"
  | error => u16 "error"
  end.

(** [s.replace(/%/g, '%25').replace(/\r/g, '%0D').replace(/\n/g, '%0A')] *)
Definition escapeData (s : jsstring) : jsstring :=
  flat_map (fun c =>
              if N.eqb c 37 then u16 "%25"
              else if N.eqb c CR then u16 "%0D"
              else if N.eqb c LF then u16 "%0A"
              else [c]) s.

Definition stderr_lines (e : Event) : list jsstring :=
  match e with
  | Log level header lines =>
      map (fun l => COLORS level ++ u16 "[" ++ level_name level ++ u16 "] "
                      ++ l ++ COLOR_RESET)
          (header :: lines)
  | _ => []
  end.

(** The text on the error stream: [console.error] ends each line with a
    line feed. *)
Definition stderr_text (e : Event) : jsstring :=
  flat_map (fun l => l ++ [LF]) (stderr_lines e).

Definition stdout_lines (isGitHubActions : bool) (e : Event)
  : list jsstring :=
  match e with
  | Log error header lines =>
      if isGitHubActions
      then [ u16 "::error::" ++ escapeData (join (u16 " ") (header :: lines)) ]
      else []
  | Log warn header lines =>
      if isGitHubActions
      then [ u16 "::warning::" ++ escapeData (join (u16 " ") (header :: lines)) ]
      else []
  | _ => []
  end.

(** A finding is a message at level [error] or [warn]. *)
Definition is_finding (e : Event) : bool :=
  match e with
  | Log error _ _ | Log warn _ _ => true
  | _ => false
  end.

Definition is_error (e : Event) : bool :=
  match e with
  | Log error _ _ => true
  | _ => false
  end.

(** ** The platform

    What Node.js and the libraries provide: the file system, the [path]
    module, [JSON], the Ajv validator, the status service and the process
    environment. *)

Record AjvParams := mkParams {
  allowedValues : option JSON;
  missingProperty : option jsstring;
  type_ : option jsstring;
  additionalProperty : option jsstring
}.

(** One entry of [validate.errors]. *)
Record AjvError := mkAjvError {
  keyword : jsstring;
  instancePath : jsstring;
  message : jsstring;
  params : option AjvParams
}.

Record Platform := mkPlatform {
  cwd : jsstring;
  dirname__ : jsstring;
  argv : list jsstring;
  path_join : list jsstring -> jsstring;
  path_basename : jsstring -> jsstring;
  path_dirname : jsstring -> jsstring;
  path_relative : jsstring -> jsstring -> jsstring;
  fs_readFileSync : jsstring -> Try jsstring;
  fs_existsSync : jsstring -> bool;
  fs_readdirSync : jsstring -> Try (list jsstring);
  fs_isDirectory : jsstring -> Try bool;
  JSON_parse : jsstring -> Try JSON;
  JSON_stringify : JSON -> jsstring;
  toLowerCase : jsstring -> jsstring;
  encodeURIComponent : jsstring -> Try jsstring;
  (** [ajv.compile(schema)(manifest)] in a call of [validateManifest], for
      the Ajv instance as that call finds it: the errors, none when valid;
      compiling a malformed schema throws. *)
  ajv_validate : JSON -> JSON -> Try (list AjvError);
  (** The module has one Ajv instance, made when the module is loaded, which
      keeps every schema it has compiled: what it answers in a call depends
      on the calls before.  [ajv_in_run earlier manifestPath] is the answer
      in the call of [validateManifest] for [manifestPath] that follows, in
      one run of the script, its calls for the manifests of [earlier], in
      this order. *)
  ajv_in_run :
    list jsstring -> jsstring -> JSON -> JSON -> Try (list AjvError);
  (** The body of the response to a GET request, or the error (network
      failure, timeout) that rejects the request. *)
  https_get : jsstring -> Try jsstring;
  (** The root schema, which the module reads and parses when it is
      loaded. *)
  rootSchema : JSON
}.

(** The platform with another answer of the validator. *)
Definition with_ajv_validate (v : JSON -> JSON -> Try (list AjvError))
           (P : Platform) : Platform :=
  mkPlatform (cwd P) (dirname__ P) (argv P) (path_join P) (path_basename P)
             (path_dirname P) (path_relative P) (fs_readFileSync P)
             (fs_existsSync P) (fs_readdirSync P) (fs_isDirectory P)
             (JSON_parse P) (JSON_stringify P) (toLowerCase P)
             (encodeURIComponent P) v (ajv_in_run P) (https_get P)
             (rootSchema P).

(** The platform as the call of [validateManifest] for [manifestPath] finds
    it in a run of the script, after the calls for the manifests of
    [earlier]: the Ajv instance has compiled the schemas of those calls. *)
Definition at_call (earlier : list jsstring) (manifestPath : jsstring)
           (P : Platform) : Platform :=
  with_ajv_validate (ajv_in_run P earlier manifestPath) P.

(** The platform with another root schema. *)
Definition with_rootSchema (schema : JSON) (P : Platform) : Platform :=
  mkPlatform (cwd P) (dirname__ P) (argv P) (path_join P) (path_basename P)
             (path_dirname P) (path_relative P) (fs_readFileSync P)
             (fs_existsSync P) (fs_readdirSync P) (fs_isDirectory P)
             (JSON_parse P) (JSON_stringify P) (toLowerCase P)
             (encodeURIComponent P) (ajv_validate P) (ajv_in_run P)
             (https_get P) schema.

(** ** The validator ([scripts/validate-manifest.js]) *)

Definition QUOTE : jschar := 34%N.
Definition SLASH : jschar := 47%N.

(** [/^[a-z0-9/._-]+$/] *)
Definition path_char (c : jschar) : bool :=
  (((97 <=? c) && (c <=? 122)) || ((48 <=? c) && (c <=? 57)))%N
  || one_of (u16 "/._-") c.

Definition re_path_chars : regex :=
  RSeq RBol (RSeq (RPlus true (RCls path_char)) REol).

(** [/position\s*(\d+)/i] *)
Definition re_position : regex :=
  RSeq (RLit (u16 "position"))
       (RSeq (RStar true (RCls is_space))
             (RGroup (RPlus true (RCls is_digit)))).

(** [/,\s*[\]\}]/] *)
Definition re_trailing_comma : regex :=
  RSeq (RChr 44%N)
       (RSeq (RStar true (RCls is_space)) (RCls (one_of (u16 "]}")))).

(** [/Unexpected token ['"]?(.+?)['"]?(?: in JSON)?/i] *)
Definition re_unexpected_token : regex :=
  RSeq (RLit (u16 "Unexpected token "))
       (RSeq (ROpt (RCls (one_of (QUOTE :: u16 "'"))))
             (RSeq (RGroup (RPlus false (RCls is_dot)))
                   (RSeq (ROpt (RCls (one_of (QUOTE :: u16 "'"))))
                         (ROpt (RLit (u16 " in JSON")))))).

(** [/[-_]?smp$/i] and [/[-_]?mc$/i] *)
Definition re_smp : regex :=
  RSeq (ROpt (RCls (one_of (u16 "-_")))) (RSeq (RLit (u16 "smp")) REol).

Definition re_mc : regex :=
  RSeq (ROpt (RCls (one_of (u16 "-_")))) (RSeq (RLit (u16 "mc")) REol).

(** [new RegExp(`"${escaped}"\\s*:`, "i")], where [escaped] is [prop] with
    every character that is special in a regular expression escaped: the
    expression matches [prop] literally. *)
Definition re_property (prop : jsstring) : regex :=
  RSeq (RChr QUOTE)
       (RSeq (RLit prop)
             (RSeq (RChr QUOTE) (RSeq (RStar true (RCls is_space)) (RChr 58%N)))).

(** [parseInt(digits, 10)] for a text of decimal digits (exact; the program
    applies it to offsets into a file). *)
Definition parseInt (digits : jsstring) : Z :=
  fold_left (fun acc d => (acc * 10 + (Z.of_N d - 48))%Z) digits 0%Z.

Record Snippet := mkSnippet { sn_line : nat; sn_snippet : jsstring }.

(** The loop of [getSnippetAroundIndex]: the number of the line at which it
    stops. *)
Fixpoint snippet_loop (lines : list jsstring) (index charCount lineNum : nat)
  : nat :=
  match lines with
  | [] => lineNum
  | l :: rest =>
      let nextCount := charCount + length l + 1 in
      if index <? nextCount then lineNum
      else snippet_loop rest index nextCount (S lineNum)
  end.

(** [lines.slice(from, to)] *)
Definition slice {A} (from to : nat) (l : list A) : list A :=
  firstn (to - from) (skipn from l).

(** [l.map((x, i) => f x i)], [i] counted from [start]. *)
Fixpoint mapi_from {A B} (f : A -> nat -> B) (start : nat) (l : list A)
  : list B :=
  match l with
  | [] => []
  | x :: rest => f x start :: mapi_from f (S start) rest
  end.

Definition getSnippetAroundIndex (text : jsstring) (index : nat)
           (contextLines : nat) : Snippet :=
  let lines := split_lines text in
  let index := Nat.max 0 (Nat.min index (length text)) in
  let lineNum := snippet_loop lines index 0 0 in
  let startLine := lineNum - contextLines in
  let endLine := Nat.min (length lines - 1) (lineNum + contextLines) in
  let snippet :=
    join [LF]
      (mapi_from
         (fun l i =>
            padStart 4 (String_of_N (N.of_nat (startLine + i + 1)))
              ++ u16 " | " ++ l)
         0 (slice startLine (endLine + 1) lines)) in
  mkSnippet (lineNum + 1) snippet.

Definition findPropertySnippet (manifestText instancePath : jsstring)
  : option Snippet :=
  if negb (nonempty instancePath) then None
  else
    let parts := filter nonempty (split_chr 47%N instancePath) in
    let prop := last parts [] in
    if negb (nonempty prop) then None
    else
      match exec flag_i (re_property prop) manifestText with
      | None => None
      | Some m => Some (getSnippetAroundIndex manifestText (m_index m) 2)
      end.

Definition keyword_is (e : AjvError) (k : string) : bool :=
  jsstring_eqb (keyword e) (u16 k).

Definition TIP : jsstring :=
  u16 "Tip: run `npm run validate-manifest` after edits to re-check.".

Section Validator.

Variable P : Platform.

Definition suggestFixForAjvError (e : AjvError) : list jsstring :=
  let suggestions :=
    if keyword_is e "enum" then
      match params e with
      | Some p =>
          match allowedValues p with
          | Some v =>
              if truthy v then
                [ u16 "Allowed values: " ++ JSON_stringify P v;
                  u16 "Fix: choose one of the allowed values (check spelling and casing)." ]
              else []
          | None => []
          end
      | None => []
      end
    else if keyword_is e "required" then
      match params e with
      | Some p =>
          match missingProperty p with
          | Some x =>
              if nonempty x then
                [ u16 "Missing property: " ++ x;
                  u16 "Fix: add the property to the manifest with an appropriate value." ]
              else []
          | None => []
          end
      | None => []
      end
    else if keyword_is e "type" then
      match params e with
      | Some p =>
          match type_ p with
          | Some t =>
              if nonempty t then
                [ u16 "Expected type: " ++ t;
                  u16 "Fix: ensure the value is the correct JSON type (number, string, boolean, object, array)." ]
              else []
          | None => []
          end
      | None => []
      end
    else if keyword_is e "additionalProperties" then
      match params e with
      | Some p =>
          match additionalProperty p with
          | Some x =>
              if nonempty x then
                [ u16 "Unexpected property: " ++ x;
                  u16 "Fix: remove or rename the property, or update the schema if it should be allowed." ]
              else []
          | None => []
          end
      | None => []
      end
    else if keyword_is e "minLength" || keyword_is e "maxLength" then
      [ u16 "Fix: adjust the string length to match schema constraints." ]
    else
      [ u16 "Fix: review the schema rule and adjust the manifest accordingly." ]
  in
  suggestions ++ [TIP].

Definition prettyServerName (manifestPath : jsstring) : jsstring :=
  let name := path_basename P (path_dirname P manifestPath) in
  replace_first flag_i re_mc [] (replace_first flag_i re_smp [] name).

(** [fs.readFileSync(path, "utf8")] *)
Definition readFile (path : jsstring) : M jsstring :=
  emit (ReadFile path) ;; lift (fs_readFileSync P path).

(** The position of a syntax error: the one the parser's message gives,
    else that of a trailing comma, else that of the offending token. *)
Definition position_in_message (msg : jsstring) : option Z :=
  match exec flag_i re_position msg with
  | Some m =>
      match m_group m with
      | Some digits => Some (parseInt digits)
      | None => None
      end
  | None => None
  end.

Definition position_of_trailing_comma (manifestText : jsstring) : option Z :=
  match exec no_flags re_trailing_comma manifestText with
  | Some m => Some (Z.of_nat (m_index m))
  | None => None
  end.

Definition position_of_token (msg manifestText : jsstring) : option Z :=
  match exec flag_i re_unexpected_token msg with
  | Some m =>
      match m_group m with
      | Some tok =>
          match indexOf tok manifestText with
          | Some idx => Some (Z.of_nat idx)
          | None => None
          end
      | None => None
      end
  | None => None
  end.

Definition or_else {A} (a : option A) (b : option A) : option A :=
  match a with
  | Some x => Some x
  | None => b
  end.

Definition syntax_error_position (msg manifestText : jsstring) : option Z :=
  or_else (position_in_message msg)
    (or_else (position_of_trailing_comma manifestText)
             (position_of_token msg manifestText)).

(** The lines of the snippet around a located syntax error. *)
Definition snippet_line (lines : list jsstring) (line column : Z) (i : nat)
  : list jsstring :=
  let num := i + 1 in
  let prefix := padStart 3 (String_of_N (N.of_nat num)) ++ u16 " | " in
  (prefix ++ nth i lines [])
    :: (if (Z.of_nat i =? line - 1)%Z then
          [ spaces (Z.of_nat (length prefix) + Z.max 0 (column - 1))
              ++ u16 "^" ]
        else []).

Definition located_report (rel msg manifestText : jsstring) (pos : Z)
  : Event :=
  let lc := getLineAndColumnFromIndex manifestText pos in
  let line := lc_line lc in
  let column := lc_column lc in
  let lines := split_lines manifestText in
  let start := Z.to_nat (Z.max 0 (line - 3)) in
  let end_ := Z.to_nat (Z.min (Z.of_nat (length lines) - 1) (line + 1)) in
  let snippetLines :=
    flat_map (snippet_line lines line column) (seq start (end_ + 1 - start))
      ++ [ [];
           u16 "Suggestion: check for trailing commas, missing quotes, or incorrect brackets." ]
  in
  Log error
      (rel ++ u16 ": SyntaxError: " ++ msg ++ u16 " (" ++ String_of_Z line
           ++ u16 ":" ++ String_of_Z column ++ u16 ")")
      snippetLines.

Definition unlocated_report (rel msg : jsstring) : Event :=
  Log error (u16 "JSON syntax error in " ++ rel ++ u16 ": " ++ msg)
      [ u16 "The JSON is malformed. Common causes: trailing commas, missing quotes, or stray characters." ].

(** The [catch] block around [JSON.parse(manifestText)]. *)
Definition report_syntax_error (manifestPath manifestText err : jsstring)
  : M bool :=
  let msg := if nonempty err then err else u16 "SyntaxError" in
  let rel :=
    path_join P [ u16 "servers";
                  path_basename P (path_dirname P manifestPath);
                  path_basename P manifestPath ] in
  match syntax_error_position msg manifestText with
  | Some pos => emit (located_report rel msg manifestText pos) ;; ret false
  | None => emit (unlocated_report rel msg) ;; ret false
  end.

(** The message for one schema violation. *)
Definition violation_report (manifestText : jsstring) (e : AjvError) : Event :=
  let pathString :=
    if nonempty (instancePath e) then instancePath e else u16 "/" in
  let lines := [ pathString ++ u16 ": " ++ message e ] in
  let lines :=
    match findPropertySnippet manifestText (instancePath e) with
    | Some snippetInfo =>
        lines ++ [ [];
                   u16 "code (around line "
                     ++ String_of_N (N.of_nat (sn_line snippetInfo))
                     ++ u16 "):" ]
              ++ split_chr LF (sn_snippet snippetInfo)
    | None => lines
    end in
  let suggestions := suggestFixForAjvError e in
  let lines :=
    if 0 <? length suggestions then
      lines ++ [ []; u16 "suggestions:" ]
            ++ map (fun s => u16 "  - " ++ s) suggestions
    else lines in
  Log error (u16 "  " ++ pathString) lines.

(** [schemaPath ? JSON.parse(fs.readFileSync(schemaPath, "utf8")) : rootSchema] *)
Definition load_schema (schemaPath : option jsstring) : M JSON :=
  match schemaPath with
  | Some sp =>
      if nonempty sp then t <- readFile sp ;; lift (JSON_parse P t)
      else ret (rootSchema P)
  | None => ret (rootSchema P)
  end.

(** One call of [validateManifest].  The schema is compiled by the Ajv
    instance of the module, [ajv]; [ajv_validate P] is what that instance
    answers at this call.  The calls of a run follow one another on the
    same instance: see [check_manifests]. *)
Definition validateManifest (manifestPath : jsstring)
           (schemaPath : option jsstring) : M bool :=
  let rel := path_relative P (cwd P) manifestPath in
  if negb (test no_flags re_path_chars rel) then
    logger error (rel ++ u16 ": Non [a-z0-9/._-] character in path") [] ;;
    ret false
  else
    r <- try_catch (t <- readFile manifestPath ;; ret (Some t))
           (fun msg =>
              logger error (rel ++ u16 ": Failed to read: " ++ msg) [] ;;
              ret None) ;;
    match r with
    | None => ret false
    | Some manifestText =>
        match JSON_parse P manifestText with
        | Raised err => report_syntax_error manifestPath manifestText err
        | Value manifest =>
            schema <- load_schema schemaPath ;;
            errors <- lift (ajv_validate P schema manifest) ;;
            match errors with
            | [] => ret true
            | _ =>
                reportError (u16 "Validation failed for " ++ rel ++ u16 ":") [] ;;
                (M_iter (fun e => emit (violation_report manifestText e))
                        errors) ;;
                ret false
            end
        end
    end.

(** [path.join(dir, v)]: the argument must be a string. *)
Definition join_asset (dir : jsstring) (v : jsvalue) : Try jsstring :=
  match v with
  | Some (JStr s) => Value (path_join P [dir; s])
  | _ => Raised (u16 "The path argument must be of type string")
  end.

(** One of the two asset checks of [validateAssets]: [what] is ["Icon"] or
    ["Background"], [v] the declared path.  Returns whether the file was
    found. *)
Definition check_asset (manifestPath manifestDir : jsstring) (what : string)
           (v : jsvalue) : M bool :=
  if truthy_val v then
    assetPath <- lift (join_asset manifestDir v) ;;
    if negb (fs_existsSync P assetPath) then
      reportError (u16 what ++ u16 " file not found for "
                     ++ prettyServerName manifestPath ++ u16 ": "
                     ++ ToString_val v) [] ;;
      ret false
    else ret true
  else ret true.

Definition validateAssets (manifestPath : jsstring) : M bool :=
  try_catch
    (t <- readFile manifestPath ;;
     manifest <- lift (JSON_parse P t) ;;
     let manifestDir := path_dirname P manifestPath in
     assets <- lift (get_prop manifest (u16 "assets")) ;;
     if negb (truthy_val assets) then
       reportError (u16 "No assets section found for "
                      ++ prettyServerName manifestPath) [] ;;
       ret false
     else
       icon <- lift (get_prop_val assets (u16 "icon")) ;;
       iconFound <- check_asset manifestPath manifestDir "Icon" icon ;;
       background <- lift (get_prop_val assets (u16 "background")) ;;
       backgroundFound <-
         check_asset manifestPath manifestDir "Background" background ;;
       ret (iconFound && backgroundFound))
    (fun _ => ret false).

Definition maintenanceKeywords : list jsstring :=
  [ u16 "maintenance"; u16 "wartung"; u16 "wartungen"; u16 "downtime";
    u16 "offline"; u16 "updating"; u16 "restart"; u16 "restarting";
    u16 "instandhaltung"; u16 "manutenzione" ].

(** [manifest.edition.toLowerCase()]: only strings have the method. *)
Definition call_toLowerCase (v : jsvalue) : Try jsstring :=
  match v with
  | Some (JStr s) => Value (toLowerCase P s)
  | _ => Raised (u16 "manifest.edition.toLowerCase is not a function")
  end.

(** The text of the message of the day that is searched for keywords. *)
Definition motd_text (response : JSON) : M jsstring :=
  motd <- lift (get_prop response (u16 "motd")) ;;
  if truthy_val motd then
    clean <- lift (get_prop_val motd (u16 "clean")) ;;
    if truthy_val clean then
      joined <- lift (call_join "response.motd.clean" clean (u16 " ")) ;;
      ret (toLowerCase P joined)
    else
      raw <- lift (get_prop_val motd (u16 "raw")) ;;
      if truthy_val raw then
        joined <- lift (call_join "response.motd.raw" raw (u16 " ")) ;;
        ret (toLowerCase P joined)
      else ret []
  else ret [].

(** The inner [try] block of [checkServerStatus]: the request and the
    reading of the response. *)
Definition probe (serverName : jsstring) (address : jsvalue)
           (apiUrl : jsstring) : M bool :=
  emit (HttpGet apiUrl) ;;
  data <- lift (https_get P apiUrl) ;;
  response <- lift (JSON_parse P data) ;;
  online <- lift (get_prop response (u16 "online")) ;;
  (if negb (truthy_val online) then
     reportWarning
       (u16 "Server " ++ serverName ++ u16 " (" ++ ToString_val address
          ++ u16 ") appears to be OFFLINE")
       [ u16 "This is just a warning - validation will continue.";
         u16 "The server might be temporarily down or undergoing maintenance." ]
   else
     motdText <- motd_text response ;;
     let foundKeywords :=
       filter (fun keyword => includes keyword motdText) maintenanceKeywords in
     if 0 <? length foundKeywords then
       motd <- lift (get_prop response (u16 "motd")) ;;
       clean <- lift (get_prop_val motd (u16 "clean")) ;;
       shown <- (if truthy_val clean
                 then lift (call_join "response.motd.clean" clean (u16 " | "))
                 else ret (u16 "N/A")) ;;
       reportWarning
         (u16 "Server " ++ serverName ++ u16 " (" ++ ToString_val address
            ++ u16 ") may be in MAINTENANCE mode")
         [ u16 "MOTD contains maintenance-related keywords: "
             ++ join (u16 ", ") foundKeywords;
           u16 "The server might be undergoing maintenance or updates.";
           u16 "MOTD: " ++ shown ]
     else ret tt) ;;
  ret true.

(** The inner [try] with its [catch]: a failure of the request or of the
    reading of the response becomes a warning. *)
Definition guarded_probe (serverName : jsstring) (address : jsvalue)
           (apiUrl : jsstring) : M bool :=
  try_catch (probe serverName address apiUrl)
    (fun msg =>
       reportWarning
         (u16 "Could not check server status for " ++ serverName
            ++ u16 " (" ++ ToString_val address ++ u16 ")")
         [ u16 "Error: " ++ msg;
           u16 "This might be a temporary network issue - validation will continue." ] ;;
       ret true).

Definition checkServerStatus (manifestPath : jsstring) : M bool :=
  try_catch
    (t <- readFile manifestPath ;;
     manifest <- lift (JSON_parse P t) ;;
     let serverName := prettyServerName manifestPath in
     edition <- lift (get_prop manifest (u16 "edition")) ;;
     bedrock <-
       (if truthy_val edition then
          lower <- lift (call_toLowerCase edition) ;;
          ret (jsstring_eqb lower (u16 "bedrock"))
        else ret false) ;;
     if bedrock then ret true
     else
       sa <- lift (get_prop manifest (u16 "server-address")) ;;
       let serverAddresses : list jsvalue :=
         match sa with
         | Some (JArr items) => map Some items
         | _ => [sa]
         end in
       if length serverAddresses =? 0 then ret true
       else
         let address := hd None serverAddresses in
         encoded <- lift (encodeURIComponent P (ToString_val address)) ;;
         let apiUrl := u16 "https://api.mcsrvstat.us/3/" ++ encoded in
         guarded_probe serverName address apiUrl)
    (fun _ => ret true).

Record Discovery := mkDiscovery {
  manifests : list jsstring;
  missing : list jsstring
}.

(** The loop of [findManifestFiles] over the entries of the servers
    directory. *)
Fixpoint scan_entries (serversDir : jsstring) (entries : list jsstring)
         (found : Discovery) : Try Discovery :=
  match entries with
  | [] => Value found
  | entry :: rest =>
      let fullPath := path_join P [serversDir; entry] in
      match fs_isDirectory P fullPath with
      | Raised msg => Raised msg
      | Value false => scan_entries serversDir rest found
      | Value true =>
          let manifestPath := path_join P [fullPath; u16 "manifest.json"] in
          if fs_existsSync P manifestPath then
            scan_entries serversDir rest
              (mkDiscovery (manifests found ++ [manifestPath]) (missing found))
          else
            scan_entries serversDir rest
              (mkDiscovery (manifests found) (missing found ++ [entry]))
      end
  end.

Definition findManifestFiles : Try Discovery :=
  let serversDir := path_join P [dirname__ P; u16 ".."; u16 "servers"] in
  match fs_readdirSync P serversDir with
  | Raised msg => Raised msg
  | Value entries => scan_entries serversDir entries (mkDiscovery [] [])
  end.

(** [s.trim()] *)
Fixpoint trimStart (s : jsstring) : jsstring :=
  match s with
  | c :: s' => if is_space c then trimStart s' else s
  | [] => []
  end.

Definition trim (s : jsstring) : jsstring :=
  rev (trimStart (rev (trimStart s))).

(** [l.includes(x)] for a list of strings. *)
Definition list_includes (l : list jsstring) (x : jsstring) : bool :=
  existsb (jsstring_eqb x) l.

(** The folder filter of the command line, [None] for [null]. *)
Definition parse_folders (args : list jsstring) : option (list jsstring) :=
  match find (startsWith (u16 "--folders=")) args with
  | Some foldersArg =>
      let foldersList := nth 1 (split_chr 61%N foldersArg) [] in
      if nonempty foldersList then
        Some (filter nonempty (map trim (split_chr 44%N foldersList)))
      else None
  | None => None
  end.

(** The schema override of an entry, [None] for [null]. *)
Definition local_schema_path (manifestPath : jsstring) : option jsstring :=
  let manifestDir := path_dirname P manifestPath in
  let localSchemaPath :=
    path_join P [manifestDir; u16 "manifest-schema.json"] in
  if fs_existsSync P localSchemaPath then Some localSchemaPath else None.

End Validator.

(** *** The run

    The checks of the entries share the Ajv instance of the module: the
    loop of [main] calls [validateManifest] for one manifest after the
    other, and each call finds the instance as the calls before have left
    it. *)

Section Run.

Variable P : Platform.

(** The loop of [main] over the manifests to check; [earlier] are the
    manifests the loop has gone through. *)
Fixpoint check_manifests (earlier manifestFiles : list jsstring)
         (allValid : bool) : M bool :=
  match manifestFiles with
  | [] => ret allValid
  | manifestPath :: rest =>
      let schemaPath := local_schema_path P manifestPath in
      manifestValid <-
        validateManifest (at_call earlier manifestPath P) manifestPath
                         schemaPath ;;
      assetsValid <- validateAssets P manifestPath ;;
      _ <- checkServerStatus P manifestPath ;;
      check_manifests (earlier ++ [manifestPath]) rest
        (if negb manifestValid || negb assetsValid then false else allValid)
  end.

Definition selected_manifests (filterFolders : option (list jsstring))
           (allManifests : list jsstring) : list jsstring :=
  match filterFolders with
  | Some folders =>
      if 0 <? length folders then
        filter (fun manifestPath =>
                  list_includes folders
                    (path_basename P (path_dirname P manifestPath)))
               allManifests
      else allManifests
  | None => allManifests
  end.

Definition relevant_missing (filterFolders : option (list jsstring))
           (missingManifests : list jsstring) : list jsstring :=
  match filterFolders with
  | Some folders => filter (list_includes folders) missingManifests
  | None => missingManifests
  end.

Definition main : M unit :=
  let filterFolders := parse_folders (argv P) in
  match filterFolders with
  | Some folders =>
      logger info (u16 "Checking only specified folders: "
                     ++ join (u16 ", ") folders) []
  | None => ret tt
  end ;;
  found <- lift (findManifestFiles P) ;;
  let allManifests := manifests found in
  let missingManifests := missing found in
  let manifestFiles := selected_manifests filterFolders allManifests in
  match filterFolders with
  | Some folders =>
      if (0 <? length folders) && (length manifestFiles =? 0) then
        logger info (u16 "No matching server folders found to validate.") [] ;;
        process_exit 0
      else ret tt
  | None => ret tt
  end ;;
  (if (length manifestFiles =? 0) && (length missingManifests =? 0) then
     logger error (u16 "No manifest files found.") [] ;;
     process_exit 1
   else ret tt) ;;
  let relevantMissing :=
    if 0 <? length missingManifests
    then relevant_missing filterFolders missingManifests
    else [] in
  M_iter (fun dirName =>
            reportError (u16 "Missing manifest.json for server: " ++ dirName) [])
         relevantMissing ;;
  let allValid :=
    match relevantMissing with
    | [] => true
    | _ :: _ => false
    end in
  allValid <- check_manifests [] manifestFiles allValid ;;
  (if allValid then
     logger info (u16 "All checks passed!") [] ;;
     process_exit 0
   else ret tt) ;;
  process_exit 1.

(** The entry block, [main().catch(...)], which runs once the module is
    loaded: [rootSchema P] is the schema the module has read by then. *)
Definition run : M unit :=
  try_catch main
    (fun msg =>
       logger error (u16 "Unexpected error: " ++ msg) [] ;;
       process_exit 1).

(** The exit status of the process. *)
Definition exit_status (m : M unit) : option Z :=
  match outcome m with
  | Exit c => Some c
  | _ => None
  end.

End Run.

(** The path of the root schema. *)
Definition root_schema_path (P : Platform) : jsstring :=
  path_join P [ dirname__ P; u16 ".."; u16 "servers";
                u16 "manifest-schema.json" ].

(** The script from its first statement: loading the module reads and
    parses the root schema, outside every [try]; a failure there ends the
    process with an uncaught exception before [main] is called.  Then the
    entry block runs. *)
Definition script (P : Platform) : M unit :=
  t <- readFile P (root_schema_path P) ;;
  schema <- lift (JSON_parse P t) ;;
  run (with_rootSchema schema P).

Arguments readFile : simpl never.
Arguments prettyServerName : simpl never.
Arguments check_asset : simpl never.
Arguments load_schema : simpl never.
Arguments validateManifest : simpl never.
Arguments validateAssets : simpl never.
Arguments probe : simpl never.
Arguments guarded_probe : simpl never.
Arguments motd_text : simpl never.
Arguments checkServerStatus : simpl never.
Arguments findManifestFiles : simpl never.
Arguments check_manifests : simpl nomatch.

(** ** The comment publisher (the pull-request comment script) *)

(** [/\[warn\].*$/gm] and [/\[error\].*$/gm]: a tag and the rest of its
    line. *)
Definition re_tagged_line (tag : string) : regex :=
  RSeq (RLit (u16 tag)) (RSeq (RStar true (RCls is_dot)) REol).

(** [/\[warn\]\s*/] and [/\[error\]\s*/] *)
Definition re_tag (tag : string) : regex :=
  RSeq (RLit (u16 tag)) (RStar true (RCls is_space)).

(** [text.match(/\[tag\].*$/gm) || []] *)
Definition tagged_lines (tag : string) (text : jsstring) : list jsstring :=
  match_all flag_m (re_tagged_line tag) text.

Definition MARKER : jsstring :=
  [55357; 56589]%N ++ u16 " Validation Results".

Definition HEADING : jsstring :=
  u16 "## " ++ MARKER ++ [LF; LF].

Definition SUCCESS_BANNER : jsstring :=
  [9989%N] ++ u16 " **All checks passed!** No issues found." ++ [LF].

Definition ERRORS_TITLE : jsstring :=
  u16 "### " ++ [10060%N] ++ u16 " Errors" ++ [LF; LF].

Definition WARNINGS_TITLE : jsstring :=
  u16 "### " ++ [9888; 65039]%N ++ u16 " Warnings" ++ [LF; LF].

Definition error_bullet (err : jsstring) : jsstring :=
  let cleanErr := replace_first no_flags (re_tag "[error]") [] err in
  u16 "- " ++ [55357; 56628]%N ++ u16 " " ++ cleanErr ++ [LF].

Definition warning_bullet (w : jsstring) : jsstring :=
  let cleanWarn := replace_first no_flags (re_tag "[warn]") [] w in
  u16 "- " ++ [55357; 57313]%N ++ u16 " " ++ cleanWarn ++ [LF].

Definition errors_section (allErrors : list jsstring) : jsstring :=
  if 0 <? length allErrors then
    ERRORS_TITLE ++ concat (map error_bullet allErrors) ++ [LF]
  else [].

Definition warnings_section (warnings : list jsstring) : jsstring :=
  if 0 <? length warnings then
    WARNINGS_TITLE ++ concat (map warning_bullet warnings) ++ [LF]
  else [].

Definition footer (checkedFolders : jsstring) : jsstring :=
  u16 "---" ++ [LF] ++ u16 "**Checked folders:** `" ++ checkedFolders
      ++ u16 "`".

(** The Markdown document for the given error and warning lines. *)
Definition render (allErrors warnings : list jsstring)
           (checkedFolders : jsstring) : jsstring :=
  HEADING
    ++ (if (length allErrors =? 0) && (length warnings =? 0) then
          SUCCESS_BANNER
        else errors_section allErrors ++ warnings_section warnings)
    ++ footer checkedFolders.

(** The inputs of a run: the two log files ([None] when reading one fails)
    and the [CHECKED_FOLDERS] variable ([None] when it is not set). *)
Record Logs := mkLogs {
  validation_log : option jsstring;
  images_log : option jsstring;
  checked_folders : option jsstring
}.

Definition buildComment (l : Logs) : jsstring :=
  let validationOutput :=
    match validation_log l with
    | Some t => t
    | None => u16 "No validation output"
    end in
  let imagesOutput :=
    match images_log l with
    | Some t => t
    | None => u16 "No image validation output"
    end in
  let warnings := tagged_lines "[warn]" validationOutput in
  let errors := tagged_lines "[error]" validationOutput in
  let imageErrors := tagged_lines "[error]" imagesOutput in
  let allErrors := errors ++ imageErrors in
  let checkedFolders :=
    match checked_folders l with
    | Some f => if nonempty f then f else u16 "N/A"
    | None => u16 "N/A"
    end in
  render allErrors warnings checkedFolders.

(** *** The review thread

    The comments of a pull request as the service keeps them, in the order
    of their creation: an update replaces the body of the comment with the
    given id, a creation adds a comment with a new id, written by the
    identity the script runs as. *)

Record Comment := mkComment {
  c_id : Z;
  c_user_type : jsstring;
  c_body : jsstring
}.

Definition Thread := list Comment.

(** [github.rest.issues.listComments({ owner, repo, issue_number })]: the
    script sends one request, without [per_page] and without following the
    pages, so it receives the first page of the thread: its first 30
    comments. *)
Definition PER_PAGE : nat := 30.

Definition listComments (t : Thread) : list Comment := firstn PER_PAGE t.

Definition updateComment (comment_id : Z) (body : jsstring) (t : Thread)
  : Thread :=
  map (fun c =>
         if Z.eqb (c_id c) comment_id
         then mkComment (c_id c) (c_user_type c) body
         else c) t.

Definition fresh_id (t : Thread) : Z :=
  fold_right (fun c acc => Z.max (c_id c + 1) acc) 1%Z t.

Definition createComment (actor : jsstring) (body : jsstring) (t : Thread)
  : Thread :=
  t ++ [mkComment (fresh_id t) actor body].

(** The comment the script looks for. *)
Definition is_bot_comment (c : Comment) : bool :=
  jsstring_eqb (c_user_type c) (u16 "Bot") && includes MARKER (c_body c).

Inductive Action := Updated (comment_id : Z) | Created.

(** The message the script passes to [core.info]. *)
Definition action_message (a : Action) : jsstring :=
  match a with
  | Updated _ => u16 "Updating existing PR comment"
  | Created => u16 "Creating new PR comment"
  end.

(** One run of the script, as the identity [actor]. *)
Definition publish (actor : jsstring) (l : Logs) (t : Thread)
  : Action * Thread :=
  let comment := buildComment l in
  match find is_bot_comment (listComments t) with
  | Some botComment =>
      (Updated (c_id botComment), updateComment (c_id botComment) comment t)
  | None => (Created, createComment actor comment t)
  end.

Definition BOT : jsstring := u16 "Bot".

Definition bot_comments (t : Thread) : list Comment :=
  filter is_bot_comment t.

(** Whether a carriage return stands directly before a line feed. *)
Fixpoint has_crlf (s : jsstring) : bool :=
  match s with
  | [] => false
  | x :: s' =>
      match s' with
      | y :: _ => (N.eqb x CR && N.eqb y LF) || has_crlf s'
      | [] => false
      end
  end.

(** The offset at which column [c] (counted from 0) of line [l] (counted
    from 0) starts, each earlier line counted with one separator. *)
Definition offset_of (lines : list jsstring) (l c : nat) : nat :=
  list_sum (map (fun x => S (length x)) (firstn l lines)) + c.


(** A declared asset is in place: nothing is declared under the key, or the
    declared path names an existing file below the manifest's directory. *)
Definition asset_in_place (P : Platform) (manifestDir : jsstring)
           (v : jsvalue) : Prop :=
  truthy_val v = false
  \/ exists s, v = Some (JStr s)
               /\ fs_existsSync P (path_join P [manifestDir; s]) = true.


(** A computation that cannot make validation fail: it writes no message at
    level [error], does not end the process, and a value it returns
    satisfies [Q]. *)
Definition harmless {A} (Q : A -> Prop) (m : M A) : Prop :=
  Forall (fun e => is_error e = false) (effects m)
  /\ match outcome m with
     | Ret a => Q a
     | Throw _ => True
     | Exit _ => False
     end.


(** An entry passes when the manifest check and the asset check both return
    [true]. *)
Definition passes (P : Platform) (manifestPath : jsstring) : Prop :=
  outcome (validateManifest P manifestPath (local_schema_path P manifestPath))
  = Ret true
  /\ outcome (validateAssets P manifestPath) = Ret true.

(** The manifests of a run, each with the platform that its manifest
    validation finds; [earlier] are the manifests that were checked
    before. *)
Fixpoint turns (P : Platform) (earlier files : list jsstring)
  : list (Platform * jsstring) :=
  match files with
  | [] => []
  | manifestPath :: rest =>
      (at_call earlier manifestPath P, manifestPath)
        :: turns P (earlier ++ [manifestPath]) rest
  end.

(** A property of an entry, at its turn. *)
Definition in_turn {A} (f : Platform -> jsstring -> A)
           (t : Platform * jsstring) : A :=
  f (fst t) (snd t).

(** Whether the command line restricts the run to a non-empty list of
    folders. *)
Definition restricted (filterFolders : option (list jsstring)) : bool :=
  match filterFolders with
  | Some (_ :: _) => true
  | _ => false
  end.

(** The platform with another status service. *)
Definition with_https_get (h : jsstring -> Try jsstring) (P : Platform)
  : Platform :=
  mkPlatform (cwd P) (dirname__ P) (argv P) (path_join P) (path_basename P)
             (path_dirname P) (path_relative P) (fs_readFileSync P)
             (fs_existsSync P) (fs_readdirSync P) (fs_isDirectory P)
             (JSON_parse P) (JSON_stringify P) (toLowerCase P)
             (encodeURIComponent P) (ajv_validate P) (ajv_in_run P) h
             (rootSchema P).


(** A computation that does not end the process. *)
Definition stays {A} (m : M A) : Prop :=
  match outcome m with
  | Exit _ => False
  | _ => True
  end.


(** How [main] ends after the loop over the manifests. *)
Definition verdict (o : Outcome bool) : Outcome unit :=
  match o with
  | Ret true => Exit 0
  | Ret false => Exit 1
  | Throw msg => Throw msg
  | Exit c => Exit c
  end.

Definition all_found (relevantMissing : list jsstring) : bool :=
  match relevantMissing with
  | [] => true
  | _ :: _ => false
  end.



(** *** Findings of the Schema Validator *)

Definition lines_of (e : Event) : list jsstring :=
  match e with
  | Log _ _ lines => lines
  | _ => []
  end.

(** The finding names [x] as a missing property. *)
Definition names_missing (x : jsstring) (e : Event) : bool :=
  is_error e
  && existsb (jsstring_eqb (u16 "  - Missing property: " ++ x)) (lines_of e).

(** The violation is one of [required] for the property [x]. *)
Definition required_for (x : jsstring) (e : AjvError) : bool :=
  keyword_is e "required"
  && match params e with
     | Some p =>
         match missingProperty p with
         | Some y => jsstring_eqb x y
         | None => false
         end
     | None => false
     end.

(** The instance path of a violation is a JSON pointer: empty, or a text
    that starts with a slash. *)
Definition pointer_like (e : AjvError) : Prop :=
  instancePath e = [] \/ exists rest, instancePath e = SLASH :: rest.

(** ** A small platform for the examples

    A POSIX-like [path] module, a file system given by a table of files and
    the entries of the servers directory, a parser and a status service
    given by tables, and a validator that knows the keywords [required] and
    [enum]. *)

(** The segments of a path with [.] dropped and [..] resolved. *)
Fixpoint resolve_segments (segments : list jsstring) (stack : list jsstring)
  : list jsstring :=
  match segments with
  | [] => rev stack
  | seg :: rest =>
      if jsstring_eqb seg (u16 "..") then resolve_segments rest (tl stack)
      else if jsstring_eqb seg (u16 ".") || negb (nonempty seg)
           then resolve_segments rest stack
           else resolve_segments rest (seg :: stack)
  end.

Definition posix_join (parts : list jsstring) : jsstring :=
  let whole := join [SLASH] (filter nonempty parts) in
  let body := join [SLASH] (resolve_segments (split_chr SLASH whole) []) in
  if startsWith [SLASH] whole then SLASH :: body else body.

Definition posix_basename (p : jsstring) : jsstring :=
  last (split_chr SLASH p) [].

Definition posix_dirname (p : jsstring) : jsstring :=
  join [SLASH] (removelast (split_chr SLASH p)).

Definition posix_relative (from to : jsstring) : jsstring :=
  if startsWith (from ++ [SLASH]) to then skipn (length from + 1) to else to.

Fixpoint assoc {B} (k : jsstring) (table : list (jsstring * B)) : option B :=
  match table with
  | [] => None
  | (k', v) :: rest => if jsstring_eqb k k' then Some v else assoc k rest
  end.

Record World := mkWorld {
  w_argv : list jsstring;
  (** the entries of the servers directory, with whether each is a
      directory *)
  w_entries : list (jsstring * bool);
  w_files : list (jsstring * jsstring);
  w_parses : list (jsstring * Try JSON);
  w_service : list (jsstring * Try jsstring);
  w_rootSchema : JSON
}.

Definition REPO : jsstring := u16 "/repo".
Definition SERVERS : jsstring := u16 "/repo/servers".

Definition world_exists (w : World) (p : jsstring) : bool :=
  match assoc p (w_files w) with
  | Some _ => true
  | None =>
      jsstring_eqb p SERVERS
      || existsb (fun e => jsstring_eqb p (posix_join [SERVERS; fst e]))
                 (w_entries w)
  end.

Definition world_read (w : World) (p : jsstring) : Try jsstring :=
  match assoc p (w_files w) with
  | Some t => Value t
  | None => Raised (u16 "ENOENT: no such file or directory, open '" ++ p
                      ++ u16 "'")
  end.

Definition world_readdir (w : World) (p : jsstring)
  : Try (list jsstring) :=
  if jsstring_eqb p SERVERS then Value (map fst (w_entries w))
  else Raised (u16 "ENOENT: no such file or directory, scandir '" ++ p
                 ++ u16 "'").

Definition world_isDirectory (w : World) (p : jsstring) : Try bool :=
  match find (fun e => jsstring_eqb p (posix_join [SERVERS; fst e]))
             (w_entries w) with
  | Some e => Value (snd e)
  | None => Raised (u16 "ENOENT: no such file or directory, stat '" ++ p
                      ++ u16 "'")
  end.

Definition world_parse (w : World) (t : jsstring) : Try JSON :=
  match assoc t (w_parses w) with
  | Some r => r
  | None => Raised (u16 "Unexpected end of JSON input")
  end.

Definition world_get (w : World) (url : jsstring) : Try jsstring :=
  match assoc url (w_service w) with
  | Some r => r
  | None => Raised (u16 "getaddrinfo ENOTFOUND api.mcsrvstat.us")
  end.

(** [JSON.stringify] for the values of the examples: their strings need
    no escapes. *)
Fixpoint stringify (v : JSON) : jsstring :=
  match v with
  | JNull => u16 "null"
  | JBool true => u16 "true"
  | JBool false => u16 "false"
  | JNum n => String_of_Z n
  | JStr s => QUOTE :: s ++ [QUOTE]
  | JArr items => u16 "[" ++ join (u16 ",") (map stringify items) ++ u16 "]"
  | JObj fields =>
      u16 "{"
        ++ join (u16 ",")
             (map (fun kv =>
                     match kv with
                     | (k, x) => QUOTE :: k ++ [QUOTE] ++ u16 ":" ++ stringify x
                     end) fields)
        ++ u16 "}"
  end.

Definition is_unreserved (c : jschar) : bool :=
  (((97 <=? c) && (c <=? 122)) || ((65 <=? c) && (c <=? 90))
   || ((48 <=? c) && (c <=? 57)))%N
  || one_of (u16 "-_.!~*'()") c.

(** [encodeURIComponent]: an unreserved character stands for itself, every
    other code point is written as the bytes of its UTF-8 encoding, each as
    [%] and two hexadecimal digits; a surrogate without its partner makes the
    call throw. *)
Definition hex_digit (n : N) : jschar :=
  (if n <? 10 then 48 + n else 55 + n)%N.

Definition percent (byte : N) : jsstring :=
  [ 37%N; hex_digit (byte / 16)%N; hex_digit (byte mod 16)%N ].

Definition utf8 (cp : N) : list N :=
  (if cp <? 128 then [cp]
   else if cp <? 2048 then [192 + cp / 64; 128 + cp mod 64]
   else if cp <? 65536
        then [224 + cp / 4096; 128 + (cp / 64) mod 64; 128 + cp mod 64]
        else [240 + cp / 262144; 128 + (cp / 4096) mod 64;
              128 + (cp / 64) mod 64; 128 + cp mod 64])%N.

Definition is_high_surrogate (c : jschar) : bool :=
  ((55296 <=? c) && (c <=? 56319))%N.

Definition is_low_surrogate (c : jschar) : bool :=
  ((56320 <=? c) && (c <=? 57343))%N.

Definition prepend (s : jsstring) (r : Try jsstring) : Try jsstring :=
  match r with
  | Value t => Value (s ++ t)
  | Raised msg => Raised msg
  end.

Fixpoint encode_uri_component (s : jsstring) : Try jsstring :=
  match s with
  | [] => Value []
  | c :: rest =>
      if is_unreserved c then prepend [c] (encode_uri_component rest)
      else if is_low_surrogate c then Raised (u16 "URI malformed")
      else if is_high_surrogate c then
        match rest with
        | d :: rest' =>
            if is_low_surrogate d then
              prepend
                (flat_map percent
                   (utf8 (65536 + (c - 55296) * 1024 + (d - 56320))%N))
                (encode_uri_component rest')
            else Raised (u16 "URI malformed")
        | [] => Raised (u16 "URI malformed")
        end
      else prepend (flat_map percent (utf8 c)) (encode_uri_component rest)
  end.

Definition string_items (v : jsvalue) : list jsstring :=
  match v with
  | Some (JArr items) =>
      flat_map (fun x => match x with JStr s => [s] | _ => [] end) items
  | _ => []
  end.

(** The violations of [required]. *)
Definition required_errors (schema manifest : list (jsstring * JSON))
  : list AjvError :=
  flat_map
    (fun name =>
       match lookup name manifest with
       | Some _ => []
       | None =>
           [ mkAjvError (u16 "required") []
               (u16 "must have required property '" ++ name ++ u16 "'")
               (Some (mkParams None (Some name) None None)) ]
       end)
    (string_items (lookup (u16 "required") schema)).

(** The violations of [enum] in the properties of the schema, for values
    that are strings. *)
Definition enum_errors (schema manifest : list (jsstring * JSON))
  : list AjvError :=
  match lookup (u16 "properties") schema with
  | Some (JObj props) =>
      flat_map
        (fun (prop : jsstring * JSON) =>
           match snd prop, lookup (fst prop) manifest with
           | JObj rules, Some (JStr v) =>
               match lookup (u16 "enum") rules with
               | Some (JArr allowed) =>
                   if existsb (jsstring_eqb v) (string_items (Some (JArr allowed)))
                   then []
                   else
                     [ mkAjvError (u16 "enum") (SLASH :: fst prop)
                         (u16 "must be equal to one of the allowed values")
                         (Some (mkParams (Some (JArr allowed)) None None None)) ]
               | _ => []
               end
           | _, _ => []
           end)
        props
  | _ => []
  end.

Definition simple_validate (schema manifest : JSON) : Try (list AjvError) :=
  match schema, manifest with
  | JObj s, JObj m => Value (required_errors s m ++ enum_errors s m)
  | JObj _, _ =>
      Value [ mkAjvError (u16 "type") [] (u16 "must be object")
                (Some (mkParams None None (Some (u16 "object")) None)) ]
  | JBool true, _ => Value []
  | JBool false, _ =>
      Value [ mkAjvError (u16 "false schema") []
                (u16 "boolean schema is false")
                (Some (mkParams None None None None)) ]
  | _, _ => Raised (u16 "schema must be object or boolean")
  end.

(** The Ajv instance in a run.  The instance registers the [$id] of every
    schema it compiles and refuses a schema whose [$id] is registered.  It
    remembers the objects it has been given: the root schema is one object,
    registered at its first use, while every call for an entry with a schema
    override parses a new object. *)
Definition schema_id (schema : JSON) : option jsstring :=
  match schema with
  | JObj fields =>
      match lookup (u16 "$id") fields with
      | Some (JStr id) => if nonempty id then Some id else None
      | _ => None
      end
  | _ => None
  end.

Definition is_schema (schema : JSON) : bool :=
  match schema with
  | JObj _ | JBool _ => true
  | _ => false
  end.

(** What the call of [validateManifest] for [manifestPath] passes to
    [ajv.compile]: nothing when the call ends before, else [None] for the
    root schema and the parsed schema for an override. *)
Definition world_compiled (w : World) (manifestPath : jsstring)
  : option (option JSON) :=
  if negb (test no_flags re_path_chars (posix_relative REPO manifestPath))
  then None
  else
    match world_read w manifestPath with
    | Raised _ => None
    | Value t =>
        match world_parse w t with
        | Raised _ => None
        | Value _ =>
            let localSchemaPath :=
              posix_join [ posix_dirname manifestPath;
                           u16 "manifest-schema.json" ] in
            if world_exists w localSchemaPath then
              match world_read w localSchemaPath with
              | Raised _ => None
              | Value st =>
                  match world_parse w st with
                  | Raised _ => None
                  | Value schema => Some (Some schema)
                  end
              end
            else Some None
        end
    end.

Record Instance := mkInstance {
  registered : list jsstring;
  root_known : bool
}.

Definition register (id : option jsstring) (ids : list jsstring)
  : list jsstring :=
  match id with
  | Some x => if existsb (jsstring_eqb x) ids then ids else x :: ids
  | None => ids
  end.

(** The instance after the call for [manifestPath]. *)
Definition instance_step (w : World) (st : Instance)
           (manifestPath : jsstring) : Instance :=
  match world_compiled w manifestPath with
  | None => st
  | Some None =>
      if root_known st || negb (is_schema (w_rootSchema w)) then st
      else mkInstance (register (schema_id (w_rootSchema w)) (registered st))
                      true
  | Some (Some schema) =>
      if is_schema schema
      then mkInstance (register (schema_id schema) (registered st))
                      (root_known st)
      else st
  end.

(** The answer of the instance for a schema; [fresh] tells that the schema
    is an object the instance has not been given before. *)
Definition instance_answer (st : Instance) (fresh : bool)
           (schema manifest : JSON) : Try (list AjvError) :=
  if negb (is_schema schema)
  then Raised (u16 "schema must be object or boolean")
  else
    match schema_id schema with
    | Some id =>
        if fresh && existsb (jsstring_eqb id) (registered st)
        then Raised (u16 "schema with key or id " ++ [QUOTE] ++ id ++ [QUOTE]
                       ++ u16 " already exists")
        else simple_validate schema manifest
    | None => simple_validate schema manifest
    end.

Definition world_ajv (w : World) (earlier : list jsstring)
           (manifestPath : jsstring) (schema manifest : JSON)
  : Try (list AjvError) :=
  let st := fold_left (instance_step w) earlier (mkInstance [] false) in
  let fresh :=
    match world_compiled w manifestPath with
    | Some (Some _) => true
    | _ => negb (root_known st)
    end in
  instance_answer st fresh schema manifest.

(** The root schema lies in the servers directory of every world, as a
    file that parses to the schema of the world; the directory lists it
    behind the entries of the world. *)
Definition ROOT_SCHEMA_PATH : jsstring :=
  u16 "/repo/servers/manifest-schema.json".

Definition ROOT_SCHEMA_TEXT : jsstring := u16 "{ the root schema }".

Definition with_root_schema (w : World) : World :=
  mkWorld (w_argv w)
          (w_entries w ++ [ (u16 "manifest-schema.json", false) ])
          ((ROOT_SCHEMA_PATH, ROOT_SCHEMA_TEXT) :: w_files w)
          ((ROOT_SCHEMA_TEXT, Value (w_rootSchema w)) :: w_parses w)
          (w_service w)
          (w_rootSchema w).

Definition platform_in (w : World) : Platform :=
  mkPlatform REPO (u16 "/repo/scripts") (w_argv w)
             posix_join posix_basename posix_dirname posix_relative
             (world_read w) (world_exists w) (world_readdir w)
             (world_isDirectory w) (world_parse w) stringify
             (map to_lower) encode_uri_component simple_validate
             (world_ajv w) (world_get w) (w_rootSchema w).

Definition platform_of (w : World) : Platform :=
  platform_in (with_root_schema w).


(** *** The worlds of the examples *)

Definition FOO_MANIFEST : jsstring := u16 "/repo/servers/foo/manifest.json".

Definition FOO_TEXT : jsstring := u16 "{ the manifest of foo }".

Definition ROOT_SCHEMA : JSON :=
  JObj [ (u16 "required", JArr [JStr (u16 "server-address")]);
         (u16 "properties",
          JObj [ (u16 "edition",
                  JObj [ (u16 "enum",
                          JArr [JStr (u16 "java"); JStr (u16 "bedrock")]) ]) ]) ].

Definition STATUS_URL : jsstring :=
  u16 "https://api.mcsrvstat.us/3/play.foo.net".

(** One entry, [foo], with its icon file, whose manifest is at [path], has
    the text [text] and parses to [manifest]; the status service answers
    that the server is online. *)
Definition world_with (args : list jsstring) (path text : jsstring)
           (manifest : Try JSON) : World :=
  mkWorld args
          [ (u16 "foo", true); (u16 "README.md", false) ]
          [ (path, text);
            (u16 "/repo/servers/foo/icon.png", u16 "PNG") ]
          [ (text, manifest);
            (u16 "{ online }", Value (JObj [(u16 "online", JBool true)])) ]
          [ (STATUS_URL, Value (u16 "{ online }")) ]
          ROOT_SCHEMA.

Definition GOOD_MANIFEST : JSON :=
  JObj [ (u16 "server-address", JStr (u16 "play.foo.net"));
         (u16 "edition", JStr (u16 "java"));
         (u16 "assets", JObj [ (u16 "icon", JStr (u16 "icon.png")) ]) ].

Definition world_good : World :=
  world_with [] FOO_MANIFEST FOO_TEXT (Value GOOD_MANIFEST).

(** The manifest of [foo] declares an edition and no address. *)
Definition world_no_address : World :=
  world_with [] FOO_MANIFEST FOO_TEXT
             (Value (JObj [ (u16 "edition", JStr (u16 "java")) ])).

(** The manifest of [foo] ends a list with a comma. *)
Definition COMMA_TEXT : jsstring := u16 "[1, 2, ]".

Definition COMMA_ERROR : jsstring :=
  u16 "Unexpected token ']', " ++ [QUOTE] ++ COMMA_TEXT ++ [QUOTE]
      ++ u16 " is not valid JSON".

Definition world_comma : World :=
  world_with [] FOO_MANIFEST COMMA_TEXT (Raised COMMA_ERROR).

(** The manifest lies in a folder with an upper-case letter. *)
Definition UPPER_MANIFEST : jsstring := u16 "/repo/servers/Foo/manifest.json".

Definition world_upper : World :=
  world_with [] UPPER_MANIFEST FOO_TEXT (Value GOOD_MANIFEST).

(** The manifest of [foo] declares an edition that the schema does not
    allow, and no address. *)
Definition INVALID_TEXT : jsstring :=
  u16 "{" ++ [LF] ++ u16 "  " ++ [QUOTE] ++ u16 "edition" ++ [QUOTE]
      ++ u16 ": " ++ [QUOTE] ++ u16 "pocket" ++ [QUOTE] ++ [LF] ++ u16 "}".

Definition world_invalid : World :=
  world_with [] FOO_MANIFEST INVALID_TEXT
             (Value (JObj [ (u16 "edition", JStr (u16 "pocket")) ])).

(** The schema requires the property with the empty name, which the
    manifest of [foo] lacks. *)
Definition world_blank : World :=
  mkWorld [] [ (u16 "foo", true) ]
          [ (FOO_MANIFEST, u16 "{}") ]
          [ (u16 "{}", Value (JObj [])) ]
          []
          (JObj [ (u16 "required", JArr [JStr []]) ]).

(** The violations the validator reports for the manifest of
    [world_invalid]. *)
Definition INVALID_ERRORS : list AjvError :=
  [ mkAjvError (u16 "required") []
      (u16 "must have required property 'server-address'")
      (Some (mkParams None (Some (u16 "server-address")) None None));
    mkAjvError (u16 "enum") (u16 "/edition")
      (u16 "must be equal to one of the allowed values")
      (Some (mkParams (Some (JArr [JStr (u16 "java"); JStr (u16 "bedrock")]))
                      None None None)) ].

(** The violation the validator reports for the manifest of
    [world_blank]. *)
Definition BLANK_ERROR : AjvError :=
  mkAjvError (u16 "required") []
    (u16 "must have required property ''")
    (Some (mkParams None (Some []) None None)).

(** The manifest of [foo] holds a bare word. *)
Definition WORD_TEXT : jsstring := u16 "{x}".

Definition WORD_ERROR : jsstring :=
  u16 "Unexpected token 'x', " ++ [QUOTE] ++ WORD_TEXT ++ [QUOTE]
      ++ u16 " is not valid JSON".

Definition world_word : World :=
  world_with [] FOO_MANIFEST WORD_TEXT (Raised WORD_ERROR).

(** The manifest of [foo] breaks off. *)
Definition world_broken : World :=
  world_with [] FOO_MANIFEST (u16 "{")
             (Raised (u16 "Unexpected end of JSON input")).

(** The status service does not answer for [foo]. *)
Definition world_offline_service : World :=
  mkWorld [] [ (u16 "foo", true) ]
          [ (FOO_MANIFEST, FOO_TEXT);
            (u16 "/repo/servers/foo/icon.png", u16 "PNG") ]
          [ (FOO_TEXT, Value GOOD_MANIFEST) ]
          [ (STATUS_URL, Raised (u16 "Request timeout")) ]
          ROOT_SCHEMA.

(** Two directories: [foo] with a valid manifest and its icon, [bar]
    without a manifest. *)
Definition world_two (args : list jsstring) : World :=
  mkWorld args
          [ (u16 "foo", true); (u16 "bar", true) ]
          [ (FOO_MANIFEST, FOO_TEXT);
            (u16 "/repo/servers/foo/icon.png", u16 "PNG") ]
          [ (FOO_TEXT, Value GOOD_MANIFEST);
            (u16 "{ online }", Value (JObj [(u16 "online", JBool true)])) ]
          [ (STATUS_URL, Value (u16 "{ online }")) ]
          ROOT_SCHEMA.

(** A servers directory without folders. *)
Definition world_empty : World :=
  mkWorld [] [] [] [] [] ROOT_SCHEMA.


(** *** The logs and threads of the examples *)

Definition LOGS_ONE_ERROR : Logs :=
  mkLogs (Some (u16 "[error] Foo is broken")) (Some []) None.

Definition LOGS_CLEAN : Logs := mkLogs (Some []) (Some []) None.

(** A thread on which two comments of the bot already bear the marker. *)
Definition THREAD_TWO : Thread :=
  [ mkComment 1 BOT (buildComment LOGS_CLEAN);
    mkComment 2 (u16 "User") (u16 "looks good");
    mkComment 3 BOT (buildComment LOGS_CLEAN) ].

(** A thread with comments of users only. *)
Definition THREAD_USERS : Thread :=
  [ mkComment 7 (u16 "User") (u16 "please review");
    mkComment 9 (u16 "User") (u16 "looks good") ].

(** A thread of thirty comments of users: it fills the first page. *)
Definition THREAD_FULL_PAGE : Thread :=
  map (fun i => mkComment (Z.of_nat i) (u16 "User") (u16 "looks good"))
      (seq 1 30).

(** The same thread after a report of the bot: the report is its
    thirty-first comment. *)
Definition THREAD_OLD_REPORT : Thread :=
  THREAD_FULL_PAGE ++ [ mkComment 31 BOT (buildComment LOGS_CLEAN) ].

(** *** Discovery *)

(** The servers directory, and for one of its entries: whether it is a
    directory, the path of its manifest, whether the manifest exists. *)
Definition servers_dir (P : Platform) : jsstring :=
  path_join P [dirname__ P; u16 ".."; u16 "servers"].

Definition is_directory (P : Platform) (entry : jsstring) : bool :=
  match fs_isDirectory P (path_join P [servers_dir P; entry]) with
  | Value true => true
  | _ => false
  end.

Definition manifest_of (P : Platform) (entry : jsstring) : jsstring :=
  path_join P [path_join P [servers_dir P; entry]; u16 "manifest.json"].

Definition has_manifest (P : Platform) (entry : jsstring) : bool :=
  fs_existsSync P (manifest_of P entry).

(** The program installed outside the repository: next to its directory
    there is no servers directory. *)
Definition platform_elsewhere : Platform :=
  mkPlatform REPO (u16 "/elsewhere/scripts") []
             posix_join posix_basename posix_dirname posix_relative
             (world_read world_empty) (world_exists world_empty)
             (world_readdir world_empty) (world_isDirectory world_empty)
             (world_parse world_empty) stringify (map to_lower)
             encode_uri_component simple_validate (world_ajv world_empty)
             (world_get world_empty) ROOT_SCHEMA.

(** The manifest of [foo] declares a number as its icon. *)
Definition world_icon_number : World :=
  world_with [] FOO_MANIFEST FOO_TEXT
             (Value (JObj [ (u16 "assets", JObj [ (u16 "icon", JNum 42) ]) ])).

(** *** The output of a run *)

(** What the three checks of one entry do. *)
Definition entry_effects (P : Platform) (manifestPath : jsstring)
  : list Event :=
  effects (validateManifest P manifestPath (local_schema_path P manifestPath))
    ++ effects (validateAssets P manifestPath)
    ++ effects (checkServerStatus P manifestPath).

(** The manifest validation of the entry does not throw. *)
Definition schema_stage_ok (P : Platform) (manifestPath : jsstring) : Prop :=
  forall msg,
    outcome (validateManifest P manifestPath (local_schema_path P manifestPath))
    <> Throw msg.

(** The first line of a run with a folder filter. *)
Definition filter_line (filterFolders : option (list jsstring))
  : list Event :=
  match filterFolders with
  | Some folders =>
      [ Log info (u16 "Checking only specified folders: "
                    ++ join (u16 ", ") folders) [] ]
  | None => []
  end.

Definition missing_report (dirName : jsstring) : Event :=
  Log error (u16 "Missing manifest.json for server: " ++ dirName) [].

(** The entry [foo] has a schema override that breaks off. *)
Definition FOO_SCHEMA : jsstring :=
  u16 "/repo/servers/foo/manifest-schema.json".

Definition world_bad_schema : World :=
  mkWorld []
          [ (u16 "foo", true) ]
          [ (FOO_MANIFEST, FOO_TEXT);
            (FOO_SCHEMA, u16 "{");
            (u16 "/repo/servers/foo/icon.png", u16 "PNG") ]
          [ (FOO_TEXT, Value GOOD_MANIFEST) ]
          [ (STATUS_URL, Value (u16 "{ online }")) ]
          ROOT_SCHEMA.

(** Two entries, [bar] and [foo], each with a valid manifest, its icon and
    a schema override; the two overrides bear the same [$id]. *)
Definition BAR_MANIFEST : jsstring := u16 "/repo/servers/bar/manifest.json".

Definition BAR_TEXT : jsstring := u16 "{ the manifest of bar }".

Definition BAR_SCHEMA : jsstring :=
  u16 "/repo/servers/bar/manifest-schema.json".

Definition BAR_OVERRIDE : JSON :=
  JObj [ (u16 "$id", JStr (u16 "https://example.org/manifest-schema.json"));
         (u16 "required", JArr [JStr (u16 "server-address")]) ].

Definition FOO_OVERRIDE : JSON :=
  JObj [ (u16 "$id", JStr (u16 "https://example.org/manifest-schema.json"));
         (u16 "required", JArr [JStr (u16 "edition")]) ].

Definition world_same_id : World :=
  mkWorld []
          [ (u16 "bar", true); (u16 "foo", true) ]
          [ (BAR_MANIFEST, BAR_TEXT);
            (BAR_SCHEMA, u16 "{ the schema of bar }");
            (u16 "/repo/servers/bar/icon.png", u16 "PNG");
            (FOO_MANIFEST, FOO_TEXT);
            (FOO_SCHEMA, u16 "{ the schema of foo }");
            (u16 "/repo/servers/foo/icon.png", u16 "PNG") ]
          [ (BAR_TEXT, Value GOOD_MANIFEST);
            (FOO_TEXT, Value GOOD_MANIFEST);
            (u16 "{ the schema of bar }", Value BAR_OVERRIDE);
            (u16 "{ the schema of foo }", Value FOO_OVERRIDE);
            (u16 "{ online }", Value (JObj [(u16 "online", JBool true)])) ]
          [ (STATUS_URL, Value (u16 "{ online }")) ]
          ROOT_SCHEMA.

(** The servers directory of [world_same_id] with a dangling symbolic
    link, [old]: the directory lists it, and examining it fails. *)
Definition platform_dangling : Platform :=
  let w := with_root_schema world_same_id in
  mkPlatform REPO (u16 "/repo/scripts") []
             posix_join posix_basename posix_dirname posix_relative
             (world_read w) (world_exists w)
             (fun p =>
                if jsstring_eqb p SERVERS
                then Value [ u16 "bar"; u16 "old"; u16 "foo";
                             u16 "manifest-schema.json" ]
                else world_readdir w p)
             (fun p =>
                if jsstring_eqb p (u16 "/repo/servers/old")
                then Raised (u16 "ENOENT: no such file or directory, stat '/repo/servers/old'")
                else world_isDirectory w p)
             (world_parse w) stringify (map to_lower)
             encode_uri_component simple_validate (world_ajv w)
             (world_get w) ROOT_SCHEMA.

(** *** Requests of the Status Prober *)

Definition is_request (e : Event) : bool :=
  match e with
  | HttpGet _ => true
  | _ => false
  end.

(** The requests a computation sends, in order. *)
Definition requests {A} (m : M A) : list Event :=
  filter is_request (effects m).

(** A computation that sends no request. *)
Definition no_requests {A} (m : M A) : Prop := requests m = [].

(** The manifest does not declare the bedrock edition: it declares none, a
    value that counts as false, or a text other than [bedrock] (in any
    case). *)
Definition not_bedrock (P : Platform) (fields : list (jsstring * JSON))
  : Prop :=
  match lookup (u16 "edition") fields with
  | None => True
  | Some (JStr e) =>
      e = [] \/ jsstring_eqb (toLowerCase P e) (u16 "bedrock") = false
  | Some v => truthy v = false
  end.

(** The address the prober uses: the declared value, or the first element
    of a declared list. *)
Definition primary_address (fields : list (jsstring * JSON)) : option JSON :=
  match lookup (u16 "server-address") fields with
  | Some (JArr items) => hd_error items
  | Some v => Some v
  | None => None
  end.

(** The manifest of [foo] declares two addresses. *)
Definition world_two_addresses : World :=
  world_with [] FOO_MANIFEST FOO_TEXT
             (Value (JObj [ (u16 "server-address",
                             JArr [ JStr (u16 "play.foo.net");
                                    JStr (u16 "backup.foo.net") ]) ])).

(** The status service answers that [foo] is online, with a message of the
    day that announces maintenance. *)
Definition MAINTENANCE_ANSWER : JSON :=
  JObj [ (u16 "online", JBool true);
         (u16 "motd",
          JObj [ (u16 "clean",
                  JArr [ JStr (u16 "Foo Network");
                         JStr (u16 "Wartungen bis 18 Uhr") ]) ]) ].

Definition world_maintenance : World :=
  mkWorld []
          [ (u16 "foo", true) ]
          [ (FOO_MANIFEST, FOO_TEXT);
            (u16 "/repo/servers/foo/icon.png", u16 "PNG") ]
          [ (FOO_TEXT, Value GOOD_MANIFEST);
            (u16 "{ maintenance }", Value MAINTENANCE_ANSWER) ]
          [ (STATUS_URL, Value (u16 "{ maintenance }")) ]
          ROOT_SCHEMA.

(** *** Tagged lines of a log *)

(** The part of a text up to its first line terminator, and the part from
    that terminator on. *)
Fixpoint take_dots (s : jsstring) : jsstring :=
  match s with
  | x :: s' => if is_dot x then x :: take_dots s' else []
  | [] => []
  end.

Fixpoint skip_dots (s : jsstring) : jsstring :=
  match s with
  | x :: s' => if is_dot x then skip_dots s' else s
  | [] => []
  end.

(** The lines of a text: every line terminator separates two lines. *)
Fixpoint split_terminators_aux (cur : jsstring) (s : jsstring)
  : list jsstring :=
  match s with
  | [] => [rev cur]
  | x :: s' =>
      if is_line_terminator x then rev cur :: split_terminators_aux [] s'
      else split_terminators_aux (x :: cur) s'
  end.

Definition terminated_lines (text : jsstring) : list jsstring :=
  split_terminators_aux [] text.

(** The text from the first occurrence of [t] on. *)
Fixpoint suffix_from (t s : jsstring) : option jsstring :=
  if startsWith t s then Some s
  else match s with
       | [] => None
       | _ :: s' => suffix_from t s'
       end.

(** What a line contributes to the tagged lines: the line from the first
    occurrence of the tag on, if the tag occurs. *)
Definition from_tag (tag line : jsstring) : list jsstring :=
  match indexOf tag line with
  | Some i => [skipn i line]
  | None => []
  end.

(** The two log texts a run works on: the text of the file or, for a file
    that cannot be read, the placeholder. *)
Definition validation_text (l : Logs) : jsstring :=
  match validation_log l with
  | Some t => t
  | None => u16 "No validation output"
  end.

Definition images_text (l : Logs) : jsstring :=
  match images_log l with
  | Some t => t
  | None => u16 "No image validation output"
  end.

Definition folders_text (l : Logs) : jsstring :=
  match checked_folders l with
  | Some f => if nonempty f then f else u16 "N/A"
  | None => u16 "N/A"
  end.

(** The bullet of the Errors section for the text [t], and the one of the
    Warnings section. *)
Definition red_bullet (t : jsstring) : jsstring :=
  u16 "- " ++ [55357; 56628]%N ++ u16 " " ++ t ++ [LF].

Definition yellow_bullet (t : jsstring) : jsstring :=
  u16 "- " ++ [55357; 57313]%N ++ u16 " " ++ t ++ [LF].

(** What a line of a log contributes to a section: a bullet with the text
    behind the first occurrence of the tag, without leading white space. *)
Definition bullet_of_line (tag : jsstring) (bullet : jsstring -> jsstring)
           (line : jsstring) : list jsstring :=
  match indexOf tag line with
  | Some i => [bullet (trimStart (skipn (i + length tag) line))]
  | None => []
  end.

(** *** Server names *)

(** [s] starts with [p], letters compared without case. *)
Fixpoint startsWith_ci (p s : jsstring) : bool :=
  match p, s with
  | [], _ => true
  | c :: p', x :: s' => N.eqb (to_upper c) (to_upper x) && startsWith_ci p' s'
  | _ :: _, [] => false
  end.

(** [s] is [suffix], letters compared without case. *)
Definition equals_ci (suffix s : jsstring) : bool :=
  startsWith_ci suffix s && (length s =? length suffix).

(** [s] is [suffix], or one of [-] and [_] followed by [suffix]. *)
Definition is_suffix_ci (suffix s : jsstring) : bool :=
  match s with
  | x :: s' => one_of (u16 "-_") x && equals_ci suffix s'
  | [] => false
  end || equals_ci suffix s.

(** [s] without its end from the first position on at which the rest of
    [s] is such a suffix. *)
Fixpoint strip_suffix (suffix s : jsstring) : jsstring :=
  if is_suffix_ci suffix s then []
  else match s with
       | [] => []
       | x :: s' => x :: strip_suffix suffix s'
       end.

(** The manifest of [foo] declares the bedrock edition. *)
Definition world_bedrock : World :=
  world_with [] FOO_MANIFEST FOO_TEXT
             (Value (JObj [ (u16 "edition", JStr (u16 "Bedrock"));
                            (u16 "server-address",
                             JStr (u16 "play.foo.net")) ])).

(** *** The position in a parser message *)

Fixpoint take_while (p : jschar -> bool) (s : jsstring) : jsstring :=
  match s with
  | x :: s' => if p x then x :: take_while p s' else []
  | [] => []
  end.

Fixpoint drop_while (p : jschar -> bool) (s : jsstring) : jsstring :=
  match s with
  | x :: s' => if p x then drop_while p s' else s
  | [] => []
  end.

(** The digits of the position that a parser message names: the digits
    behind the first occurrence of [position] (letters in any case) that is
    followed, after optional white space, by a digit. *)
Fixpoint position_digits (msg : jsstring) : option jsstring :=
  let here :=
    if startsWith_ci (u16 "position") msg
    then take_while is_digit (drop_while is_space (skipn 8 msg))
    else [] in
  if nonempty here then Some here
  else match msg with
       | [] => None
       | _ :: msg' => position_digits msg'
       end.

(** The manifest of [foo] ends its object with a comma; the parser names
    the position of the brace. *)
Definition BRACE_TEXT : jsstring :=
  u16 "{" ++ [LF] ++ u16 "  " ++ [QUOTE] ++ u16 "a" ++ [QUOTE] ++ u16 ": 1,"
      ++ [LF] ++ u16 "}".

Definition BRACE_ERROR : jsstring :=
  u16 "Unexpected token } in JSON at position 12".

Definition world_brace : World :=
  world_with [] FOO_MANIFEST BRACE_TEXT (Raised BRACE_ERROR).

(** *** The fallback positions of a syntax error *)

(** The text starts with a closing bracket or brace. *)
Definition closes (s : jsstring) : bool :=
  match s with
  | x :: _ => one_of (u16 "]}") x
  | [] => false
  end.

(** The offset of the first comma of the text behind which, after any white
    space, a bracket or a brace closes. *)
Fixpoint trailing_comma_offset (text : jsstring) : option nat :=
  match text with
  | [] => None
  | x :: rest =>
      if N.eqb x 44 && closes (drop_while is_space rest) then Some 0
      else option_map S (trailing_comma_offset rest)
  end.

Definition is_quote (c : jschar) : bool := one_of (QUOTE :: u16 "'") c.

(** The token that is taken from what follows the words [Unexpected token ]
    in a message: one character.  It is the character behind a quote, when
    a quote follows the words and a character other than a line terminator
    follows the quote; else the character that follows the words, unless
    that is a line terminator or the message ends there. *)
Definition token_behind (rest : jsstring) : option jsstring :=
  match rest with
  | q :: rest' =>
      match rest' with
      | c :: _ =>
          if is_quote q && is_dot c then Some [c]
          else if is_dot q then Some [q] else None
      | [] => if is_dot q then Some [q] else None
      end
  | [] => None
  end.

(** The offending token that a parser message names: the token behind the
    first occurrence of [Unexpected token ] (letters in any case) that has
    one. *)
Fixpoint reported_token (msg : jsstring) : option jsstring :=
  let here :=
    if startsWith_ci (u16 "Unexpected token ") msg
    then token_behind (skipn 17 msg)
    else None in
  match here with
  | Some tok => Some tok
  | None =>
      match msg with
      | [] => None
      | _ :: msg' => reported_token msg'
      end
  end.

(** The regular expression has no [^]. *)
Fixpoint no_bol (r : regex) : bool :=
  match r with
  | RBol => false
  | RSeq r1 r2 | RAlt r1 r2 => no_bol r1 && no_bol r2
  | RStar _ r' | RGroup r' => no_bol r'
  | _ => true
  end.

(** * Properties *)

(** ** Computations *)

Lemma outcome_bind : forall A B (m : M A) (f : A -> M B),
  outcome (bind m f)
  = match outcome m with
    | Ret a => outcome (f a)
    | Throw msg => Throw msg
    | Exit c => Exit c
    end.
Proof.
  intros A B [[a|msg|c] t] f; unfold outcome, bind; simpl; auto.
  destruct (f a); reflexivity.
Qed.

Lemma effects_bind : forall A B (m : M A) (f : A -> M B),
  effects (bind m f)
  = effects m ++ match outcome m with
                 | Ret a => effects (f a)
                 | _ => []
                 end.
Proof.
  intros A B [[a|msg|c] t] f; unfold effects, outcome, bind; simpl;
    try (rewrite app_nil_r; reflexivity).
  destruct (f a); reflexivity.
Qed.

Lemma outcome_try_catch : forall A (m : M A) h,
  outcome (try_catch m h)
  = match outcome m with
    | Throw msg => outcome (h msg)
    | o => o
    end.
Proof.
  intros A [[a|msg|c] t] h; unfold outcome, try_catch; simpl; auto.
  destruct (h msg); reflexivity.
Qed.

Lemma effects_try_catch : forall A (m : M A) h,
  effects (try_catch m h)
  = effects m ++ match outcome m with
                 | Throw msg => effects (h msg)
                 | _ => []
                 end.
Proof.
  intros A [[a|msg|c] t] h; unfold effects, outcome, try_catch; simpl;
    try (rewrite app_nil_r; reflexivity).
  destruct (h msg); reflexivity.
Qed.

Lemma In_effects_bind : forall A B (m : M A) (f : A -> M B) a t e,
  m = (Ret a, t) -> In e (effects (f a)) -> In e (effects (bind m f)).
Proof.
  intros A B m f a t e -> H. rewrite effects_bind. apply in_or_app.
  right. exact H.
Qed.

Lemma In_effects_bind_first : forall A B (m : M A) (f : A -> M B) e,
  In e (effects m) -> In e (effects (bind m f)).
Proof.
  intros A B m f e H. rewrite effects_bind. apply in_or_app. left. exact H.
Qed.

Lemma In_effects_try_catch : forall A (m : M A) h e,
  In e (effects m) -> In e (effects (try_catch m h)).
Proof.
  intros A m h e H. rewrite effects_try_catch. apply in_or_app. left.
  exact H.
Qed.

Lemma outcome_M_iter : forall A (f : A -> M unit) l,
  (forall a, outcome (f a) = Ret tt) -> outcome (M_iter f l) = Ret tt.
Proof.
  intros A f l Hf; induction l as [|x l IH]; cbn [M_iter]; [reflexivity|].
  rewrite outcome_bind, Hf. exact IH.
Qed.

Lemma effects_M_iter_emit : forall A (g : A -> Event) l,
  M_iter (fun a => emit (g a)) l = (Ret tt, map g l).
Proof.
  intros A g l; induction l as [|a l IH]; [reflexivity|].
  cbn [M_iter map]. rewrite IH. reflexivity.
Qed.

Lemma harmless_ret : forall A (Q : A -> Prop) a, Q a -> harmless Q (ret a).
Proof. intros A Q a H. split; [constructor | exact H]. Qed.

Lemma harmless_lift : forall A (Q : A -> Prop) (o : Try A),
  (forall a, o = Value a -> Q a) -> harmless Q (lift o).
Proof.
  intros A Q [a|msg] H; split; try constructor. apply H. reflexivity.
Qed.

Lemma harmless_emit : forall (Q : unit -> Prop) e,
  is_error e = false -> Q tt -> harmless Q (emit e).
Proof. intros Q e He HQ. split; [repeat constructor; exact He | exact HQ]. Qed.

Lemma harmless_bind : forall A B (R : A -> Prop) (Q : B -> Prop) m f,
  harmless R m -> (forall a, R a -> harmless Q (f a)) ->
  harmless Q (bind m f).
Proof.
  intros A B R Q m f [Hm Ho] Hf. unfold harmless.
  rewrite effects_bind, outcome_bind.
  destruct (outcome m) as [a|msg|c]; try contradiction.
  - destruct (Hf a Ho) as [Hfe Hfo]. split; [apply Forall_app; auto | exact Hfo].
  - split; [rewrite app_nil_r; exact Hm | exact I].
Qed.

Lemma harmless_try_catch : forall A (Q : A -> Prop) m h,
  harmless Q m -> (forall msg, harmless Q (h msg)) ->
  harmless Q (try_catch m h).
Proof.
  intros A Q m h [Hm Ho] Hh. unfold harmless.
  rewrite effects_try_catch, outcome_try_catch.
  destruct (outcome m) as [a|msg|c]; try contradiction.
  - split; [rewrite app_nil_r; exact Hm | exact Ho].
  - destruct (Hh msg) as [He Hq]. split; [apply Forall_app; auto | exact Hq].
Qed.

(** The steps of a proof that a computation is harmless. *)
Ltac harmless_step :=
  match goal with
  | |- harmless _ (bind _ _) =>
      eapply harmless_bind with (R := fun _ => True); [| intros ? _]
  | |- harmless _ (try_catch _ _) => apply harmless_try_catch; [| intros ?]
  | |- harmless _ (ret _) => apply harmless_ret; auto
  | |- harmless _ (lift _) => apply harmless_lift; auto
  | |- harmless _ (emit _) => apply harmless_emit; auto
  | |- harmless _ (reportWarning _ _) => apply harmless_emit; auto
  | |- harmless _ (if ?c then _ else _) => destruct c
  end.

Lemma stays_ret : forall A (a : A), stays (ret a).
Proof. intros; exact I. Qed.

Lemma stays_lift : forall A (o : Try A), stays (lift o).
Proof. intros A [a|msg]; exact I. Qed.

Lemma stays_emit : forall e, stays (emit e).
Proof. intros; exact I. Qed.

Lemma stays_bind : forall A B (m : M A) (f : A -> M B),
  stays m -> (forall a, stays (f a)) -> stays (bind m f).
Proof.
  intros A B m f Hm Hf. unfold stays in *. rewrite outcome_bind.
  destruct (outcome m); auto. apply Hf.
Qed.

Lemma stays_try_catch : forall A (m : M A) h,
  stays m -> (forall msg, stays (h msg)) -> stays (try_catch m h).
Proof.
  intros A m h Hm Hh. unfold stays in *. rewrite outcome_try_catch.
  destruct (outcome m); auto. apply Hh.
Qed.

Lemma stays_M_iter : forall A (f : A -> M unit) l,
  (forall a, stays (f a)) -> stays (M_iter f l).
Proof.
  intros A f l Hf; induction l as [|x l IH]; simpl.
  - exact I.
  - apply stays_bind; auto.
Qed.

Ltac stays_step :=
  match goal with
  | |- stays (bind _ _) => apply stays_bind; [| intros ?]
  | |- stays (try_catch _ _) => apply stays_try_catch; [| intros ?]
  | |- stays (M_iter _ _) => apply stays_M_iter; intros ?
  | |- stays (ret _) => apply stays_ret
  | |- stays (lift _) => apply stays_lift
  | |- stays (emit _) => apply stays_emit
  | |- stays (logger _ _ _) => apply stays_emit
  | |- stays (reportError _ _) => apply stays_emit
  | |- stays (if ?c then _ else _) => destruct c
  | |- stays (match ?x with _ => _ end) => destruct x
  end.

(** What the logger writes for an error with one further line, in GitHub
    Actions. *)
Lemma logger_output_example :
  stderr_lines (Log error (u16 "Validation failed") [u16 "50% done"])
  = [ ESC :: u16 "[31m[error] Validation failed" ++ COLOR_RESET;
      ESC :: u16 "[31m[error] 50% done" ++ COLOR_RESET ]
  /\ stdout_lines true (Log error (u16 "Validation failed") [u16 "50% done"])
     = [ u16 "::error::Validation failed 50%25 done" ]
  /\ stdout_lines true (Log info (u16 "All checks passed!") []) = [].
Proof. repeat split. Qed.

(** ** Strings and lists *)

Lemma jsstring_eqb_eq : forall a b, jsstring_eqb a b = true <-> a = b.
Proof.
  induction a as [|x a IH]; intros [|y b]; simpl; split; intros H;
    try discriminate; try reflexivity.
  - apply andb_prop in H. destruct H as [Hx Hr].
    apply N.eqb_eq in Hx. apply IH in Hr. subst. reflexivity.
  - injection H as -> ->. rewrite N.eqb_refl. apply IH. reflexivity.
Qed.

Lemma jsstring_eqb_app : forall p a b,
  jsstring_eqb (p ++ a) (p ++ b) = jsstring_eqb a b.
Proof.
  induction p as [|x p IH]; intros a b; simpl; [reflexivity|].
  rewrite N.eqb_refl. apply IH.
Qed.

(** Two texts that differ in their third code unit are different. *)
Lemma jsstring_eqb_third : forall a b x y,
  nth_error a 2 = Some x -> nth_error b 2 = Some y -> x <> y ->
  jsstring_eqb a b = false.
Proof.
  intros a b x y Ha Hb Hxy.
  destruct (jsstring_eqb a b) eqn:E; [|reflexivity].
  apply jsstring_eqb_eq in E. subst b. congruence.
Qed.

Lemma startsWith_app : forall t b, startsWith t (t ++ b) = true.
Proof.
  induction t as [|x t IH]; intros b; simpl; [reflexivity|].
  rewrite N.eqb_refl. apply IH.
Qed.

Lemma indexOf_from_eq : forall t s i,
  indexOf_from t s i
  = if startsWith t s then Some i
    else match s with
         | [] => None
         | _ :: s' => indexOf_from t s' (S i)
         end.
Proof. intros t [|x s] i; reflexivity. Qed.

Lemma indexOf_from_app : forall a t b i,
  exists j, indexOf_from t (a ++ t ++ b) i = Some j.
Proof.
  induction a as [|x a IH]; intros t b i; rewrite indexOf_from_eq.
  - cbn [app]. rewrite startsWith_app. eauto.
  - cbn [app]. destruct (startsWith t (x :: a ++ t ++ b)); [eauto | apply IH].
Qed.

Lemma includes_app : forall a t b, includes t (a ++ t ++ b) = true.
Proof.
  intros a t b. unfold includes, indexOf.
  destruct (indexOf_from_app a t b 0) as [j ->]. reflexivity.
Qed.

Lemma join_cons : forall sep p rest,
  rest <> [] -> join sep (p :: rest) = p ++ sep ++ join sep rest.
Proof. intros sep p [|q rest] H; [contradiction | reflexivity]. Qed.

Lemma list_sum_cons : forall a l, list_sum (a :: l) = a + list_sum l.
Proof. reflexivity. Qed.

Lemma split_chr_aux_app : forall c p cur s,
  ~ In c p ->
  split_chr_aux c cur (p ++ s) = split_chr_aux c (rev p ++ cur) s.
Proof.
  intros c p; induction p as [|x p IH]; intros cur s Hp; [reflexivity|].
  cbn [app split_chr_aux].
  destruct (N.eqb_spec x c) as [->|Hx]; [exfalso; apply Hp; left; reflexivity|].
  rewrite IH by (intros H; apply Hp; right; exact H).
  cbn [rev]. rewrite <- app_assoc. reflexivity.
Qed.

(** Splitting what was joined gives the parts again when no part holds the
    separator. *)
Lemma split_chr_join : forall c parts,
  parts <> [] ->
  Forall (fun l => ~ In c l) parts ->
  split_chr c (join [c] parts) = parts.
Proof.
  intros c parts; induction parts as [|p rest IH]; intros Hne Hall;
    [contradiction|].
  inversion Hall as [|? ? Hp Hrest]; subst.
  unfold split_chr in *. destruct rest as [|q rest].
  - cbn [join]. rewrite <- (app_nil_r p) at 1.
    rewrite split_chr_aux_app by assumption.
    cbn [split_chr_aux]. rewrite app_nil_r, rev_involutive. reflexivity.
  - rewrite join_cons by discriminate.
    rewrite split_chr_aux_app by assumption.
    cbn [app split_chr_aux]. rewrite N.eqb_refl.
    rewrite app_nil_r, rev_involutive. f_equal.
    apply IH; [discriminate | assumption].
Qed.

Lemma uint_chars_digits : forall d,
  Forall (fun c => (48 <= c <= 57)%N) (uint_chars d).
Proof.
  induction d; cbn [uint_chars]; constructor; auto; lia.
Qed.

(** The third character of a line of a snippet is a space or a digit. *)
Lemma padStart_third : forall d rest,
  Forall (fun c => (48 <= c <= 57)%N) d ->
  exists c, nth_error (padStart 4 d ++ u16 " | " ++ rest) 2 = Some c
            /\ c <> 45%N.
Proof.
  intros d rest Hd. unfold padStart.
  destruct d as [|a [|b [|c d]]].
  - exists 32%N. split; [reflexivity | discriminate].
  - exists 32%N. split; [reflexivity | discriminate].
  - inversion Hd as [|? ? Ha _]; subst.
    exists a. split; [reflexivity | lia].
  - inversion Hd as [|? ? _ Hd']; subst.
    inversion Hd' as [|? ? Hb Hd'']; subst.
    inversion Hd'' as [|? ? Hc _]; subst.
    destruct d as [|e d].
    + exists b. split; [reflexivity | lia].
    + exists c. split; [|lia].
      cbn [length Nat.sub repeat app nth_error]. reflexivity.
Qed.

Lemma padStart_no_LF : forall d,
  Forall (fun c => (48 <= c <= 57)%N) d ->
  ~ In LF (padStart 4 d ++ u16 " | ").
Proof.
  intros d Hd H. apply in_app_or in H. destruct H as [H|H].
  - unfold padStart in H. apply in_app_or in H. destruct H as [H|H].
    + apply repeat_spec in H. discriminate.
    + rewrite Forall_forall in Hd. specialize (Hd _ H). unfold LF in Hd. lia.
  - vm_compute in H. intuition discriminate.
Qed.

Lemma In_mapi_from : forall A B (f : A -> nat -> B) l start y,
  In y (mapi_from f start l) -> exists x i, In x l /\ y = f x i.
Proof.
  intros A B f l; induction l as [|x l IH]; intros start y H;
    [contradiction|].
  cbn [mapi_from] in H. destruct H as [<- | H].
  - exists x, start. split; [left; reflexivity | reflexivity].
  - destruct (IH _ _ H) as (x' & i & Hin & ->).
    exists x', i. split; [right; exact Hin | reflexivity].
Qed.

Lemma In_slice : forall A (l : list A) from to x,
  In x (slice from to l) -> In x l.
Proof.
  intros A l from to x H. unfold slice in H.
  rewrite <- (firstn_skipn from l). apply in_or_app. right.
  rewrite <- (firstn_skipn (to - from) (skipn from l)).
  apply in_or_app. left. exact H.
Qed.

Lemma find_filter : forall A (f : A -> bool) l,
  find f l = hd_error (filter f l).
Proof.
  intros A f l; induction l as [|x l IH]; simpl; [reflexivity|].
  destruct (f x); [reflexivity | exact IH].
Qed.

Lemma filter_singleton : forall A (f : A -> bool) l c,
  filter f l = [c] ->
  exists pre post, l = pre ++ c :: post
                   /\ filter f pre = [] /\ filter f post = [] /\ f c = true.
Proof.
  intros A f l c; induction l as [|x l IH]; simpl; [discriminate|].
  destruct (f x) eqn:E.
  - intros H; injection H as -> Hl.
    exists [], l. repeat split; auto.
  - intros H. destruct (IH H) as (pre & post & -> & Hpre & Hpost & Hc).
    exists (x :: pre), post. repeat split; auto.
    simpl. rewrite E. exact Hpre.
Qed.

Lemma existsb_map_prefix : forall (p m : jsstring) l,
  existsb (jsstring_eqb (p ++ m)) (map (fun s : list jschar => p ++ s) l)
  = existsb (jsstring_eqb m) l.
Proof.
  intros p m l; induction l as [|s l IH]; cbn [map existsb]; [reflexivity|].
  rewrite jsstring_eqb_app, IH. reflexivity.
Qed.

(** ** Regular expressions *)

Lemma exec_from_bol_inside : forall r s x i,
  exec_from no_flags (RSeq RBol r) (Some x) s i = None.
Proof.
  intros r s; induction s as [|y s IH]; intros x i; simpl; auto.
Qed.

(** A greedy iteration of a class that must reach the end of the input
    succeeds exactly when every remaining code unit is in the class. *)
Lemma iterate_class_to_end :
  forall (p : jschar -> bool) body (k : mcont),
    (forall prev s cap k',
        body prev s cap k'
        = match s with
          | [] => None
          | x :: s' => if p x then k' (Some x) s' cap else None
          end) ->
    (forall prev s cap,
        k prev s cap = match s with [] => Some ([], cap) | _ :: _ => None end) ->
    forall n s prev cap,
      length s <= n ->
      iterate true body k n prev s cap
      = if forallb p s then Some ([], cap) else None.
Proof.
  intros p body k Hbody Hk n; induction n as [|n IH]; intros s prev cap Hn.
  - destruct s; simpl in *; [apply Hk | lia].
  - destruct s as [|y s]; simpl.
    + rewrite Hbody. apply Hk.
    + rewrite Hbody.
      destruct (p y); simpl; [|apply Hk].
      assert (Hlt : (length s <? S (length s)) = true) by (apply Nat.ltb_lt; lia).
      rewrite Hlt. rewrite IH by (simpl in Hn; lia).
      destruct (forallb p s); [reflexivity | apply Hk].
Qed.

Lemma test_path_chars : forall s,
  test no_flags re_path_chars s = nonempty s && forallb path_char s.
Proof.
  intros s. unfold test, exec, re_path_chars, RPlus.
  destruct s as [|x s]; [reflexivity|].
  cbn [exec_from match_here rmatch at_bol].
  unfold cls_matches; cbn [ignoreCase no_flags nonempty forallb andb].
  destruct (path_char x); cbn [andb].
  - rewrite (iterate_class_to_end path_char) by
        (try lia; intros; try reflexivity; destruct s0; reflexivity).
    destruct (forallb path_char s); [reflexivity|].
    rewrite exec_from_bol_inside. reflexivity.
  - rewrite exec_from_bol_inside. reflexivity.
Qed.

Lemma uppercase_not_path_char : forall c,
  (65 <= c <= 90)%N -> path_char c = false.
Proof.
  intros c [Hlo Hhi]. unfold path_char, one_of, u16.
  cbn [list_ascii_of_string map existsb N_of_ascii].
  repeat match goal with
         | |- context [(?a <=? ?b)%N] =>
             destruct (N.leb_spec a b)
         | |- context [(?a =? ?b)%N] =>
             destruct (N.eqb_spec a b)
         end; simpl in *; try reflexivity; try lia.
Qed.

(** What stands before the current position matters to [^] only. *)
Lemma iterate_prev : forall greedy
    (body : option jschar -> jsstring -> option jsstring -> mcont -> mresult)
    (k : mcont),
  (forall k', (forall p1 p2 s c, k' p1 s c = k' p2 s c) ->
              forall p1 p2 s c, body p1 s c k' = body p2 s c k') ->
  (forall p1 p2 s c, k p1 s c = k p2 s c) ->
  forall n p1 p2 s c,
    iterate greedy body k n p1 s c = iterate greedy body k n p2 s c.
Proof.
  intros greedy body k Hbody Hk.
  induction n as [|n IH]; intros p1 p2 s c.
  - cbn [iterate]. rewrite (Hk p1 p2). reflexivity.
  - cbn [iterate]. rewrite (Hk p1 p2).
    rewrite (Hbody (fun prev' s' cap' =>
                      if length s' <? length s
                      then iterate greedy body k n prev' s' cap'
                      else None)) with (p2 := p2); [reflexivity|].
    intros q1 q2 s0 c0. destruct (length s0 <? length s); [apply IH | reflexivity].
Qed.

Lemma rmatch_prev : forall fl r,
  no_bol r = true ->
  forall k : mcont,
    (forall p1 p2 s c, k p1 s c = k p2 s c) ->
    forall p1 p2 s c, rmatch fl r p1 s c k = rmatch fl r p2 s c k.
Proof.
  intros fl.
  induction r as [ch|p| |r1 IH1 r2 IH2|r1 IH1 r2 IH2|g r IH|r IH| |];
    intros Hr k Hk p1 p2 s c; cbn [rmatch no_bol] in *.
  - reflexivity.
  - reflexivity.
  - apply Hk.
  - apply andb_true_iff in Hr. destruct Hr as [H1 H2].
    apply IH1; [exact H1|]. intros q1 q2 s0 c0. apply IH2; assumption.
  - apply andb_true_iff in Hr. destruct Hr as [H1 H2].
    rewrite (IH1 H1 k Hk p1 p2), (IH2 H2 k Hk p1 p2). reflexivity.
  - apply iterate_prev; [|exact Hk].
    intros k' Hk'. apply IH; assumption.
  - apply IH; [exact Hr|]. intros q1 q2 s0 c0. apply Hk.
  - discriminate.
  - destruct (at_eol fl s); [apply Hk | reflexivity].
Qed.

Lemma rmatch_lit_ci : forall lit prev s cap (k : mcont),
  (forall p1 p2 s' c, k p1 s' c = k p2 s' c) ->
  rmatch flag_i (RLit lit) prev s cap k
  = if startsWith_ci lit s then k None (skipn (length lit) s) cap else None.
Proof.
  intros lit prev s cap k Hk. revert prev s.
  induction lit as [|c lit IH]; intros prev s.
  - cbn [RLit rmatch startsWith_ci length skipn]. apply Hk.
  - cbn [RLit rmatch]. destruct s as [|x s]; [reflexivity|].
    cbn [startsWith_ci length skipn]. unfold chr_matches.
    cbn [ignoreCase flag_i].
    destruct (N.eqb (to_upper c) (to_upper x)); [apply IH | reflexivity].
Qed.

(** A greedy run of a class behind which the rest of the expression cannot
    start inside the run. *)
Lemma iterate_greedy_class : forall fl (p : jschar -> bool) (k : mcont),
  (forall x, cls_matches fl p x = p x) ->
  (forall p1 p2 s c, k p1 s c = k p2 s c) ->
  (forall x s pr c,
      p x = true -> k None (drop_while p s) c = None -> k pr (x :: s) c = None) ->
  forall n s prev cap,
    length s <= n ->
    iterate true (rmatch fl (RCls p)) k n prev s cap
    = k None (drop_while p s) cap.
Proof.
  intros fl p k Hcls Hprev Hfail.
  induction n as [|n IH]; intros s prev cap Hn.
  - destruct s; [|cbn [length] in Hn; lia]. cbn [iterate drop_while].
    apply Hprev.
  - destruct s as [|x s].
    + cbn [iterate rmatch drop_while]. apply Hprev.
    + cbn [length] in Hn. cbn [iterate rmatch drop_while]. rewrite Hcls.
      destruct (p x) eqn:E; [|apply Hprev].
      replace (length s <? length (x :: s)) with true
        by (symmetry; apply Nat.ltb_lt; cbn [length]; lia).
      rewrite IH by lia.
      destruct (k None (drop_while p s) cap) as [res|] eqn:Ek; [reflexivity|].
      apply Hfail; assumption.
Qed.

Lemma space_not_closing : forall x,
  is_space x = true -> one_of (u16 "]}") x = false.
Proof.
  intros x Hx. unfold one_of. cbn [u16 existsb].
  change (existsb (N.eqb x) (u16 "]}"))
    with (N.eqb x 93 || (N.eqb x 125 || false))%bool.
  destruct (N.eqb_spec x 93) as [->|_]; [discriminate|].
  destruct (N.eqb_spec x 125) as [->|_]; [discriminate|].
  reflexivity.
Qed.

(** [/,\s*[\]\}]/] at a position. *)
Lemma match_here_trailing_comma : forall prev s,
  match_here no_flags re_trailing_comma prev s
  = match s with
    | x :: rest =>
        if N.eqb x 44 && closes (drop_while is_space rest)
        then Some (tl (drop_while is_space rest), None)
        else None
    | [] => None
    end.
Proof.
  intros prev s. unfold match_here, re_trailing_comma. cbn [rmatch].
  destruct s as [|x rest]; [reflexivity|].
  unfold chr_matches. cbn [ignoreCase no_flags].
  rewrite N.eqb_sym. destruct (N.eqb x 44); [|reflexivity]. cbn [andb].
  etransitivity.
  { apply (@iterate_greedy_class no_flags is_space
             (fun prev' s' cap' =>
                match s' with
                | [] => None
                | x0 :: s'0 =>
                    if cls_matches no_flags (one_of (u16 "]}")) x0
                    then Some (s'0, cap')
                    else None
                end)).
    - intros y. reflexivity.
    - intros p1 p2 s0 c. reflexivity.
    - intros y s0 pr c Hy _. unfold cls_matches. cbn [ignoreCase no_flags].
      rewrite (space_not_closing _ Hy). reflexivity.
    - apply le_n. }
  cbv beta. unfold closes, cls_matches. cbn [ignoreCase no_flags].
  destruct (drop_while is_space rest) as [|y s']; [reflexivity|].
  destruct (one_of (u16 "]}") y); reflexivity.
Qed.

Lemma exec_from_trailing_comma : forall s prev i,
  option_map m_index (exec_from no_flags re_trailing_comma prev s i)
  = option_map (fun o => i + o) (trailing_comma_offset s).
Proof.
  induction s as [|x s IH]; intros prev i.
  - reflexivity.
  - cbn [exec_from trailing_comma_offset].
    rewrite match_here_trailing_comma.
    destruct (N.eqb x 44 && closes (drop_while is_space s)).
    + cbn [option_map m_index]. f_equal. lia.
    + rewrite IH. destruct (trailing_comma_offset s) as [o|];
        cbn [option_map]; [f_equal; lia | reflexivity].
Qed.

(** Step (a) of the fallback: the offset of the first trailing comma. *)
Lemma position_of_trailing_comma_spec : forall text,
  position_of_trailing_comma text
  = option_map Z.of_nat (trailing_comma_offset text).
Proof.
  intros text. unfold position_of_trailing_comma, exec.
  pose proof (exec_from_trailing_comma text None 0) as H.
  destruct (exec_from no_flags re_trailing_comma None text 0) as [m|];
    destruct (trailing_comma_offset text) as [o|];
    cbn [option_map] in *; try discriminate; [|reflexivity].
  injection H as ->. reflexivity.
Qed.

Lemma cls_matches_dot : forall fl x, cls_matches fl is_dot x = is_dot x.
Proof.
  intros fl x. unfold cls_matches. destruct (ignoreCase fl); [|reflexivity].
  destruct (is_dot x) eqn:E; [reflexivity|]. cbn [orb].
  unfold is_dot, is_line_terminator in *.
  apply negb_false_iff in E.
  assert (Hx : x = 10%N \/ x = 13%N \/ x = 8232%N \/ x = 8233%N).
  { repeat (apply orb_prop in E; destruct E as [E|E]);
      apply N.eqb_eq in E; auto. }
  destruct Hx as [-> | [-> | [-> | ->]]]; reflexivity.
Qed.

Lemma cls_matches_quote : forall x,
  cls_matches flag_i (one_of (QUOTE :: u16 "'")) x = is_quote x.
Proof.
  intros x. unfold cls_matches, is_quote. cbn [ignoreCase flag_i].
  destruct (one_of (QUOTE :: u16 "'") x) eqn:E; [reflexivity|]. cbn [orb].
  unfold one_of in *.
  change (existsb (N.eqb x) (QUOTE :: u16 "'"))
    with (N.eqb x 34 || (N.eqb x 39 || false))%bool in E.
  change (existsb (N.eqb (to_upper x)) (QUOTE :: u16 "'"))
    with (N.eqb (to_upper x) 34 || (N.eqb (to_upper x) 39 || false))%bool.
  change (existsb (N.eqb (to_lower x)) (QUOTE :: u16 "'"))
    with (N.eqb (to_lower x) 34 || (N.eqb (to_lower x) 39 || false))%bool.
  unfold to_upper, to_lower.
  destruct (N.leb_spec 97 x), (N.leb_spec x 122), (N.leb_spec 65 x),
    (N.leb_spec x 90); cbn [andb]; rewrite ?E; cbn [orb];
    try reflexivity;
    repeat match goal with
           | |- context [N.eqb ?a ?b] =>
               destruct (N.eqb_spec a b); [lia|]
           end; reflexivity.
Qed.

Lemma option_map_snd_or : forall (A B : Type) (a b : option (A * B)),
  option_map snd (match a with Some res => Some res | None => b end)
  = match option_map snd a with
    | Some g => Some g
    | None => option_map snd b
    end.
Proof. intros A B [[x y]|] b; reflexivity. Qed.

(** What follows the token in [re_unexpected_token] matches everywhere, and
    leaves the group alone. *)
Lemma rmatch_token_tail : forall prev s cap,
  exists s',
    rmatch flag_i
      (RSeq (ROpt (RCls (one_of (QUOTE :: u16 "'"))))
            (ROpt (RLit (u16 " in JSON"))))
      prev s cap (fun _ s' cap' => Some (s', cap'))
    = Some (s', cap).
Proof.
  intros prev s cap.
  assert (Hin : forall p0 s0,
             exists s',
               rmatch flag_i (ROpt (RLit (u16 " in JSON"))) p0 s0 cap
                      (fun _ s' cap' => Some (s', cap'))
               = Some (s', cap)).
  { intros p0 s0. unfold ROpt. cbn [rmatch].
    rewrite rmatch_lit_ci by reflexivity.
    destruct (startsWith_ci (u16 " in JSON") s0); eexists; reflexivity. }
  change (rmatch flag_i (RSeq ?a ?b) prev s cap ?k)
    with (rmatch flag_i a prev s cap
            (fun p' s' c' => rmatch flag_i b p' s' c' k)).
  unfold ROpt at 1. cbn [rmatch].
  destruct s as [|x s].
  - apply Hin.
  - destruct (cls_matches flag_i (one_of (QUOTE :: u16 "'")) x).
    + destruct (Hin (Some x) s) as [s' Hs']. rewrite Hs'. eexists; reflexivity.
    + apply Hin.
Qed.

(** A lazy quantifier stops where the rest of the expression matches. *)
Lemma iterate_lazy_stop :
  forall (body : option jschar -> jsstring -> option jsstring -> mcont
                 -> mresult)
         (k : mcont) n prev s cap res,
    k prev s cap = Some res ->
    iterate false body k n prev s cap = Some res.
Proof.
  intros body k n prev s cap res H.
  destruct n; cbn [iterate]; rewrite H; reflexivity.
Qed.

(** The lazy group [(.+?)] takes one character when the rest of the
    expression matches everywhere. *)
Lemma rmatch_lazy_group : forall (k : mcont) prev s cap,
  (forall p0 s0 c0, exists s', k p0 s0 c0 = Some (s', c0)) ->
  option_map snd
    (rmatch flag_i (RGroup (RPlus false (RCls is_dot))) prev s cap k)
  = match s with
    | x :: _ => if is_dot x then Some (Some [x]) else None
    | [] => None
    end.
Proof.
  intros k prev s cap Hk. unfold RPlus. cbn [rmatch].
  destruct s as [|x s1]; [reflexivity|].
  rewrite cls_matches_dot. destruct (is_dot x); [|reflexivity].
  destruct (Hk (Some x) s1
               (Some (firstn (length (x :: s1) - length s1) (x :: s1))))
    as [s' Hs'].
  assert (Hone : firstn (length (x :: s1) - length s1) (x :: s1) = [x]).
  { cbn [length]. replace (S (length s1) - length s1) with 1 by lia.
    reflexivity. }
  erewrite iterate_lazy_stop by (cbv beta; exact Hs').
  cbn [option_map snd].
  rewrite Hone. reflexivity.
Qed.

(** [/Unexpected token ['"]?(.+?)['"]?(?: in JSON)?/i] at a position: the
    text of the group. *)
Lemma match_here_token : forall prev s,
  option_map snd (match_here flag_i re_unexpected_token prev s)
  = if startsWith_ci (u16 "Unexpected token ") s
    then option_map Some (token_behind (skipn 17 s))
    else None.
Proof.
  intros prev s. unfold match_here, re_unexpected_token.
  pose (kT := fun (p : option jschar) (s0 : jsstring) (c : option jsstring) =>
                rmatch flag_i
                  (RSeq (ROpt (RCls (one_of (QUOTE :: u16 "'"))))
                        (ROpt (RLit (u16 " in JSON"))))
                  p s0 c (fun _ s' cap' => Some (s', cap'))).
  pose (kG := fun (p : option jschar) (s0 : jsstring) (c : option jsstring) =>
                rmatch flag_i (RGroup (RPlus false (RCls is_dot))) p s0 c kT).
  pose (kQ := fun (p : option jschar) (s0 : jsstring) (c : option jsstring) =>
                rmatch flag_i (ROpt (RCls (one_of (QUOTE :: u16 "'"))))
                       p s0 c kG).
  change (option_map snd (rmatch flag_i (RLit (u16 "Unexpected token "))
                                 prev s None kQ)
          = if startsWith_ci (u16 "Unexpected token ") s
            then option_map Some (token_behind (skipn 17 s))
            else None).
  assert (HkT : forall p1 p2 s0 c, kT p1 s0 c = kT p2 s0 c).
  { intros p1 p2 s0 c. unfold kT. apply rmatch_prev; reflexivity. }
  assert (HkG : forall p1 p2 s0 c, kG p1 s0 c = kG p2 s0 c).
  { intros p1 p2 s0 c. unfold kG. apply rmatch_prev; [reflexivity | exact HkT]. }
  assert (HkQ : forall p1 p2 s0 c, kQ p1 s0 c = kQ p2 s0 c).
  { intros p1 p2 s0 c. unfold kQ. apply rmatch_prev; [reflexivity | exact HkG]. }
  assert (Hgroup : forall p0 s0 c0,
             option_map snd (kG p0 s0 c0)
             = match s0 with
               | x :: _ => if is_dot x then Some (Some [x]) else None
               | [] => None
               end).
  { intros p0 s0 c0. unfold kG. apply rmatch_lazy_group.
    intros p1 s1 c1. apply rmatch_token_tail. }
  rewrite rmatch_lit_ci by exact HkQ.
  destruct (startsWith_ci (u16 "Unexpected token ") s); [|reflexivity].
  change (length (u16 "Unexpected token ")) with 17.
  generalize (skipn 17 s) as r. intros r.
  unfold kQ, ROpt. cbn [rmatch]. rewrite option_map_snd_or.
  destruct r as [|q r'].
  - cbn [option_map]. rewrite Hgroup. reflexivity.
  - rewrite cls_matches_quote. rewrite (Hgroup None (q :: r')).
    unfold token_behind.
    destruct (is_quote q) eqn:Eq.
    + rewrite Hgroup. cbn [andb].
      destruct r' as [|c r'']; [destruct (is_dot q); reflexivity|].
      destruct (is_dot c).
      * reflexivity.
      * destruct (is_dot q); reflexivity.
    + cbn [option_map andb]. destruct r' as [|c r''].
      * destruct (is_dot q); reflexivity.
      * destruct (is_dot q); reflexivity.
Qed.

Lemma exec_from_token : forall s prev i,
  match exec_from flag_i re_unexpected_token prev s i with
  | Some m => m_group m
  | None => None
  end = reported_token s.
Proof.
  induction s as [|x s IH]; intros prev i.
  - reflexivity.
  - cbn [exec_from reported_token].
    pose proof (match_here_token prev (x :: s)) as H.
    destruct (match_here flag_i re_unexpected_token prev (x :: s))
      as [[s' cap]|]; cbn [option_map snd] in H.
    + cbn [m_group].
      destruct (startsWith_ci (u16 "Unexpected token ") (x :: s));
        [|discriminate].
      destruct (token_behind (skipn 17 (x :: s))) as [tok|];
        cbn [option_map] in H; [|discriminate].
      injection H as ->. reflexivity.
    + destruct (startsWith_ci (u16 "Unexpected token ") (x :: s)).
      * destruct (token_behind (skipn 17 (x :: s))) as [tok|];
          cbn [option_map] in H; [discriminate | apply IH].
      * apply IH.
Qed.

(** Step (b) of the fallback: the first occurrence in the text of the token
    that the message names. *)
Lemma position_of_token_spec : forall msg text,
  position_of_token msg text
  = match reported_token msg with
    | Some tok => option_map Z.of_nat (indexOf tok text)
    | None => None
    end.
Proof.
  intros msg text. unfold position_of_token, exec.
  pose proof (exec_from_token msg None 0) as H.
  destruct (exec_from flag_i re_unexpected_token None msg 0) as [m|].
  - rewrite H. destruct (reported_token msg) as [tok|]; [|reflexivity].
    destruct (indexOf tok text); reflexivity.
  - rewrite <- H. reflexivity.
Qed.

Lemma cls_matches_ci : forall p : jschar -> bool,
  (forall y, (65 <= y <= 122)%N -> p y = false) ->
  forall x, cls_matches flag_i p x = p x.
Proof.
  intros p Hp x. unfold cls_matches. cbn [ignoreCase flag_i].
  destruct (p x) eqn:E; [reflexivity|]. cbn [orb].
  unfold to_upper, to_lower.
  destruct (N.leb_spec 97 x), (N.leb_spec x 122), (N.leb_spec 65 x),
    (N.leb_spec x 90); cbn [andb]; rewrite ?E; cbn [orb];
    rewrite ?Hp by lia; try reflexivity;
    rewrite ?E; reflexivity.
Qed.

Lemma letters_not_space : forall y, (65 <= y <= 122)%N -> is_space y = false.
Proof.
  intros y Hy. unfold is_space.
  repeat match goal with
         | |- (_ || _)%bool = false => apply orb_false_intro
         | |- (_ && _)%bool = false =>
             apply andb_false_iff;
             ((left; apply N.leb_gt; lia) || (right; apply N.leb_gt; lia))
         | |- N.eqb _ _ = false => apply N.eqb_neq; lia
         end.
Qed.

Lemma letters_not_digit : forall y, (65 <= y <= 122)%N -> is_digit y = false.
Proof.
  intros y Hy. unfold is_digit. apply andb_false_iff. right.
  apply N.leb_gt. lia.
Qed.

Lemma space_not_digit : forall x, is_space x = true -> is_digit x = false.
Proof.
  intros x H. unfold is_digit.
  destruct (N.leb_spec 48 x), (N.leb_spec x 57); try reflexivity.
  exfalso. unfold is_space in H.
  repeat match goal with
         | H : (_ || _)%bool = true |- _ =>
             apply orb_true_iff in H; destruct H as [H|H]
         | H : (_ && _)%bool = true |- _ =>
             apply andb_true_iff in H; destruct H
         | H : (_ <=? _)%N = true |- _ => apply N.leb_le in H
         | H : N.eqb _ _ = true |- _ => apply N.eqb_eq in H
         end; lia.
Qed.

(** A greedy run over a class: the continuation is tried behind the whole
    run, provided that it fails inside the run when it fails behind it. *)
Lemma iterate_class_run : forall (p : jschar -> bool) (k : mcont),
  (forall x, cls_matches flag_i p x = p x) ->
  (forall p1 p2 s c, k p1 s c = k p2 s c) ->
  (forall x s pr c,
      p x = true -> k None (drop_while p s) c = None -> k pr (x :: s) c = None) ->
  forall n s prev cap,
    length s <= n ->
    iterate true (rmatch flag_i (RCls p)) k n prev s cap
    = k None (drop_while p s) cap.
Proof.
  intros p k Hcls Hprev Hfail.
  induction n as [|n IH]; intros s prev cap Hn.
  - destruct s; [|cbn [length] in Hn; lia]. cbn [iterate drop_while].
    apply Hprev.
  - destruct s as [|x s].
    + cbn [iterate rmatch drop_while]. apply Hprev.
    + cbn [length] in Hn. cbn [iterate rmatch drop_while]. rewrite Hcls.
      destruct (p x) eqn:E; [|apply Hprev].
      replace (length s <? length (x :: s)) with true
        by (symmetry; apply Nat.ltb_lt; cbn [length]; lia).
      rewrite IH by lia.
      destruct (k None (drop_while p s) cap) as [res|] eqn:Ek; [reflexivity|].
      apply Hfail; assumption.
Qed.

Lemma take_drop_while : forall p s, take_while p s ++ drop_while p s = s.
Proof.
  induction s as [|x s IH]; [reflexivity|].
  cbn [take_while drop_while]. destruct (p x); [|reflexivity].
  cbn [app]. f_equal. exact IH.
Qed.

(** [(\d+)]: the digits at the start, at least one. *)
Lemma rmatch_digits_group : forall prev s cap,
  rmatch flag_i (RGroup (RPlus true (RCls is_digit))) prev s cap
         (fun _ s' cap' => Some (s', cap'))
  = match take_while is_digit s with
    | [] => None
    | _ :: _ => Some (drop_while is_digit s, Some (take_while is_digit s))
    end.
Proof.
  intros prev s cap. unfold RPlus. cbn [rmatch].
  destruct s as [|x s]; [reflexivity|].
  rewrite (cls_matches_ci is_digit letters_not_digit).
  cbn [take_while drop_while]. destruct (is_digit x) eqn:E; [|reflexivity].
  etransitivity.
  { apply (@iterate_class_run is_digit
             (fun _ s' _ =>
                Some (s', Some (firstn (length (x :: s) - length s') (x :: s))))).
    - apply (cls_matches_ci is_digit letters_not_digit).
    - reflexivity.
    - intros y s' pr c _ H. discriminate H.
    - apply le_n. }
  cbv beta. f_equal. f_equal. f_equal.
  pose proof (take_drop_while is_digit s) as Hs.
  assert (Hl : length (x :: s) - length (drop_while is_digit s)
               = length (x :: take_while is_digit s) + 0).
  { rewrite <- Hs at 1. cbn [length]. rewrite length_app. lia. }
  transitivity (firstn (length (x :: take_while is_digit s) + 0)
                       ((x :: take_while is_digit s)
                          ++ drop_while is_digit s)).
  { f_equal; [exact Hl | cbn [app]; rewrite Hs; reflexivity]. }
  rewrite firstn_app_2. cbn [firstn]. apply app_nil_r.
Qed.

Lemma match_here_position : forall prev s,
  match_here flag_i re_position prev s
  = if startsWith_ci (u16 "position") s
    then match take_while is_digit (drop_while is_space (skipn 8 s)) with
         | [] => None
         | d :: ds =>
             Some (drop_while is_digit (drop_while is_space (skipn 8 s)),
                   Some (d :: ds))
         end
    else None.
Proof.
  intros prev s. unfold match_here, re_position. cbn [rmatch].
  assert (Hk : forall p' s' c',
            iterate true (rmatch flag_i (RCls is_space))
              (fun prev' s'' cap' =>
                 rmatch flag_i (RGroup (RPlus true (RCls is_digit)))
                        prev' s'' cap' (fun _ s3 cap3 => Some (s3, cap3)))
              (length s') p' s' c'
            = match take_while is_digit (drop_while is_space s') with
              | [] => None
              | d :: ds =>
                  Some (drop_while is_digit (drop_while is_space s'),
                        Some (d :: ds))
              end).
  { intros p' s' c'. etransitivity.
    { apply (@iterate_class_run is_space
               (fun prev' s'' cap' =>
                  rmatch flag_i (RGroup (RPlus true (RCls is_digit)))
                         prev' s'' cap' (fun _ s3 cap3 => Some (s3, cap3)))).
      - apply (cls_matches_ci is_space letters_not_space).
      - intros p1 p2 s0 c. rewrite !rmatch_digits_group. reflexivity.
      - intros x s0 pr c Hx _. rewrite rmatch_digits_group.
        cbn [take_while]. rewrite (space_not_digit _ Hx). reflexivity.
      - apply le_n. }
    cbv beta. rewrite rmatch_digits_group.
    destruct (take_while is_digit (drop_while is_space s')); reflexivity. }
  rewrite rmatch_lit_ci.
  - destruct (startsWith_ci (u16 "position") s); [|reflexivity].
    change (length (u16 "position")) with 8. apply Hk.
  - intros p1 p2 s' c. rewrite !Hk. reflexivity.
Qed.

Lemma exec_from_position : forall s prev i,
  match exec_from flag_i re_position prev s i with
  | Some m => m_group m
  | None => None
  end = position_digits s.
Proof.
  induction s as [|x s IH]; intros prev i.
  - reflexivity.
  - cbn [exec_from position_digits]. rewrite match_here_position.
    destruct (startsWith_ci (u16 "position") (x :: s)).
    + destruct (take_while is_digit (drop_while is_space (skipn 8 (x :: s))))
        as [|d ds]; [apply IH | reflexivity].
    + apply IH.
Qed.

Lemma position_in_message_spec : forall msg,
  position_in_message msg
  = match position_digits msg with
    | Some digits => Some (parseInt digits)
    | None => None
    end.
Proof.
  intros msg. unfold position_in_message, exec.
  pose proof (exec_from_position msg None 0) as H.
  destruct (exec_from flag_i re_position None msg 0) as [m|].
  - rewrite H. destruct (position_digits msg); reflexivity.
  - rewrite <- H. reflexivity.
Qed.

(** ** Error Locator *)

Lemma split_lines_aux_nonempty : forall s cur, split_lines_aux cur s <> [].
Proof.
  induction s as [|x s IH]; intros cur; simpl; [discriminate|].
  destruct (N.eqb x LF); [discriminate|].
  destruct (N.eqb x CR); [|apply IH].
  destruct s as [|y s']; [apply IH|].
  destruct (N.eqb y LF); [discriminate | apply IH].
Qed.

Lemma has_crlf_tail : forall x s, has_crlf (x :: s) = false -> has_crlf s = false.
Proof.
  intros x [|y s] H; [reflexivity|].
  change (has_crlf (x :: y :: s))
    with ((N.eqb x CR && N.eqb y LF) || has_crlf (y :: s)) in H.
  apply orb_false_elim in H. tauto.
Qed.

Lemma has_crlf_head : forall s, has_crlf (CR :: LF :: s) = true.
Proof. intros s. reflexivity. Qed.

Lemma join_split_lines_aux : forall s cur,
  has_crlf s = false ->
  join [LF] (split_lines_aux cur s) = rev cur ++ s.
Proof.
  induction s as [|x s IH]; intros cur H.
  - simpl. rewrite app_nil_r. reflexivity.
  - pose proof (has_crlf_tail _ _ H) as Hs.
    cbn [split_lines_aux].
    destruct (N.eqb_spec x LF) as [->|Hx].
    + rewrite join_cons by apply split_lines_aux_nonempty.
      rewrite IH by assumption. reflexivity.
    + destruct (N.eqb_spec x CR) as [->|Hc].
      * destruct s as [|y s'].
        -- rewrite IH by reflexivity. simpl. rewrite <- app_assoc. reflexivity.
        -- destruct (N.eqb_spec y LF) as [->|Hy].
           ++ rewrite has_crlf_head in H. discriminate.
           ++ rewrite IH by assumption. simpl. rewrite <- app_assoc. reflexivity.
      * rewrite IH by assumption. simpl. rewrite <- app_assoc. reflexivity.
Qed.

(** Without a carriage return before a line feed, the lines joined by line
    feeds are the text again. *)
Lemma join_split_lines : forall text,
  has_crlf text = false -> join [LF] (split_lines text) = text.
Proof. intros text H. unfold split_lines. rewrite join_split_lines_aux; auto. Qed.

Lemma length_join_lf : forall lines,
  lines <> [] ->
  S (length (join [LF] lines)) = list_sum (map (fun x => S (length x)) lines).
Proof.
  induction lines as [|p rest IH]; intros H; [contradiction|].
  destruct rest as [|q rest].
  - simpl. lia.
  - assert (Hr : q :: rest <> []) by discriminate.
    revert IH Hr. generalize (q :: rest) as r. intros r IH Hr.
    rewrite join_cons by assumption.
    rewrite !length_app. specialize (IH Hr).
    unfold list_sum in *. cbn [map fold_right length]. lia.
Qed.

(** The loop of the locator stops in the line that holds the offset: with
    [count] the characters before [lines], it returns the line [l] and the
    column [c] whose offset is [index]. *)
Lemma locate_loop_spec : forall lines index i count,
  (count <= index)%Z ->
  (index < count + Z.of_nat (list_sum (map (fun x => S (length x)) lines)))%Z ->
  exists l c line,
    locate_loop lines index i count
    = Some (mkLineCol (i + Z.of_nat l + 1) (Z.of_nat c + 1) line)
    /\ nth_error lines l = Some line
    /\ c <= length line
    /\ index = (count + Z.of_nat (offset_of lines l c))%Z.
Proof.
  induction lines as [|p rest IH]; intros index i count Hlo Hhi.
  - simpl in Hhi. lia.
  - cbn [locate_loop].
    destruct (Z.ltb_spec index (count + (Z.of_nat (length p) + 1))) as [Hin|Hout].
    + exists 0, (Z.to_nat (index - count)), p.
      repeat split.
      * f_equal. f_equal; lia.
      * lia.
      * unfold offset_of. simpl. lia.
    + cbn [map] in Hhi. rewrite list_sum_cons in Hhi.
      destruct (IH index (i + 1)%Z (count + (Z.of_nat (length p) + 1))%Z)
        as (l & c & line & Hloop & Hnth & Hc & Hoff); [lia | lia |].
      exists (S l), c, line. repeat split; auto.
      * rewrite Hloop. f_equal. f_equal. lia.
      * unfold offset_of in *. cbn [firstn map]. rewrite list_sum_cons. lia.
Qed.

Lemma nth_error_join : forall lines l line c,
  nth_error lines l = Some line ->
  c < length line ->
  nth_error (join [LF] lines) (offset_of lines l c) = nth_error line c.
Proof.
  induction lines as [|p rest IH]; intros l line c Hnth Hc.
  - destruct l; discriminate.
  - destruct l as [|l].
    + simpl in Hnth. injection Hnth as ->.
      unfold offset_of. cbn [firstn map list_sum Nat.add].
      destruct rest; [reflexivity|].
      rewrite join_cons by discriminate.
      rewrite nth_error_app1 by assumption. reflexivity.
    + simpl in Hnth.
      assert (Hrest : rest <> []) by (destruct rest; [destruct l|]; discriminate).
      rewrite join_cons by assumption.
      unfold offset_of. cbn [firstn map]. rewrite list_sum_cons.
      rewrite nth_error_app2 by lia.
      match goal with
      | |- nth_error _ ?k = _ =>
          replace k with (S (offset_of rest l c)) by (unfold offset_of; lia)
      end.
      cbn [app nth_error]. apply IH; assumption.
Qed.

(** The locator on a text whose line breaks are single line feeds (no
    carriage return before a line feed), for an offset within the text. *)
Lemma locate_lf : forall text o,
  has_crlf text = false ->
  o <= length text ->
  exists l c,
    getLineAndColumnFromIndex text (Z.of_nat o)
    = mkLineCol (Z.of_nat l + 1) (Z.of_nat c + 1)
                (nth l (split_lines text) [])
    /\ nth_error (split_lines text) l = Some (nth l (split_lines text) [])
    /\ c <= length (nth l (split_lines text) [])
    /\ o = offset_of (split_lines text) l c
    /\ (c < length (nth l (split_lines text) []) ->
        nth_error text o = nth_error (nth l (split_lines text) []) c).
Proof.
  intros text o Hcr Ho.
  pose proof (join_split_lines text Hcr) as Hjoin.
  assert (Hne : split_lines text <> []) by apply split_lines_aux_nonempty.
  pose proof (length_join_lf Hne) as Hlen. rewrite Hjoin in Hlen.
  destruct (@locate_loop_spec (split_lines text) (Z.of_nat o) 0 0)
    as (l & c & line & Hloop & Hnth & Hc & Hoff); [lia | lia |].
  assert (Hline : nth l (split_lines text) [] = line).
  { apply nth_error_nth. assumption. }
  exists l, c. unfold getLineAndColumnFromIndex. rewrite Hloop, Hline.
  repeat split; auto.
  - lia.
  - intros Hlt. rewrite <- Hjoin at 1.
    replace o with (offset_of (split_lines text) l c) by lia.
    apply nth_error_join; assumption.
Qed.

(** C2. On a text with a carriage return before the line feed the locator
    counts one separator character where the text has two: for the offset of
    ["b"] in ["1\r\nb"] (offset 3, the first character of line 2, where the
    parser reports its error) it returns column 2, which is past the end of
    that line. *)
Theorem getLineAndColumnFromIndex_crlf :
  nth_error (u16 "1" ++ [CR; LF] ++ u16 "b") 3 = Some 98%N
  /\ split_lines (u16 "1" ++ [CR; LF] ++ u16 "b") = [u16 "1"; u16 "b"]
  /\ position_in_message (u16 "Unexpected token b in JSON at position 3")
     = Some 3%Z
  /\ getLineAndColumnFromIndex (u16 "1" ++ [CR; LF] ++ u16 "b") 3
     = mkLineCol 2 2 (u16 "b")
  /\ nth_error (u16 "b") (2 - 1) = None
  /\ nth_error (u16 "b") (1 - 1) = Some 98%N.
Proof. repeat split. Qed.

Lemma split_lines_aux_no_LF : forall s cur,
  ~ In LF cur ->
  Forall (fun l => ~ In LF l) (split_lines_aux cur s).
Proof.
  induction s as [|x s IH]; intros cur Hcur; cbn [split_lines_aux].
  - constructor; [|constructor]. intros H. apply in_rev in H. tauto.
  - assert (Hdone : ~ In LF (rev cur)) by (intros H; apply in_rev in H; tauto).
    destruct (N.eqb_spec x LF) as [->|Hx].
    + constructor; [exact Hdone|]. apply IH. intros [].
    + assert (Hpush : ~ In LF (x :: cur)) by (intros [H|H]; auto).
      destruct (N.eqb x CR); [|apply IH; exact Hpush].
      destruct s as [|y s']; [apply IH; exact Hpush|].
      destruct (N.eqb_spec y LF) as [->|Hy]; [|apply IH; exact Hpush].
      constructor; [exact Hdone|].
      specialize (IH [] (fun H => H)). cbn [split_lines_aux] in IH.
      rewrite N.eqb_refl in IH. inversion IH; assumption.
Qed.

Lemma split_lines_no_LF : forall text,
  Forall (fun l => ~ In LF l) (split_lines text).
Proof. intros text. apply split_lines_aux_no_LF. intros []. Qed.

(** No line of a snippet is a text whose third character is a hyphen. *)
Lemma snippet_lines_differ : forall text index contextLines t,
  nth_error t 2 = Some 45%N ->
  existsb (jsstring_eqb t)
          (split_chr LF
             (sn_snippet (getSnippetAroundIndex text index contextLines)))
  = false.
Proof.
  intros text index contextLines t Ht.
  unfold getSnippetAroundIndex. cbv zeta. cbn [sn_snippet].
  match goal with
  | |- existsb _ (split_chr LF (join [LF] ?ps)) = false => set (pieces := ps)
  end.
  assert (Hpieces : forall piece, In piece pieces ->
            ~ In LF piece /\ jsstring_eqb t piece = false).
  { intros piece Hin. unfold pieces in Hin.
    apply In_mapi_from in Hin. destruct Hin as (l & i & Hl & ->).
    apply In_slice in Hl.
    pose proof (split_lines_no_LF text) as Hno.
    rewrite Forall_forall in Hno. specialize (Hno _ Hl).
    match goal with
    | |- context [padStart 4 (String_of_N ?n)] =>
        pose proof (uint_chars_digits (N.to_uint n)) as Hd;
        fold (String_of_N n) in Hd
    end.
    split.
    - rewrite app_assoc. intros H. apply in_app_or in H.
      destruct H as [H|H]; [exact (padStart_no_LF Hd H) | exact (Hno H)].
    - destruct (padStart_third l Hd) as (c & Hc & Hne).
      eapply jsstring_eqb_third; [exact Ht | exact Hc | congruence]. }
  destruct pieces as [|p ps] eqn:E.
  - cbn. destruct t as [|a [|b [|c t]]]; try discriminate. reflexivity.
  - rewrite split_chr_join.
    + rewrite <- E in *. clear E.
      induction pieces as [|q qs IH]; [reflexivity|].
      cbn [existsb]. rewrite (proj2 (Hpieces q (or_introl eq_refl))).
      apply IH. intros piece Hin. apply Hpieces. right. exact Hin.
    + discriminate.
    + apply Forall_forall. intros piece Hin. apply (Hpieces piece Hin).
Qed.

(** The line the locator returns is a line of the text, whatever the
    offset. *)
Lemma locate_loop_line : forall lines index i count r,
  locate_loop lines index i count = Some r ->
  exists l, l < length lines
            /\ lc_line r = (i + Z.of_nat l + 1)%Z
            /\ lc_lineText r = nth l lines [].
Proof.
  induction lines as [|p rest IH]; intros index i count r H; [discriminate|].
  cbn [locate_loop] in H.
  destruct (index <? count + (Z.of_nat (length p) + 1))%Z.
  - injection H as <-. exists 0. cbn. repeat split; lia.
  - apply IH in H. destruct H as (l & Hl & Hline & Htext).
    exists (S l). cbn [length nth]. repeat split; [lia | lia | exact Htext].
Qed.

Lemma last_nth : forall A (l : list A) d, last l d = nth (length l - 1) l d.
Proof.
  induction l as [|x l IH]; intros d; [reflexivity|].
  destruct l as [|y l]; [reflexivity|].
  change (last (x :: y :: l) d) with (last (y :: l) d).
  rewrite IH. cbn [length]. replace (S (S (length l)) - 1) with (S (length l - 0)) by lia.
  cbn [nth]. replace (S (length l) - 1) with (length l - 0) by lia. reflexivity.
Qed.

Lemma getLineAndColumnFromIndex_line : forall text index,
  exists l, l < length (split_lines text)
            /\ lc_line (getLineAndColumnFromIndex text index)
               = (Z.of_nat l + 1)%Z
            /\ lc_lineText (getLineAndColumnFromIndex text index)
               = nth l (split_lines text) [].
Proof.
  intros text index. unfold getLineAndColumnFromIndex.
  pose proof (@split_lines_aux_nonempty text []) as Hne.
  fold (split_lines text) in Hne.
  destruct (locate_loop (split_lines text) index 0 0) as [r|] eqn:E.
  - apply locate_loop_line in E. destruct E as (l & Hl & Hline & Htext).
    exists l. repeat split; [exact Hl | lia | exact Htext].
  - exists (length (split_lines text) - 1). cbn [lc_line lc_lineText].
    destruct (split_lines text) as [|p rest] eqn:El; [contradiction|].
    rewrite <- El. repeat split.
    + rewrite El. cbn [length]. lia.
    + rewrite El. cbn [length]. lia.
    + apply last_nth.
Qed.

Lemma flat_map_seq_split : forall A (f : nat -> list A) start len l,
  start <= l < start + len ->
  flat_map f (seq start len)
  = flat_map f (seq start (l - start)) ++ f l
      ++ flat_map f (seq (S l) (start + len - S l)).
Proof.
  intros A f start len l H.
  replace len with ((l - start) + S (start + len - S l)) at 1 by lia.
  rewrite seq_app, flat_map_app. f_equal.
  replace (start + (l - start)) with l by lia.
  reflexivity.
Qed.

Lemma length_flat_map_snippet_line : forall lines line column start len,
  (forall i, In i (seq start len) -> (Z.of_nat i =? line - 1)%Z = false) ->
  length (flat_map (snippet_line lines line column) (seq start len)) = len.
Proof.
  intros lines line column start len. revert start.
  induction len as [|len IH]; intros start H; [reflexivity|].
  cbn [seq flat_map]. unfold snippet_line at 1.
  rewrite (H start) by (left; reflexivity).
  cbn [app length]. f_equal. apply IH.
  intros i Hi. apply H. right. exact Hi.
Qed.

(** The lines of the report for a located syntax error: the located line,
    with its number, is followed by the caret line. *)
Lemma located_report_lines : forall rel msg text pos,
  exists l pre post,
    l < length (split_lines text)
    /\ lc_line (getLineAndColumnFromIndex text pos) = (Z.of_nat l + 1)%Z
    /\ lines_of (located_report rel msg text pos)
       = pre
           ++ [ (padStart 3 (String_of_N (N.of_nat (l + 1))) ++ u16 " | ")
                  ++ nth l (split_lines text) [];
                spaces (Z.of_nat (length (padStart 3 (String_of_N
                                                       (N.of_nat (l + 1)))
                                          ++ u16 " | "))
                        + Z.max 0 (lc_column (getLineAndColumnFromIndex text pos)
                                   - 1))
                  ++ u16 "^" ]
           ++ post
    /\ length pre <= 2.
Proof.
  intros rel msg text pos.
  destruct (getLineAndColumnFromIndex_line text pos) as (l & Hl & Hline & _).
  unfold located_report. cbv zeta. cbn [lines_of].
  rewrite Hline.
  set (lines := split_lines text) in *.
  set (column := lc_column (getLineAndColumnFromIndex text pos)).
  set (start := Z.to_nat (Z.max 0 (Z.of_nat l + 1 - 3))).
  set (end_ := Z.to_nat (Z.min (Z.of_nat (length lines) - 1) (Z.of_nat l + 1 + 1))).
  assert (Hstart : start = l - 2) by (unfold start; lia).
  assert (Hend : l <= end_) by (unfold end_; lia).
  rewrite (@flat_map_seq_split _ _ start (end_ + 1 - start) l) by lia.
  exists l.
  exists (flat_map (snippet_line lines (Z.of_nat l + 1) column)
                   (seq start (l - start))).
  eexists. split; [exact Hl|]. split; [reflexivity|]. split.
  - rewrite <- app_assoc. f_equal. rewrite <- app_assoc.
    unfold snippet_line at 1.
    replace (Z.of_nat l =? Z.of_nat l + 1 - 1)%Z with true
      by (symmetry; apply Z.eqb_eq; lia).
    cbn [app]. reflexivity.
  - rewrite length_flat_map_snippet_line; [lia|].
    intros i Hi. apply in_seq in Hi. apply Z.eqb_neq. lia.
Qed.

(** ** Manifest validation: paths and syntax errors *)

Section ManifestValidation.

Variable P : Platform.

Lemma readFile_value : forall path t,
  fs_readFileSync P path = Value t ->
  readFile P path = (Ret t, [ReadFile path]).
Proof. intros path t H. unfold readFile. rewrite H. reflexivity. Qed.

Lemma readFile_harmless : forall path,
  harmless (fun _ => True) (readFile P path).
Proof. intros path. unfold readFile. repeat harmless_step. Qed.

(** C10. A manifest whose path relative to the working directory holds a
    character outside [a-z0-9/._-] is rejected at once: the result is
    [false], the only effect is the error message (the file is not read),
    and an upper-case letter is such a character. *)
Theorem validateManifest_rejects_path :
  forall manifestPath schemaPath c,
    In c (path_relative P (cwd P) manifestPath) ->
    path_char c = false ->
    validateManifest P manifestPath schemaPath
    = (Ret false,
       [Log error (path_relative P (cwd P) manifestPath
                     ++ u16 ": Non [a-z0-9/._-] character in path") []])
    /\ (forall u, (65 <= u <= 90)%N -> path_char u = false).
Proof.
  intros manifestPath schemaPath c Hin Hc. split.
  - unfold validateManifest.
    rewrite test_path_chars.
    assert (Hall : forallb path_char (path_relative P (cwd P) manifestPath)
                   = false).
    { destruct (forallb path_char _) eqn:E; [|reflexivity].
      rewrite forallb_forall in E. rewrite (E c Hin) in Hc. discriminate. }
    rewrite Hall, andb_false_r. reflexivity.
  - apply uppercase_not_path_char.
Qed.

(** C4. When parsing the manifest fails and the parser's message names no
    position, the position is (a) that of the first comma of the text behind
    which, after any white space, a bracket or a brace closes, if there is
    one; else (b) that of the first occurrence in the text of the token the
    message names, which is the one character (behind a quote, if any) that
    follows the words [Unexpected token ]; with neither, the report
    consists of the message and one line of advice, without a snippet.  A
    located report names the line and the column in its header and shows
    the line, with at most two lines before it, and a caret line below it.
    In each case the result is [false]. *)
Theorem validateManifest_syntax_error_fallback :
  forall manifestPath schemaPath manifestText err,
    test no_flags re_path_chars (path_relative P (cwd P) manifestPath) = true ->
    fs_readFileSync P manifestPath = Value manifestText ->
    JSON_parse P manifestText = Raised err ->
    let msg := if nonempty err then err else u16 "SyntaxError" in
    let rel :=
      path_join P [ u16 "servers";
                    path_basename P (path_dirname P manifestPath);
                    path_basename P manifestPath ] in
    let unlocated :=
      Log error (u16 "JSON syntax error in " ++ rel ++ u16 ": " ++ msg)
          [ u16 "The JSON is malformed. Common causes: trailing commas, missing quotes, or stray characters." ] in
    position_digits msg = None ->
    validateManifest P manifestPath schemaPath
    = (Ret false,
       [ ReadFile manifestPath;
         match trailing_comma_offset manifestText with
         | Some o => located_report rel msg manifestText (Z.of_nat o)
         | None =>
             match reported_token msg with
             | Some tok =>
                 match indexOf tok manifestText with
                 | Some o => located_report rel msg manifestText (Z.of_nat o)
                 | None => unlocated
                 end
             | None => unlocated
             end
         end ])
    /\ (forall pos,
          exists l pre post,
            let prefix :=
              padStart 3 (String_of_N (N.of_nat (l + 1))) ++ u16 " | " in
            let column :=
              lc_column (getLineAndColumnFromIndex manifestText pos) in
            l < length (split_lines manifestText)
            /\ located_report rel msg manifestText pos
               = Log error
                     (rel ++ u16 ": SyntaxError: " ++ msg ++ u16 " ("
                          ++ String_of_Z (Z.of_nat l + 1) ++ u16 ":"
                          ++ String_of_Z column ++ u16 ")")
                     (pre
                        ++ [ prefix ++ nth l (split_lines manifestText) [];
                             spaces (Z.of_nat (length prefix)
                                     + Z.max 0 (column - 1))
                               ++ u16 "^" ]
                        ++ post)
            /\ length pre <= 2).
Proof.
  intros manifestPath schemaPath manifestText err Hrel Hread Hparse msg rel
         unlocated Hpos.
  split.
  - unfold validateManifest. rewrite Hrel. cbn [negb].
    unfold readFile. rewrite Hread. cbn.
    rewrite Hparse. unfold report_syntax_error.
    fold msg. fold rel.
    unfold syntax_error_position.
    rewrite position_in_message_spec, Hpos. cbn [or_else].
    rewrite position_of_trailing_comma_spec, position_of_token_spec.
    destruct (trailing_comma_offset manifestText) as [o|];
      cbn [option_map or_else]; [reflexivity|].
    destruct (reported_token msg) as [tok|]; [|reflexivity].
    destruct (indexOf tok manifestText) as [o|]; reflexivity.
  - intros pos.
    destruct (located_report_lines rel msg manifestText pos)
      as (l & pre & post & Hl & Hline & Hlines & Hpre).
    exists l, pre, post. cbv zeta.
    split; [exact Hl|]. split; [|exact Hpre].
    rewrite <- Hlines, <- Hline. reflexivity.
Qed.

End ManifestValidation.

(** The manifest of [Foo] is rejected for the upper-case letter of its
    path. *)
Lemma validateManifest_rejects_path_example :
  In 70%N (path_relative (platform_of world_upper)
                         (cwd (platform_of world_upper)) UPPER_MANIFEST)
  /\ path_char 70%N = false
  /\ validateManifest (platform_of world_upper) UPPER_MANIFEST None
     = (Ret false,
        [ Log error (u16 "servers/Foo/manifest.json: Non [a-z0-9/._-] character in path")
              [] ]).
Proof.
  assert (Hin : In 70%N (path_relative (platform_of world_upper)
                           (cwd (platform_of world_upper)) UPPER_MANIFEST)).
  { vm_compute. do 8 right. left. reflexivity. }
  split; [exact Hin | split; [reflexivity|]].
  exact (proj1 (validateManifest_rejects_path (platform_of world_upper)
                  UPPER_MANIFEST None 70%N Hin eq_refl)).
Defined.

(** Three manifests that cannot be parsed, with messages that name no
    position.  A list that ends with a comma: the comma is found at offset
    5, and the report points at line 1, column 6.  A bare word: the message
    names the token [x], which is found at offset 1, and the report points
    at line 1, column 2.  A text that breaks off: no position is found, and
    the report has no snippet. *)
Lemma validateManifest_syntax_error_example :
  (position_digits COMMA_ERROR = None
   /\ trailing_comma_offset COMMA_TEXT = Some 5
   /\ validateManifest (platform_of world_comma) FOO_MANIFEST None
      = (Ret false,
         [ ReadFile FOO_MANIFEST;
           Log error
               (u16 "servers/foo/manifest.json: SyntaxError: " ++ COMMA_ERROR
                    ++ u16 " (1:6)")
               [ u16 "  1 | " ++ COMMA_TEXT;
                 u16 "           ^";
                 [];
                 u16 "Suggestion: check for trailing commas, missing quotes, or incorrect brackets." ] ]))
  /\ (position_digits WORD_ERROR = None
      /\ trailing_comma_offset WORD_TEXT = None
      /\ reported_token WORD_ERROR = Some (u16 "x")
      /\ indexOf (u16 "x") WORD_TEXT = Some 1
      /\ validateManifest (platform_of world_word) FOO_MANIFEST None
         = (Ret false,
            [ ReadFile FOO_MANIFEST;
              Log error
                  (u16 "servers/foo/manifest.json: SyntaxError: " ++ WORD_ERROR
                       ++ u16 " (1:2)")
                  [ u16 "  1 | " ++ WORD_TEXT;
                    u16 "       ^";
                    [];
                    u16 "Suggestion: check for trailing commas, missing quotes, or incorrect brackets." ] ]))
  /\ (position_digits (u16 "Unexpected end of JSON input") = None
      /\ trailing_comma_offset (u16 "{") = None
      /\ reported_token (u16 "Unexpected end of JSON input") = None
      /\ validateManifest (platform_of world_broken) FOO_MANIFEST None
         = (Ret false,
            [ ReadFile FOO_MANIFEST;
              Log error
                  (u16 "JSON syntax error in servers/foo/manifest.json: Unexpected end of JSON input")
                  [ u16 "The JSON is malformed. Common causes: trailing commas, missing quotes, or stray characters." ] ])).
Proof.
  split; [|split].
  - split; [reflexivity | split; [reflexivity|]].
    rewrite (proj1 (@validateManifest_syntax_error_fallback
                      (platform_of world_comma) FOO_MANIFEST None
                      COMMA_TEXT COMMA_ERROR eq_refl eq_refl eq_refl eq_refl)).
    vm_compute. reflexivity.
  - split; [reflexivity|]. split; [reflexivity|].
    split; [reflexivity|]. split; [reflexivity|].
    rewrite (proj1 (@validateManifest_syntax_error_fallback
                      (platform_of world_word) FOO_MANIFEST None
                      WORD_TEXT WORD_ERROR eq_refl eq_refl eq_refl eq_refl)).
    vm_compute. reflexivity.
  - split; [reflexivity|]. split; [reflexivity|]. split; [reflexivity|].
    rewrite (proj1 (@validateManifest_syntax_error_fallback
                      (platform_of world_broken) FOO_MANIFEST None
                      (u16 "{") (u16 "Unexpected end of JSON input")
                      eq_refl eq_refl eq_refl eq_refl)).
    vm_compute. reflexivity.
Defined.

(** The token is one character: of a message that names a word, its first
    letter is searched; and the search is for the first occurrence of that
    character anywhere in the text. *)
Lemma reported_token_examples :
  reported_token (u16 "Unexpected token 'x', ...") = Some (u16 "x")
  /\ reported_token (u16 "Unexpected token } in JSON") = Some (u16 "}")
  /\ reported_token (u16 "unexpected TOKEN true") = Some (u16 "t")
  /\ reported_token (u16 "Unexpected token '") = Some (u16 "'")
  /\ reported_token (u16 "Unexpected token ") = None
  /\ position_of_token (u16 "Unexpected token a in JSON") (u16 "{ 'a': bad }")
     = Some 3%Z.
Proof. repeat split; vm_compute; reflexivity. Qed.

(** ** Schema Validator *)

Section SchemaValidator.

Variable P : Platform.

Lemma keyword_is_eq : forall e k,
  keyword_is e k = true <-> keyword e = u16 k.
Proof. intros e k. unfold keyword_is. apply jsstring_eqb_eq. Qed.

(** The suggestions name [x] as missing exactly for a violation of
    [required] for [x]. *)
Lemma suggestions_name_missing : forall e (x : jsstring),
  x <> [] ->
  existsb (jsstring_eqb (u16 "Missing property: " ++ x))
          (suggestFixForAjvError P e)
  = required_for x e.
Proof.
  intros e x Hx. unfold suggestFixForAjvError, required_for. cbv zeta.
  rewrite existsb_app. cbn [existsb]. rewrite !orb_false_r.
  assert (Htip : jsstring_eqb (u16 "Missing property: " ++ x) TIP = false)
    by reflexivity.
  rewrite ?Htip, ?orb_false_r.
  destruct (keyword_is e "enum") eqn:Kenum.
  { assert (Hk : keyword_is e "required" = false).
    { apply keyword_is_eq in Kenum. unfold keyword_is. rewrite Kenum.
      reflexivity. }
    rewrite Hk. cbn [andb].
    destruct (params e) as [p|]; [|reflexivity].
    destruct (allowedValues p) as [v|]; [|reflexivity].
    destruct (truthy v); reflexivity. }
  destruct (keyword_is e "required") eqn:Kreq.
  { cbn [andb].
    destruct (params e) as [p|]; [|reflexivity].
    destruct (missingProperty p) as [y|]; [|reflexivity].
    destruct y as [|c y].
    - cbn [nonempty existsb]. destruct x; [contradiction | reflexivity].
    - cbn [nonempty existsb]. rewrite jsstring_eqb_app.
      rewrite ?orb_false_r.
      assert (Hfix : jsstring_eqb (u16 "Missing property: " ++ x)
                       (u16 "Fix: add the property to the manifest with an appropriate value.")
                     = false) by reflexivity.
      rewrite ?Hfix, ?orb_false_r. reflexivity. }
  cbn [andb].
  destruct (keyword_is e "type").
  { destruct (params e) as [p|]; [|reflexivity].
    destruct (type_ p) as [t|]; [|reflexivity].
    destruct (nonempty t); reflexivity. }
  destruct (keyword_is e "additionalProperties").
  { destruct (params e) as [p|]; [|reflexivity].
    destruct (additionalProperty p) as [t|]; [|reflexivity].
    destruct (nonempty t); reflexivity. }
  destruct (keyword_is e "minLength" || keyword_is e "maxLength");
    reflexivity.
Qed.

Lemma suggestions_nonempty : forall e,
  (0 <? length (suggestFixForAjvError P e)) = true.
Proof.
  intros e. unfold suggestFixForAjvError. cbv zeta.
  rewrite length_app. cbn [length]. apply Nat.ltb_lt. lia.
Qed.

Lemma findPropertySnippet_some : forall text path sn,
  findPropertySnippet text path = Some sn ->
  exists index, sn = getSnippetAroundIndex text index 2.
Proof.
  intros text path sn. unfold findPropertySnippet. cbv zeta.
  destruct (negb (nonempty path)); [discriminate|].
  destruct (negb (nonempty (last (filter nonempty (split_chr 47%N path)) [])));
    [discriminate|].
  destruct (exec flag_i _ text) as [m|]; [|discriminate].
  intros H; injection H as <-. eauto.
Qed.

(** The finding for a violation names [x] as missing exactly when the
    violation is one of [required] for [x]. *)
Lemma names_missing_report : forall text e (x : jsstring),
  x <> [] ->
  pointer_like e ->
  names_missing x (violation_report P text e) = required_for x e.
Proof.
  intros text e x Hx Hptr.
  unfold names_missing, violation_report. cbv zeta.
  cbn [is_error lines_of andb].
  rewrite suggestions_nonempty.
  remember (u16 "  - Missing property: " ++ x) as t eqn:Et.
  assert (Hthird : nth_error t 2 = Some 45%N) by (subst t; reflexivity).
  assert (Hfirst : forall rest, jsstring_eqb t (SLASH :: rest) = false)
    by (intros; subst t; reflexivity).
  assert (Hpath :
            jsstring_eqb t
              ((if nonempty (instancePath e) then instancePath e else u16 "/")
                 ++ u16 ": " ++ message e) = false).
  { destruct Hptr as [-> | [rest ->]]; apply Hfirst. }
  assert (Hcode : forall n, jsstring_eqb t (u16 "code (around line " ++ n)
                            = false) by (intros; subst t; reflexivity).
  assert (Hempty : jsstring_eqb t [] = false) by (subst t; reflexivity).
  assert (Hword : jsstring_eqb t (u16 "suggestions:") = false)
    by (subst t; reflexivity).
  assert (Hnames :
            existsb (jsstring_eqb t)
                    (map (fun s => u16 "  - " ++ s) (suggestFixForAjvError P e))
            = required_for x e).
  { subst t.
    change (u16 "  - Missing property: " ++ x)
      with (u16 "  - " ++ (u16 "Missing property: " ++ x)).
    rewrite existsb_map_prefix. apply suggestions_name_missing. exact Hx. }
  pose proof (snippet_lines_differ text) as Hsnip.
  unfold jsstring in *.
  rewrite !existsb_app, Hnames.
  destruct (findPropertySnippet text (instancePath e)) as [sn|] eqn:Esn.
  - destruct (findPropertySnippet_some _ _ Esn) as [index ->].
    rewrite !existsb_app.
    rewrite (Hsnip index 2 t Hthird).
    cbn [existsb]. rewrite Hpath, Hcode, Hempty, Hword. reflexivity.
  - cbn [existsb]. rewrite Hpath, Hempty, Hword. reflexivity.
Qed.

Lemma filter_names_missing : forall text errs (x : jsstring),
  x <> [] ->
  Forall pointer_like errs ->
  length (filter (names_missing x) (map (violation_report P text) errs))
  = length (filter (required_for x) errs).
Proof.
  intros text errs x Hx Hall; induction Hall as [|e errs He _ IH];
    [reflexivity|].
  cbn [map filter]. rewrite (names_missing_report text Hx He).
  destruct (required_for x e); cbn [length]; rewrite IH; reflexivity.
Qed.

End SchemaValidator.

Section SchemaFindings.

Variable P : Platform.

Lemma suggestFix_required : forall e p (x : jsstring),
  keyword e = u16 "required" ->
  params e = Some p ->
  missingProperty p = Some x ->
  x <> [] ->
  suggestFixForAjvError P e
  = [ u16 "Missing property: " ++ x;
      u16 "Fix: add the property to the manifest with an appropriate value.";
      TIP ].
Proof.
  intros e p x Hk Hp Hm Hx. unfold suggestFixForAjvError, keyword_is.
  rewrite Hk, Hp, Hm. cbv zeta.
  change (jsstring_eqb (u16 "required") (u16 "enum")) with false.
  change (jsstring_eqb (u16 "required") (u16 "required")) with true.
  cbv iota. destruct x; [contradiction | reflexivity].
Qed.

Lemma suggestFix_enum : forall e p items,
  keyword e = u16 "enum" ->
  params e = Some p ->
  allowedValues p = Some (JArr items) ->
  suggestFixForAjvError P e
  = [ u16 "Allowed values: " ++ JSON_stringify P (JArr items);
      u16 "Fix: choose one of the allowed values (check spelling and casing).";
      TIP ].
Proof.
  intros e p items Hk Hp Ha. unfold suggestFixForAjvError, keyword_is.
  rewrite Hk, Hp, Ha. reflexivity.
Qed.

(** The lines of a finding end with the suggestions. *)
Lemma violation_report_lines : forall text e,
  exists pre,
    lines_of (violation_report P text e)
    = pre ++ [ []; u16 "suggestions:" ]
          ++ map (fun s => u16 "  - " ++ s) (suggestFixForAjvError P e).
Proof.
  intros text e. unfold violation_report. cbv zeta. cbn [lines_of].
  rewrite suggestions_nonempty. eexists. reflexivity.
Qed.

Lemma load_schema_quiet : forall schemaPath e,
  In e (effects (load_schema P schemaPath)) -> is_error e = false.
Proof.
  intros schemaPath e He.
  assert (Hh : harmless (fun _ => True) (load_schema P schemaPath)).
  { unfold load_schema. destruct schemaPath as [sp|];
      repeat (harmless_step || apply readFile_harmless). }
  destruct Hh as [Hall _]. rewrite Forall_forall in Hall. apply Hall, He.
Qed.

(** C5. When the validator reports violations, the findings are the
    header followed by one finding for each violation, in order.  For a
    property name [x] that is not empty, and instance paths that are JSON
    pointers, as many findings name [x] as missing as there are violations
    of [required] for [x] (one for one); the finding for such a violation
    ends with the suggestions "Missing property: x" and "Fix: add the
    property ...".  The finding for a violation of [enum] ends with the
    suggestions "Allowed values: " followed by the serialised list of the
    allowed values of the schema, and "Fix: choose one of the allowed
    values ...". *)
Theorem validateManifest_violations :
  forall manifestPath schemaPath manifestText manifest schema ts errs,
    test no_flags re_path_chars (path_relative P (cwd P) manifestPath) = true ->
    fs_readFileSync P manifestPath = Value manifestText ->
    JSON_parse P manifestText = Value manifest ->
    load_schema P schemaPath = (Ret schema, ts) ->
    ajv_validate P schema manifest = Value errs ->
    errs <> [] ->
    validateManifest P manifestPath schemaPath
    = (Ret false,
       ReadFile manifestPath
         :: ts ++ Log error (u16 "Validation failed for "
                               ++ path_relative P (cwd P) manifestPath
                               ++ u16 ":") []
         :: map (violation_report P manifestText) errs)
    /\ (forall x : jsstring,
           x <> [] ->
           Forall pointer_like errs ->
           length (filter (names_missing x)
                          (effects (validateManifest P manifestPath schemaPath)))
           = length (filter (required_for x) errs))
    /\ (forall e p (x : jsstring),
           In e errs ->
           keyword e = u16 "required" ->
           params e = Some p ->
           missingProperty p = Some x ->
           x <> [] ->
           exists pre,
             lines_of (violation_report P manifestText e)
             = pre ++ [ [];
                        u16 "suggestions:";
                        u16 "  - Missing property: " ++ x;
                        u16 "  - Fix: add the property to the manifest with an appropriate value.";
                        u16 "  - " ++ TIP ])
    /\ (forall e p items,
           In e errs ->
           keyword e = u16 "enum" ->
           params e = Some p ->
           allowedValues p = Some (JArr items) ->
           exists pre,
             lines_of (violation_report P manifestText e)
             = pre ++ [ [];
                        u16 "suggestions:";
                        u16 "  - Allowed values: "
                          ++ JSON_stringify P (JArr items);
                        u16 "  - Fix: choose one of the allowed values (check spelling and casing).";
                        u16 "  - " ++ TIP ]).
Proof.
  intros manifestPath schemaPath manifestText manifest schema ts errs
         Hrel Hread Hparse Hschema Hajv Hne.
  assert (Hrun :
    validateManifest P manifestPath schemaPath
    = (Ret false,
       ReadFile manifestPath
         :: ts ++ Log error (u16 "Validation failed for "
                               ++ path_relative P (cwd P) manifestPath
                               ++ u16 ":") []
         :: map (violation_report P manifestText) errs)).
  { unfold validateManifest. rewrite Hrel. cbn [negb].
    erewrite readFile_value by eassumption. cbn. rewrite Hparse, Hschema.
    cbn. rewrite Hajv. cbn.
    destruct errs as [|e errs]; [contradiction|].
    rewrite (effects_M_iter_emit (violation_report P manifestText)).
    cbn. rewrite app_nil_r. reflexivity. }
  split; [exact Hrun|]. split; [|split].
  - intros x Hx Hptr. rewrite Hrun. cbn [effects snd filter].
    cbn [names_missing is_error andb].
    rewrite filter_app. cbn [filter names_missing is_error lines_of existsb andb].
    rewrite length_app. cbn [length].
    rewrite (filter_names_missing P manifestText Hx Hptr).
    assert (Hts : filter (names_missing x) ts = []).
    { assert (Hq : forall e, In e ts -> is_error e = false).
      { intros e He. apply (load_schema_quiet schemaPath).
        rewrite Hschema. exact He. }
      clear - Hq. induction ts as [|e ts IH]; [reflexivity|].
      cbn [filter]. unfold names_missing at 1.
      rewrite (Hq e (or_introl eq_refl)). cbn [andb].
      apply IH. intros e' He'. apply Hq. right. exact He'. }
    rewrite Hts. reflexivity.
  - intros e p x _ Hk Hp Hm Hx.
    destruct (violation_report_lines manifestText e) as [pre Hlines].
    exists pre. rewrite Hlines, (suggestFix_required e Hk Hp Hm Hx).
    reflexivity.
  - intros e p items _ Hk Hp Ha.
    destruct (violation_report_lines manifestText e) as [pre Hlines].
    exists pre. rewrite Hlines, (suggestFix_enum e Hk Hp Ha).
    reflexivity.
Qed.

End SchemaFindings.

(** The manifest of [world_invalid]: one finding names the missing
    [server-address]. *)
Lemma validateManifest_violations_example :
  test no_flags re_path_chars
       (path_relative (platform_of world_invalid)
                      (cwd (platform_of world_invalid)) FOO_MANIFEST) = true
  /\ fs_readFileSync (platform_of world_invalid) FOO_MANIFEST
     = Value INVALID_TEXT
  /\ JSON_parse (platform_of world_invalid) INVALID_TEXT
     = Value (JObj [ (u16 "edition", JStr (u16 "pocket")) ])
  /\ load_schema (platform_of world_invalid) None = (Ret ROOT_SCHEMA, [])
  /\ ajv_validate (platform_of world_invalid) ROOT_SCHEMA
                  (JObj [ (u16 "edition", JStr (u16 "pocket")) ])
     = Value INVALID_ERRORS
  /\ INVALID_ERRORS <> []
  /\ Forall pointer_like INVALID_ERRORS
  /\ length (filter (names_missing (u16 "server-address"))
                    (effects (validateManifest (platform_of world_invalid)
                                               FOO_MANIFEST None)))
     = 1.
Proof.
  assert (Hptr : Forall pointer_like INVALID_ERRORS).
  { apply Forall_cons; [left; reflexivity|].
    apply Forall_cons; [right; eexists; reflexivity | apply Forall_nil]. }
  repeat (split; [vm_compute; reflexivity|]).
  split; [discriminate|]. split; [exact Hptr|].
  rewrite (proj1 (proj2 (@validateManifest_violations
                           (platform_of world_invalid) FOO_MANIFEST None
                           INVALID_TEXT
                           (JObj [ (u16 "edition", JStr (u16 "pocket")) ])
                           ROOT_SCHEMA [] INVALID_ERRORS
                           eq_refl eq_refl eq_refl eq_refl eq_refl
                           (fun H => eq_ind INVALID_ERRORS
                                       (fun l => match l with
                                                 | [] => False
                                                 | _ :: _ => True
                                                 end) I [] H)))
             (u16 "server-address")).
  - vm_compute. reflexivity.
  - vm_compute. discriminate.
  - exact Hptr.
Defined.

(** The schema of [world_blank] requires the property with the empty
    name: the validator reports it as missing, and the one finding names no
    missing property and gives no advice to add one. *)
Lemma validateManifest_blank_property :
  ajv_validate (platform_of world_blank) (rootSchema (platform_of world_blank))
               (JObj [])
  = Value [BLANK_ERROR]
  /\ required_for [] BLANK_ERROR = true
  /\ validateManifest (platform_of world_blank) FOO_MANIFEST None
     = (Ret false,
        [ ReadFile FOO_MANIFEST;
          Log error (u16 "Validation failed for servers/foo/manifest.json:") [];
          Log error (u16 "  /")
              [ u16 "/: must have required property ''";
                [];
                u16 "suggestions:";
                u16 "  - " ++ TIP ] ])
  /\ length (filter (names_missing [])
                    (effects (validateManifest (platform_of world_blank)
                                               FOO_MANIFEST None)))
     = 0
  /\ suggestFixForAjvError (platform_of world_blank) BLANK_ERROR = [TIP].
Proof. repeat split; vm_compute; reflexivity. Qed.

(** ** Asset Checker *)

Section AssetChecker.

Variable P : Platform.

Lemma check_asset_in_place : forall manifestPath what v,
  asset_in_place P (path_dirname P manifestPath) v ->
  check_asset P manifestPath (path_dirname P manifestPath) what v
  = (Ret true, []).
Proof.
  intros manifestPath what v [Hf | (s & -> & Hex)]; unfold check_asset.
  - rewrite Hf. reflexivity.
  - destruct (truthy_val (Some (JStr s))); [|reflexivity].
    cbn. rewrite Hex. reflexivity.
Qed.

Lemma check_asset_missing : forall manifestPath (dir : jsstring) what (s : jsstring),
  s <> [] ->
  fs_existsSync P (path_join P [dir; s]) = false ->
  check_asset P manifestPath dir what (Some (JStr s))
  = (Ret false,
     [Log error (u16 what ++ u16 " file not found for "
                   ++ prettyServerName P manifestPath ++ u16 ": " ++ s) []]).
Proof.
  intros manifestPath dir what s Hne Hex. unfold check_asset.
  assert (Ht : truthy_val (Some (JStr s)) = true)
    by (destruct s; [contradiction | reflexivity]).
  rewrite Ht. cbn. rewrite Hex. reflexivity.
Qed.

(** Whatever is declared, an asset check ends with a value or an error, never
    with the end of the process. *)
Lemma check_asset_outcome : forall manifestPath dir what v c,
  outcome (check_asset P manifestPath dir what v) <> Exit c.
Proof.
  intros manifestPath dir what v c. unfold check_asset.
  destruct (truthy_val v); [|discriminate].
  destruct v as [[| | |s| |]|]; cbn; try discriminate.
  destruct (fs_existsSync P (path_join P [dir; s])); cbn; discriminate.
Qed.

(** C6. For a manifest that parses to an object: without an [assets]
    section the checker reports the absence and returns [false]; with an
    [assets.icon] that names a file that does not exist below the manifest's
    directory it reports the file and returns [false]; when every declared
    asset is in place it returns [true] without a finding. *)
Theorem validateAssets_spec :
  forall manifestPath manifestText fields,
    fs_readFileSync P manifestPath = Value manifestText ->
    JSON_parse P manifestText = Value (JObj fields) ->
    (lookup (u16 "assets") fields = None ->
     validateAssets P manifestPath
     = (Ret false,
        [ ReadFile manifestPath;
          Log error (u16 "No assets section found for "
                       ++ prettyServerName P manifestPath) [] ]))
    /\ (forall afields (icon : jsstring),
           lookup (u16 "assets") fields = Some (JObj afields) ->
           lookup (u16 "icon") afields = Some (JStr icon) ->
           icon <> [] ->
           fs_existsSync P (path_join P [path_dirname P manifestPath; icon])
           = false ->
           outcome (validateAssets P manifestPath) = Ret false
           /\ In (Log error (u16 "Icon file not found for "
                               ++ prettyServerName P manifestPath ++ u16 ": "
                               ++ icon) [])
                 (effects (validateAssets P manifestPath)))
    /\ (forall afields,
           lookup (u16 "assets") fields = Some (JObj afields) ->
           asset_in_place P (path_dirname P manifestPath)
                          (lookup (u16 "icon") afields) ->
           asset_in_place P (path_dirname P manifestPath)
                          (lookup (u16 "background") afields) ->
           validateAssets P manifestPath = (Ret true, [ReadFile manifestPath])).
Proof.
  intros manifestPath manifestText fields Hread Hparse.
  split; [|split].
  - intros Habs. unfold validateAssets.
    erewrite readFile_value by eassumption. cbn. rewrite Hparse. cbn.
    rewrite Habs. reflexivity.
  - intros afields icon Hassets Hicon Hne Hex.
    unfold validateAssets.
    erewrite readFile_value by eassumption. cbn. rewrite Hparse. cbn.
    rewrite Hassets. cbn. rewrite Hicon. cbn.
    rewrite (@check_asset_missing manifestPath _ "Icon"%string _ Hne Hex). cbn.
    pose proof (check_asset_outcome manifestPath (path_dirname P manifestPath)
                  "Background" (lookup (u16 "background") afields)) as Hno.
    destruct (check_asset P manifestPath (path_dirname P manifestPath)
                "Background" (lookup (u16 "background") afields))
      as [[b|msg|c] t]; cbn.
    + split; [reflexivity | right; left; reflexivity].
    + split; [reflexivity | right; left; reflexivity].
    + exfalso. apply (Hno c). reflexivity.
  - intros afields Hassets Hicon Hbg. unfold validateAssets.
    erewrite readFile_value by eassumption. cbn. rewrite Hparse. cbn.
    rewrite Hassets. cbn.
    rewrite (@check_asset_in_place manifestPath "Icon"%string _ Hicon). cbn.
    rewrite (@check_asset_in_place manifestPath "Background"%string _ Hbg). reflexivity.
Qed.

End AssetChecker.

(** The manifest of [foo] declares an icon that is present. *)
Lemma validateAssets_example :
  fs_readFileSync (platform_of world_good) FOO_MANIFEST = Value FOO_TEXT
  /\ JSON_parse (platform_of world_good) FOO_TEXT = Value GOOD_MANIFEST
  /\ validateAssets (platform_of world_good) FOO_MANIFEST
     = (Ret true, [ReadFile FOO_MANIFEST]).
Proof.
  split; [reflexivity | split; [reflexivity|]].
  refine (proj2 (proj2 (@validateAssets_spec (platform_of world_good)
                          FOO_MANIFEST FOO_TEXT _ eq_refl eq_refl))
                _ eq_refl _ _).
  - right. exists (u16 "icon.png"). split; reflexivity.
  - left. reflexivity.
Defined.

(** ** Status Prober *)

Section StatusProber.

Variable P : Platform.

Lemma motd_text_harmless : forall response,
  harmless (fun _ => True) (motd_text P response).
Proof. intros response. unfold motd_text. repeat harmless_step. Qed.

Lemma probe_harmless : forall serverName address apiUrl,
  harmless (fun b => b = true) (probe P serverName address apiUrl).
Proof.
  intros serverName address apiUrl. unfold probe.
  repeat (harmless_step || apply motd_text_harmless).
Qed.

Lemma guarded_probe_harmless : forall serverName address apiUrl,
  harmless (fun b => b = true) (guarded_probe P serverName address apiUrl).
Proof.
  intros serverName address apiUrl. unfold guarded_probe.
  repeat (harmless_step || apply probe_harmless).
Qed.

Lemma checkServerStatus_harmless : forall manifestPath,
  harmless (fun b => b = true) (checkServerStatus P manifestPath).
Proof.
  intros manifestPath. unfold checkServerStatus.
  repeat (harmless_step || apply readFile_harmless
          || apply guarded_probe_harmless).
Qed.

Lemma checkServerStatus_outcome : forall manifestPath,
  outcome (checkServerStatus P manifestPath) = Ret true.
Proof.
  intros manifestPath.
  destruct (checkServerStatus_harmless manifestPath) as [_ Ho].
  unfold checkServerStatus in *. rewrite outcome_try_catch in *.
  match goal with
  | |- match outcome ?m with _ => _ end = _ => destruct (outcome m)
  end; try reflexivity; try contradiction.
  subst. reflexivity.
Qed.

End StatusProber.

Section SkippedEntries.

Variable P : Platform.

(** An entry of the bedrock edition is passed without a request. *)
Lemma checkServerStatus_bedrock :
  forall manifestPath manifestText fields (edition : jsstring),
    fs_readFileSync P manifestPath = Value manifestText ->
    JSON_parse P manifestText = Value (JObj fields) ->
    lookup (u16 "edition") fields = Some (JStr edition) ->
    toLowerCase P edition = u16 "bedrock" ->
    edition <> [] ->
    checkServerStatus P manifestPath = (Ret true, [ReadFile manifestPath]).
Proof.
  intros manifestPath manifestText fields edition Hread Hparse Hed Hlow Hne.
  unfold checkServerStatus.
  erewrite readFile_value by eassumption. cbn. rewrite Hparse. cbn.
  rewrite Hed.
  assert (Ht : truthy_val (Some (JStr edition)) = true)
    by (destruct edition; [contradiction | reflexivity]).
  rewrite Ht. cbn. rewrite Hlow. reflexivity.
Qed.

(** An entry whose list of addresses is empty is passed without a
    request. *)
Lemma checkServerStatus_empty_list :
  forall manifestPath manifestText fields,
    fs_readFileSync P manifestPath = Value manifestText ->
    JSON_parse P manifestText = Value (JObj fields) ->
    lookup (u16 "edition") fields = None ->
    lookup (u16 "server-address") fields = Some (JArr []) ->
    checkServerStatus P manifestPath = (Ret true, [ReadFile manifestPath]).
Proof.
  intros manifestPath manifestText fields Hread Hparse Hed Haddr.
  unfold checkServerStatus.
  erewrite readFile_value by eassumption. cbn. rewrite Hparse. cbn.
  rewrite Hed. cbn. rewrite Haddr. reflexivity.
Qed.

(** An entry that declares no address at all is not skipped: the list of
    addresses then holds [undefined], and the request goes out for the
    address ["undefined"]. *)
Lemma checkServerStatus_undeclared_address :
  forall manifestPath manifestText fields encoded,
    fs_readFileSync P manifestPath = Value manifestText ->
    JSON_parse P manifestText = Value (JObj fields) ->
    lookup (u16 "edition") fields = None ->
    lookup (u16 "server-address") fields = None ->
    encodeURIComponent P (u16 "undefined") = Value encoded ->
    In (HttpGet (u16 "https://api.mcsrvstat.us/3/" ++ encoded))
       (effects (checkServerStatus P manifestPath)).
Proof.
  intros manifestPath manifestText fields encoded Hread Hparse Hed Haddr Henc.
  unfold checkServerStatus. apply In_effects_try_catch.
  eapply In_effects_bind; [apply readFile_value; eassumption|].
  eapply In_effects_bind; [rewrite Hparse; reflexivity|].
  eapply In_effects_bind; [cbn [get_prop]; rewrite Hed; reflexivity|].
  eapply In_effects_bind; [reflexivity|]. cbv beta iota.
  eapply In_effects_bind; [cbn [get_prop]; rewrite Haddr; reflexivity|].
  cbn [length Nat.eqb hd].
  change (ToString_val None) with (u16 "undefined").
  eapply In_effects_bind; [rewrite Henc; reflexivity|].
  unfold guarded_probe. apply In_effects_try_catch.
  unfold probe. apply In_effects_bind_first. left. reflexivity.
Qed.

End SkippedEntries.

(** C7. A manifest that declares an edition other than bedrock and no
    server address is not skipped: the prober sends a request for the
    address ["undefined"] (and reports its failure as a warning). *)
Theorem checkServerStatus_requests_undefined :
  JSON_parse (platform_of world_no_address) FOO_TEXT
  = Value (JObj [ (u16 "edition", JStr (u16 "java")) ])
  /\ checkServerStatus (platform_of world_no_address) FOO_MANIFEST
     = (Ret true,
        [ ReadFile FOO_MANIFEST;
          HttpGet (u16 "https://api.mcsrvstat.us/3/undefined");
          Log warn (u16 "Could not check server status for foo (undefined)")
              [ u16 "Error: getaddrinfo ENOTFOUND api.mcsrvstat.us";
                u16 "This might be a temporary network issue - validation will continue." ] ]).
Proof. split; vm_compute; reflexivity. Qed.

(** A bedrock entry is passed without a request. *)
Lemma checkServerStatus_bedrock_example :
  checkServerStatus
    (platform_of (world_with [] FOO_MANIFEST FOO_TEXT
                    (Value (JObj [ (u16 "edition", JStr (u16 "Bedrock"));
                                   (u16 "server-address",
                                    JStr (u16 "play.foo.net")) ]))))
    FOO_MANIFEST
  = (Ret true, [ReadFile FOO_MANIFEST]).
Proof. vm_compute. reflexivity. Qed.

(** ** Orchestrator *)

Section EntryChecks.

Variable P : Platform.

Lemma validateManifest_stays : forall manifestPath schemaPath,
  stays (validateManifest P manifestPath schemaPath).
Proof.
  intros manifestPath schemaPath.
  unfold validateManifest, report_syntax_error, load_schema, readFile.
  repeat stays_step.
Qed.

Lemma check_asset_stays : forall manifestPath dir what v,
  stays (check_asset P manifestPath dir what v).
Proof.
  intros. unfold check_asset. repeat stays_step.
Qed.

Lemma validateAssets_returns : forall manifestPath,
  exists b, outcome (validateAssets P manifestPath) = Ret b.
Proof.
  intros manifestPath. unfold validateAssets.
  rewrite outcome_try_catch.
  match goal with
  | |- exists b, match outcome ?m with _ => _ end = _ =>
      assert (Hs : stays m)
  end.
  { unfold readFile. repeat (stays_step || apply check_asset_stays). }
  unfold stays in Hs.
  match goal with
  | |- exists b, match outcome ?m with _ => _ end = _ =>
      destruct (outcome m) as [b|msg|c]
  end.
  - exists b; reflexivity.
  - exists false; reflexivity.
  - contradiction.
Qed.

End EntryChecks.

Section Orchestrator.

Variable P : Platform.

(** What passing means for an entry at its turn: only the manifest
    validation consults the validator. *)
Lemma passes_at_call : forall earlier p,
  passes (at_call earlier p P) p
  <-> outcome (validateManifest (at_call earlier p P) p
                                (local_schema_path P p)) = Ret true
      /\ outcome (validateAssets P p) = Ret true.
Proof. intros earlier p. split; intros H; exact H. Qed.

(** The loop over the manifests ends with [true] exactly when it started
    with [true] and every entry passes at its turn; it never ends the
    process. *)
Lemma check_manifests_true : forall files earlier allValid,
  outcome (check_manifests P earlier files allValid) = Ret true
  <-> allValid = true /\ Forall (in_turn passes) (turns P earlier files).
Proof.
  induction files as [|p files IH]; intros earlier allValid.
  - simpl. unfold outcome, ret; simpl. split.
    + intros H; injection H as ->. split; [reflexivity | constructor].
    + intros [-> _]; reflexivity.
  - cbn [check_manifests turns]. rewrite outcome_bind.
    destruct (outcome (validateManifest (at_call earlier p P) p
                                        (local_schema_path P p)))
      as [mv|msg|c] eqn:Emv.
    + rewrite outcome_bind.
      destruct (validateAssets_returns P p) as [av Eav]. rewrite Eav.
      rewrite outcome_bind, checkServerStatus_outcome. rewrite IH.
      split.
      * intros [Hb HF].
        destruct mv, av; simpl in Hb; try discriminate.
        split; [assumption|].
        apply Forall_cons; [|assumption].
        apply passes_at_call. split; assumption.
      * intros [-> HF]. inversion HF as [|? ? Hp HF']; subst.
        apply (proj1 (passes_at_call earlier p)) in Hp. destruct Hp as [Hm Ha].
        rewrite Emv in Hm; injection Hm as ->.
        rewrite Eav in Ha; injection Ha as ->.
        split; [reflexivity | assumption].
    + split; [discriminate|].
      intros [_ HF]. inversion HF as [|? ? Hp _]; subst.
      apply (proj1 (passes_at_call earlier p)) in Hp. destruct Hp as [Hm _].
      rewrite Emv in Hm; discriminate.
    + split; [discriminate|].
      intros [_ HF]. inversion HF as [|? ? Hp _]; subst.
      apply (proj1 (passes_at_call earlier p)) in Hp. destruct Hp as [Hm _].
      rewrite Emv in Hm; discriminate.
Qed.

Lemma check_manifests_stays : forall files earlier allValid,
  stays (check_manifests P earlier files allValid).
Proof.
  induction files as [|p files IH]; intros earlier allValid;
    cbn [check_manifests].
  - exact I.
  - apply stays_bind; [apply validateManifest_stays | intros mv].
    apply stays_bind; [|intros av].
    { destruct (validateAssets_returns P p) as [b Hb]. unfold stays.
      rewrite Hb. exact I. }
    apply stays_bind; [|intros _; apply IH].
    unfold stays. rewrite checkServerStatus_outcome. exact I.
Qed.

Lemma relevant_missing_guard : forall ff (m : list jsstring),
  (if 0 <? length m then relevant_missing ff m else [])
  = relevant_missing ff m.
Proof. intros [folders|] [|x m]; reflexivity. Qed.

(** The outcome of [main] once discovery has succeeded. *)
Lemma main_outcome : forall d,
  findManifestFiles P = Value d ->
  let ff := parse_folders (argv P) in
  let sel := selected_manifests P ff (manifests d) in
  let rm := relevant_missing ff (missing d) in
  outcome (main P)
  = if restricted ff && (length sel =? 0) then Exit 0
    else if (length sel =? 0) && (length (missing d) =? 0) then Exit 1
    else verdict (outcome (check_manifests P [] sel (all_found rm))).
Proof.
  intros d Hd ff sel rm. unfold main. cbv zeta. fold ff.
  rewrite outcome_bind.
  assert (H1 : outcome (match ff with
                        | Some folders =>
                            logger info (u16 "Checking only specified folders: "
                                           ++ join (u16 ", ") folders) []
                        | None => ret tt
                        end) = Ret tt) by (destruct ff; reflexivity).
  rewrite H1. rewrite outcome_bind, Hd. cbn [lift outcome fst].
  rewrite relevant_missing_guard.
  fold sel. fold rm. fold (all_found rm). rewrite outcome_bind.
  assert (Htail :
    outcome
      ((if (length sel =? 0) && (length (missing d) =? 0)
        then logger error (u16 "No manifest files found.") [];; process_exit 1
        else ret tt);;
       M_iter
         (fun dirName : jsstring =>
            reportError (u16 "Missing manifest.json for server: " ++ dirName) [])
         rm;;
       allValid <- check_manifests P [] sel (all_found rm);;
       (if allValid
        then logger info (u16 "All checks passed!") [];; process_exit 0
        else ret tt);;
       process_exit 1)
    = if (length sel =? 0) && (length (missing d) =? 0) then Exit 1
      else verdict (outcome (check_manifests P [] sel (all_found rm)))).
  { rewrite outcome_bind.
    destruct ((length sel =? 0) && (length (missing d) =? 0)); [reflexivity|].
    cbn [ret outcome fst].
    rewrite outcome_bind, outcome_M_iter by (intros; reflexivity).
    rewrite outcome_bind.
    destruct (outcome (check_manifests P [] sel (all_found rm)))
      as [[|]|msg|c]; reflexivity. }
  destruct ff as [[|f folders]|] eqn:Eff; cbn [restricted andb length Nat.ltb Nat.leb].
  - cbn [ret outcome fst]. exact Htail.
  - destruct (length sel =? 0); cbn [andb].
    + reflexivity.
    + cbn [ret outcome fst]. exact Htail.
  - cbn [ret outcome fst]. exact Htail.
Qed.

Lemma exit_status_run :
  exit_status (run P)
  = match outcome (main P) with
    | Exit c => Some c
    | Throw _ => Some 1%Z
    | Ret _ => None
    end.
Proof.
  unfold exit_status, run. rewrite outcome_try_catch.
  destruct (outcome (main P)); reflexivity.
Qed.

(** When discovery fails the run ends with status 1. *)
Lemma run_discovery_failure : forall msg,
  findManifestFiles P = Raised msg -> exit_status (run P) = Some 1%Z.
Proof.
  intros msg Hd. rewrite exit_status_run. unfold main. cbv zeta.
  rewrite outcome_bind.
  assert (H1 : outcome (match parse_folders (argv P) with
                        | Some folders =>
                            logger info (u16 "Checking only specified folders: "
                                           ++ join (u16 ", ") folders) []
                        | None => ret tt
                        end) = Ret tt)
    by (destruct (parse_folders (argv P)); reflexivity).
  rewrite H1, outcome_bind, Hd. reflexivity.
Qed.

(** The effects of a run that a folder filter leaves without a manifest. *)
Lemma run_nothing_selected : forall d folders,
  findManifestFiles P = Value d ->
  parse_folders (argv P) = Some folders ->
  restricted (Some folders) = true ->
  selected_manifests P (Some folders) (manifests d) = [] ->
  effects (run P)
  = [ Log info (u16 "Checking only specified folders: "
                  ++ join (u16 ", ") folders) [];
      Log info (u16 "No matching server folders found to validate.") [] ].
Proof.
  intros d folders Hd Hff Hr Hsel.
  unfold run. rewrite effects_try_catch.
  assert (Hmain : main P
                  = (Exit 0%Z,
                     [ Log info (u16 "Checking only specified folders: "
                                   ++ join (u16 ", ") folders) [];
                       Log info (u16 "No matching server folders found to validate.") [] ])).
  { unfold main. cbv zeta. rewrite Hff.
    unfold logger at 1. unfold emit at 1. cbn [bind].
    rewrite Hd. cbn [lift bind]. rewrite Hsel.
    destruct folders as [|f folders]; [discriminate|]. reflexivity. }
  rewrite Hmain. reflexivity.
Qed.

End Orchestrator.

(** C1. Once discovery has succeeded the run ends with status 0 or 1.
    When a non-empty folder filter selects no manifest and names no
    directory without a manifest, the status is 0 and no finding is written.
    When nothing is selected, no non-empty filter is given and no directory
    lacks its manifest, the status is 1.  Otherwise, when a manifest is
    selected, or no non-empty filter is given and a directory lacks its
    manifest, the status is 0 exactly when no directory the run is concerned
    with lacks its manifest and every selected entry passes the manifest
    check and the asset check at its turn, that is with the validator of the
    module as the checks of the entries before have left it. *)
Theorem run_exit_status :
  forall P d,
    findManifestFiles P = Value d ->
    let ff := parse_folders (argv P) in
    let sel := selected_manifests P ff (manifests d) in
    let rm := relevant_missing ff (missing d) in
    (exit_status (run P) = Some 0%Z \/ exit_status (run P) = Some 1%Z)
    /\ (restricted ff = true -> sel = [] -> rm = [] ->
        exit_status (run P) = Some 0%Z
        /\ Forall (fun e => is_finding e = false) (effects (run P)))
    /\ (restricted ff = false -> sel = [] -> missing d = [] ->
        exit_status (run P) = Some 1%Z)
    /\ (sel <> [] \/ (restricted ff = false /\ missing d <> []) ->
        (exit_status (run P) = Some 0%Z
         <-> rm = [] /\ Forall (in_turn passes) (turns P [] sel))).
Proof.
  intros P d Hd ff sel rm.
  pose proof (main_outcome P Hd) as Hmain. cbv zeta in Hmain.
  fold ff in Hmain. fold sel in Hmain. fold rm in Hmain.
  pose proof (exit_status_run P) as Hrun. rewrite Hmain in Hrun.
  pose proof (check_manifests_stays P sel [] (all_found rm)) as Hstay.
  pose proof (check_manifests_true P sel [] (all_found rm)) as Htrue.
  unfold stays in Hstay.
  split; [|split; [|split]].
  - rewrite Hrun.
    destruct (restricted ff && (length sel =? 0)); [left; reflexivity|].
    destruct ((length sel =? 0) && (length (missing d) =? 0));
      [right; reflexivity|].
    destruct (outcome (check_manifests P [] sel (all_found rm)))
      as [[|]|msg|c]; cbn; auto. contradiction.
  - intros Hr Hsel Hrm. split.
    + rewrite Hrun, Hr, Hsel. reflexivity.
    + destruct ff as [folders|] eqn:Eff; [|discriminate].
      rewrite (run_nothing_selected P Hd Eff Hr Hsel).
      repeat constructor.
  - intros Hr Hsel Hmiss. rewrite Hrun, Hr, Hsel, Hmiss. reflexivity.
  - intros Hcase. rewrite Hrun.
    assert (Hgo : restricted ff && (length sel =? 0) = false
                  /\ (length sel =? 0) && (length (missing d) =? 0) = false).
    { destruct Hcase as [Hsel | [Hr Hmiss]].
      - destruct sel; [contradiction|]. cbn. rewrite andb_false_r. auto.
      - rewrite Hr. destruct (missing d); [contradiction|].
        cbn. rewrite andb_false_r. auto. }
    destruct Hgo as [-> ->].
    rewrite <- (and_comm (Forall (in_turn passes) (turns P [] sel))).
    assert (Hall : all_found rm = true <-> rm = []).
    { destruct rm; cbn; split; intros; (reflexivity || discriminate). }
    rewrite <- Hall, and_comm, <- Htrue.
    destruct (outcome (check_manifests P [] sel (all_found rm)))
      as [[|]|msg|c];
      cbn; split; intros H; (reflexivity || discriminate || contradiction).
Qed.

(** One entry that passes both checks: the run ends with status 0.  Two
    entries whose schema overrides bear the same [$id]: each passes when it
    is checked alone, but at its turn the second does not, for the validator
    knows the [$id] from the first; the run ends with status 1. *)
Lemma run_exit_status_example :
  (findManifestFiles (platform_of world_good)
   = Value (mkDiscovery [FOO_MANIFEST] [])
   /\ Forall (in_turn passes) (turns (platform_of world_good) [] [FOO_MANIFEST])
   /\ exit_status (run (platform_of world_good)) = Some 0%Z)
  /\ (findManifestFiles (platform_of world_same_id)
      = Value (mkDiscovery [BAR_MANIFEST; FOO_MANIFEST] [])
      /\ passes (platform_of world_same_id) BAR_MANIFEST
      /\ passes (platform_of world_same_id) FOO_MANIFEST
      /\ ~ passes (at_call [BAR_MANIFEST] FOO_MANIFEST
                           (platform_of world_same_id)) FOO_MANIFEST
      /\ exit_status (run (platform_of world_same_id)) = Some 1%Z).
Proof.
  split.
  - assert (Hp : Forall (in_turn passes)
                        (turns (platform_of world_good) [] [FOO_MANIFEST])).
    { apply Forall_cons; [split; vm_compute; reflexivity | apply Forall_nil]. }
    split; [vm_compute; reflexivity | split; [exact Hp|]].
    apply (proj2 (proj2 (proj2 (@run_exit_status (platform_of world_good)
                                  (mkDiscovery [FOO_MANIFEST] []) eq_refl)))).
    + left. vm_compute. discriminate.
    + split; [reflexivity | exact Hp].
  - assert (Hno : ~ passes (at_call [BAR_MANIFEST] FOO_MANIFEST
                                    (platform_of world_same_id)) FOO_MANIFEST).
    { intros [H _]. vm_compute in H. discriminate. }
    split; [vm_compute; reflexivity|].
    split; [split; vm_compute; reflexivity|].
    split; [split; vm_compute; reflexivity|].
    split; [exact Hno|].
    destruct (@run_exit_status (platform_of world_same_id)
                (mkDiscovery [BAR_MANIFEST; FOO_MANIFEST] []) eq_refl)
      as ([H0 | H1] & _ & _ & Hiff); [|exact H1].
    exfalso. apply Hno.
    assert (Hsel : selected_manifests (platform_of world_same_id)
                     (parse_folders (argv (platform_of world_same_id)))
                     (manifests (mkDiscovery [BAR_MANIFEST; FOO_MANIFEST] []))
                   <> [] \/
                   restricted (parse_folders (argv (platform_of world_same_id)))
                   = false
                   /\ missing (mkDiscovery [BAR_MANIFEST; FOO_MANIFEST] []) <> [])
      by (left; vm_compute; discriminate).
    destruct (proj1 (Hiff Hsel) H0) as [_ HF].
    inversion HF as [|? ? _ HF']; subst.
    inversion HF' as [|? ? Hfoo _]; subst. exact Hfoo.
Defined.

(** A servers directory without folders: no check fails, and the run ends
    with status 1. *)
Lemma run_exit_status_empty :
  findManifestFiles (platform_of world_empty) = Value (mkDiscovery [] [])
  /\ relevant_missing (parse_folders (argv (platform_of world_empty))) [] = []
  /\ Forall (passes (platform_of world_empty))
            (selected_manifests (platform_of world_empty)
               (parse_folders (argv (platform_of world_empty))) [])
  /\ exit_status (run (platform_of world_empty)) = Some 1%Z
  /\ ~ (exit_status (run (platform_of world_empty)) = Some 0%Z
        <-> relevant_missing (parse_folders (argv (platform_of world_empty))) []
            = []
            /\ Forall (passes (platform_of world_empty))
                      (selected_manifests (platform_of world_empty)
                         (parse_folders (argv (platform_of world_empty))) [])).
Proof.
  assert (Hrun : exit_status (run (platform_of world_empty)) = Some 1%Z)
    by (vm_compute; reflexivity).
  repeat split; try (vm_compute; reflexivity).
  - vm_compute. constructor.
  - intros [_ H]. rewrite Hrun in H.
    assert (Habs : Some 1%Z = Some 0%Z).
    { apply H. split; vm_compute; [reflexivity | constructor]. }
    discriminate.
Qed.

(** A folder filter that names no directory of the servers directory: the
    run ends with status 0 and writes no finding. *)
Lemma run_filter_without_match_example :
  run (platform_of (world_with [u16 "--folders=bar, baz"] FOO_MANIFEST FOO_TEXT
                               (Value GOOD_MANIFEST)))
  = (Exit 0%Z,
     [ Log info (u16 "Checking only specified folders: bar, baz") [];
       Log info (u16 "No matching server folders found to validate.") [] ]).
Proof. vm_compute. reflexivity. Qed.

(** A directory without a manifest is reported when the filter also names
    a directory with one, and the run ends with status 1; when the filter
    names that directory alone, the run ends with status 0 before the
    report. *)
Lemma run_filter_missing_manifest_example :
  findManifestFiles (platform_of (world_two [u16 "--folders=foo,bar"]))
  = Value (mkDiscovery [FOO_MANIFEST] [u16 "bar"])
  /\ exit_status (run (platform_of (world_two [u16 "--folders=foo,bar"])))
     = Some 1%Z
  /\ In (Log error (u16 "Missing manifest.json for server: bar") [])
        (effects (run (platform_of (world_two [u16 "--folders=foo,bar"]))))
  /\ run (platform_of (world_two [u16 "--folders=bar"]))
     = (Exit 0%Z,
        [ Log info (u16 "Checking only specified folders: bar") [];
          Log info (u16 "No matching server folders found to validate.") [] ]).
Proof.
  repeat split; try (vm_compute; reflexivity).
  vm_compute. right. left. reflexivity.
Qed.

(** ** The prober and the result of the run *)

Section ProberAndRun.

Variable P : Platform.
Variable h : jsstring -> Try jsstring.

Lemma check_manifests_any_service : forall files earlier allValid,
  outcome (check_manifests (with_https_get h P) earlier files allValid)
  = outcome (check_manifests P earlier files allValid).
Proof.
  induction files as [|p files IH]; intros earlier allValid; [reflexivity|].
  cbn [check_manifests]. rewrite !outcome_bind.
  change (validateManifest (at_call earlier p (with_https_get h P)) p
            (local_schema_path (with_https_get h P) p))
    with (validateManifest (at_call earlier p P) p (local_schema_path P p)).
  destruct (outcome (validateManifest (at_call earlier p P) p
                                      (local_schema_path P p)));
    try reflexivity.
  rewrite !outcome_bind.
  change (validateAssets (with_https_get h P) p) with (validateAssets P p).
  destruct (outcome (validateAssets P p)); try reflexivity.
  rewrite !outcome_bind, !checkServerStatus_outcome. apply IH.
Qed.

(** The exit status of the run does not depend on what the status service
    answers. *)
Lemma run_any_service :
  exit_status (run (with_https_get h P)) = exit_status (run P).
Proof.
  destruct (findManifestFiles P) as [d|msg] eqn:Hd.
  - assert (Hd' : findManifestFiles (with_https_get h P) = Value d) by exact Hd.
    rewrite !exit_status_run.
    rewrite (main_outcome _ Hd'), (main_outcome _ Hd).
    cbv zeta.
    change (parse_folders (argv (with_https_get h P)))
      with (parse_folders (argv P)).
    change (selected_manifests (with_https_get h P))
      with (selected_manifests P).
    rewrite check_manifests_any_service. reflexivity.
  - assert (Hd' : findManifestFiles (with_https_get h P) = Raised msg)
      by exact Hd.
    rewrite (run_discovery_failure _ Hd'), (run_discovery_failure _ Hd).
    reflexivity.
Qed.

(** A request that fails, by an error of the network or by its timeout, is
    reported as a warning. *)
Lemma guarded_probe_request_failure : forall serverName address apiUrl msg,
  https_get P apiUrl = Raised msg ->
  guarded_probe P serverName address apiUrl
  = (Ret true,
     [ HttpGet apiUrl;
       Log warn (u16 "Could not check server status for " ++ serverName
                   ++ u16 " (" ++ ToString_val address ++ u16 ")")
           [ u16 "Error: " ++ msg;
             u16 "This might be a temporary network issue - validation will continue." ] ]).
Proof.
  intros serverName address apiUrl msg Hget.
  unfold guarded_probe, probe. cbn. rewrite Hget. reflexivity.
Qed.

(** A response that is not JSON is reported as a warning. *)
Lemma guarded_probe_malformed_response :
  forall serverName address apiUrl data msg,
    https_get P apiUrl = Value data ->
    JSON_parse P data = Raised msg ->
    guarded_probe P serverName address apiUrl
    = (Ret true,
       [ HttpGet apiUrl;
         Log warn (u16 "Could not check server status for " ++ serverName
                     ++ u16 " (" ++ ToString_val address ++ u16 ")")
             [ u16 "Error: " ++ msg;
               u16 "This might be a temporary network issue - validation will continue." ] ]).
Proof.
  intros serverName address apiUrl data msg Hget Hparse.
  unfold guarded_probe, probe. cbn. rewrite Hget. cbn. rewrite Hparse.
  reflexivity.
Qed.

End ProberAndRun.

(** C3. The prober returns [true] for every manifest and writes no message
    at level [error]; a request that fails or a response that cannot be
    parsed ends in a warning; and the exit status of the run is the same
    whatever the status service answers. *)
Theorem checkServerStatus_never_fails :
  forall P manifestPath,
    outcome (checkServerStatus P manifestPath) = Ret true
    /\ Forall (fun e => is_error e = false)
              (effects (checkServerStatus P manifestPath))
    /\ (forall serverName address apiUrl msg,
           https_get P apiUrl = Raised msg
           \/ (exists data, https_get P apiUrl = Value data
                            /\ JSON_parse P data = Raised msg) ->
           guarded_probe P serverName address apiUrl
           = (Ret true,
              [ HttpGet apiUrl;
                Log warn (u16 "Could not check server status for "
                            ++ serverName ++ u16 " (" ++ ToString_val address
                            ++ u16 ")")
                    [ u16 "Error: " ++ msg;
                      u16 "This might be a temporary network issue - validation will continue." ] ]))
    /\ (forall h, exit_status (run (with_https_get h P)) = exit_status (run P)).
Proof.
  intros P manifestPath. split; [|split; [|split]].
  - apply checkServerStatus_outcome.
  - apply checkServerStatus_harmless.
  - intros serverName address apiUrl msg [Hget | (data & Hget & Hparse)].
    + apply guarded_probe_request_failure; assumption.
    + eapply guarded_probe_malformed_response; eassumption.
  - intros h. apply run_any_service.
Qed.

(** A request that times out: the prober warns and returns [true], and the
    run still ends with status 0. *)
Lemma checkServerStatus_timeout_example :
  https_get (platform_of world_offline_service) STATUS_URL
  = Raised (u16 "Request timeout")
  /\ checkServerStatus (platform_of world_offline_service) FOO_MANIFEST
     = (Ret true,
        [ ReadFile FOO_MANIFEST;
          HttpGet STATUS_URL;
          Log warn
              (u16 "Could not check server status for foo (play.foo.net)")
              [ u16 "Error: Request timeout";
                u16 "This might be a temporary network issue - validation will continue." ] ])
  /\ exit_status (run (platform_of world_offline_service)) = Some 0%Z.
Proof. repeat split; vm_compute; reflexivity. Qed.

(** ** Comment Publisher *)


(** Every document the script builds bears the marker. *)
Lemma buildComment_marker : forall l, includes MARKER (buildComment l) = true.
Proof.
  intros l. unfold buildComment, render, HEADING.
  rewrite <- !app_assoc. apply includes_app.
Qed.

Lemma fresh_id_above : forall t c, In c t -> (c_id c < fresh_id t)%Z.
Proof.
  induction t as [|x t IH]; intros c Hin; [contradiction|].
  simpl. destruct Hin as [-> | Hin]; [lia|].
  specialize (IH c Hin). lia.
Qed.

Lemma fresh_id_new : forall t, ~ In (fresh_id t) (map c_id t).
Proof.
  intros t Hin. apply in_map_iff in Hin. destruct Hin as (c & Heq & Hc).
  pose proof (fresh_id_above t c Hc). lia.
Qed.

Lemma updateComment_ids : forall comment_id body t,
  map c_id (updateComment comment_id body t) = map c_id t.
Proof.
  intros comment_id body t; induction t as [|x t IH]; simpl; [reflexivity|].
  rewrite IH. destruct (Z.eqb (c_id x) comment_id); reflexivity.
Qed.

Lemma updateComment_other : forall comment_id body t,
  ~ In comment_id (map c_id t) -> updateComment comment_id body t = t.
Proof.
  intros comment_id body t; induction t as [|x t IH]; simpl; intros H;
    [reflexivity|].
  destruct (Z.eqb_spec (c_id x) comment_id) as [E|E]; [tauto|].
  rewrite IH by tauto. reflexivity.
Qed.

Lemma is_bot_comment_new : forall comment_id l,
  is_bot_comment (mkComment comment_id BOT (buildComment l)) = true.
Proof.
  intros comment_id l. unfold is_bot_comment. cbn [c_user_type c_body].
  rewrite buildComment_marker. reflexivity.
Qed.

(** The script looks at the first page only. *)
Lemma find_first_page_none : forall t,
  bot_comments t = [] -> find is_bot_comment (listComments t) = None.
Proof.
  intros t Hnone. unfold listComments.
  destruct (find is_bot_comment (firstn PER_PAGE t)) as [b|] eqn:Hfind;
    [|reflexivity].
  apply find_some in Hfind. destruct Hfind as [Hin Hb].
  assert (Hf : In b (bot_comments t)).
  { apply filter_In. split; [|exact Hb].
    rewrite <- (firstn_skipn PER_PAGE t). apply in_or_app. left. exact Hin. }
  rewrite Hnone in Hf. contradiction.
Qed.

Lemma bot_comments_pages : forall t,
  bot_comments t
  = bot_comments (listComments t) ++ bot_comments (skipn PER_PAGE t).
Proof.
  intros t. unfold bot_comments, listComments.
  rewrite <- filter_app, firstn_skipn. reflexivity.
Qed.

Lemma find_first_page : forall t,
  bot_comments (skipn PER_PAGE t) = [] ->
  find is_bot_comment (listComments t) = hd_error (bot_comments t).
Proof.
  intros t Hrest. rewrite bot_comments_pages, Hrest, app_nil_r.
  unfold bot_comments. apply find_filter.
Qed.

(** A run on a thread without a comment of the bot creates one. *)
Lemma publish_creates : forall l t,
  bot_comments t = [] ->
  publish BOT l t
  = (Created, t ++ [mkComment (fresh_id t) BOT (buildComment l)])
  /\ bot_comments (t ++ [mkComment (fresh_id t) BOT (buildComment l)])
     = [mkComment (fresh_id t) BOT (buildComment l)].
Proof.
  intros l t Hnone. split.
  - unfold publish. rewrite (find_first_page_none _ Hnone). reflexivity.
  - unfold bot_comments in *. rewrite filter_app, Hnone.
    cbn [filter app]. rewrite is_bot_comment_new. reflexivity.
Qed.

(** A run on a thread with one comment of the bot, on the first page,
    overwrites it in place. *)
Lemma publish_updates : forall l t c,
  NoDup (map c_id t) ->
  bot_comments t = [c] ->
  bot_comments (skipn PER_PAGE t) = [] ->
  fst (publish BOT l t) = Updated (c_id c)
  /\ bot_comments (snd (publish BOT l t))
     = [mkComment (c_id c) BOT (buildComment l)]
  /\ map c_id (snd (publish BOT l t)) = map c_id t.
Proof.
  intros l t c Hnd Hone Hpage.
  unfold publish. rewrite (find_first_page _ Hpage), Hone.
  cbn [hd_error fst snd].
  split; [reflexivity|]. split; [|apply updateComment_ids].
  unfold bot_comments in *.
  destruct (filter_singleton _ _ Hone) as (pre & post & -> & Hpre & Hpost & Hc).
  rewrite map_app in Hnd. cbn [map] in Hnd.
  apply NoDup_remove_2 in Hnd.
  assert (Hin_pre : ~ In (c_id c) (map c_id pre))
    by (intros H; apply Hnd, in_or_app; left; exact H).
  assert (Hin_post : ~ In (c_id c) (map c_id post))
    by (intros H; apply Hnd, in_or_app; right; exact H).
  unfold updateComment. rewrite map_app. cbn [map].
  fold (updateComment (c_id c) (buildComment l) pre).
  fold (updateComment (c_id c) (buildComment l) post).
  rewrite !updateComment_other by assumption.
  rewrite Z.eqb_refl.
  assert (Hbot : c_user_type c = BOT).
  { unfold is_bot_comment in Hc. apply andb_prop in Hc. destruct Hc as [Hu _].
    apply jsstring_eqb_eq in Hu. exact Hu. }
  rewrite Hbot. rewrite filter_app. cbn [filter].
  rewrite is_bot_comment_new, Hpre, Hpost. reflexivity.
Qed.

(** C9. On a thread whose comments have distinct ids, that holds at most
    one comment of the bot with the marker, and none behind the first page
    of thirty comments (the only page the script reads), a run leaves
    exactly one: it creates the comment when there is none and overwrites
    the body of the one there is, whose id stays.  So after a first run on
    a thread without such a comment and with fewer than thirty comments
    there is one comment of the bot, and a second run updates that comment
    and adds none. *)
Theorem publish_single_comment :
  forall l t,
    NoDup (map c_id t) ->
    length (bot_comments t) <= 1 ->
    bot_comments (skipn PER_PAGE t) = [] ->
    length (bot_comments (snd (publish BOT l t))) = 1
    /\ NoDup (map c_id (snd (publish BOT l t)))
    /\ (bot_comments t = [] ->
        publish BOT l t
        = (Created, t ++ [mkComment (fresh_id t) BOT (buildComment l)]))
    /\ (forall c,
           bot_comments t = [c] ->
           fst (publish BOT l t) = Updated (c_id c)
           /\ bot_comments (snd (publish BOT l t))
              = [mkComment (c_id c) BOT (buildComment l)]
           /\ map c_id (snd (publish BOT l t)) = map c_id t)
    /\ (bot_comments t = [] ->
        length t < PER_PAGE ->
        forall l',
          bot_comments (snd (publish BOT l t))
          = [mkComment (fresh_id t) BOT (buildComment l)]
          /\ fst (publish BOT l' (snd (publish BOT l t)))
             = Updated (fresh_id t)
          /\ bot_comments (snd (publish BOT l' (snd (publish BOT l t))))
             = [mkComment (fresh_id t) BOT (buildComment l')]
          /\ map c_id (snd (publish BOT l' (snd (publish BOT l t))))
             = map c_id (snd (publish BOT l t))).
Proof.
  intros l t Hnd Hle Hpage.
  assert (Hcreate : bot_comments t = [] ->
                    NoDup (map c_id (snd (publish BOT l t)))).
  { intros Hnone. destruct (publish_creates l t Hnone) as [-> _].
    cbn [snd]. rewrite map_app. cbn [map c_id].
    apply NoDup_app; [exact Hnd | repeat constructor; intros [] |].
    intros x Hx [<- | []]. exact (fresh_id_new t Hx). }
  destruct (bot_comments t) as [|c [|c' rest]] eqn:Hbots;
    [| | simpl in Hle; lia].
  - destruct (publish_creates l t Hbots) as [Hpub Hnew].
    split; [rewrite Hpub; cbn [snd]; rewrite Hnew; reflexivity|].
    split; [apply Hcreate; reflexivity|].
    split; [intros _; exact Hpub|].
    split; [intros c H; discriminate|].
    intros _ Hlen l'. rewrite Hpub. cbn [snd].
    split; [exact Hnew|].
    assert (Hnd' : NoDup (map c_id (t ++ [mkComment (fresh_id t) BOT
                                             (buildComment l)]))).
    { specialize (Hcreate eq_refl). rewrite Hpub in Hcreate. exact Hcreate. }
    assert (Hpage' : bot_comments
                       (skipn PER_PAGE
                          (t ++ [mkComment (fresh_id t) BOT (buildComment l)]))
                     = []).
    { rewrite skipn_all2; [reflexivity|]. rewrite length_app. cbn [length].
      lia. }
    exact (@publish_updates l' _ _ Hnd' Hnew Hpage').
  - destruct (@publish_updates l _ _ Hnd Hbots Hpage) as (Hact & Hone & Hids).
    split; [rewrite Hone; reflexivity|].
    split; [rewrite Hids; exact Hnd|].
    split; [intros H; discriminate|].
    split; [|intros H; discriminate].
    intros c0 H; injection H as <-. auto.
Qed.

(** A first run on a thread with comments of users only, and a second
    one. *)
Lemma publish_single_comment_example :
  NoDup (map c_id THREAD_USERS)
  /\ length (bot_comments THREAD_USERS) <= 1
  /\ bot_comments (skipn PER_PAGE THREAD_USERS) = []
  /\ length THREAD_USERS < PER_PAGE
  /\ length (bot_comments (snd (publish BOT LOGS_ONE_ERROR THREAD_USERS))) = 1
  /\ fst (publish BOT LOGS_ONE_ERROR
                  (snd (publish BOT LOGS_ONE_ERROR THREAD_USERS)))
     = Updated 10.
Proof.
  assert (Hnd : NoDup (map c_id THREAD_USERS)).
  { simpl. repeat constructor; simpl; intuition discriminate. }
  assert (Hle : length (bot_comments THREAD_USERS) <= 1)
    by (vm_compute; lia).
  assert (Hlen : length THREAD_USERS < PER_PAGE) by (vm_compute; lia).
  split; [exact Hnd | split; [exact Hle|]].
  split; [reflexivity | split; [exact Hlen|]].
  pose proof (@publish_single_comment LOGS_ONE_ERROR _ Hnd Hle eq_refl)
    as (Hone & _ & _ & _ & Htwice).
  split; [exact Hone|].
  exact (proj1 (proj2 (Htwice eq_refl Hlen LOGS_ONE_ERROR))).
Defined.

(** On a thread that already holds two comments of the bot with the
    marker, a run leaves two. *)
Lemma publish_keeps_duplicates :
  NoDup (map c_id THREAD_TWO)
  /\ length (bot_comments THREAD_TWO) = 2
  /\ length (bot_comments (snd (publish BOT LOGS_ONE_ERROR THREAD_TWO))) = 2
  /\ length (bot_comments (snd (publish BOT LOGS_ONE_ERROR THREAD_TWO))) <> 1.
Proof.
  split; [simpl; repeat constructor; simpl; intuition discriminate|].
  repeat split; try (vm_compute; reflexivity).
  vm_compute. discriminate.
Qed.

(** On a thread of thirty comments without a comment of the bot, the
    comment of the first run is the thirty-first: the second run does not
    see it and creates another, and two comments of the bot bear the
    marker.  And a run on a thread whose one comment of the bot is its
    thirty-first creates a second. *)
Lemma publish_behind_first_page :
  length THREAD_FULL_PAGE = 30
  /\ bot_comments THREAD_FULL_PAGE = []
  /\ publish BOT LOGS_CLEAN THREAD_FULL_PAGE = (Created, THREAD_OLD_REPORT)
  /\ fst (publish BOT LOGS_CLEAN THREAD_OLD_REPORT) = Created
  /\ bot_comments (snd (publish BOT LOGS_CLEAN THREAD_OLD_REPORT))
     = [ mkComment 31 BOT (buildComment LOGS_CLEAN);
         mkComment 32 BOT (buildComment LOGS_CLEAN) ].
Proof. repeat split; vm_compute; reflexivity. Qed.

(** * Further properties *)

(** ** Error Locator: offsets past the end, snippets and the caret *)

Lemma sum_split_lines_aux : forall n s cur,
  length s <= n ->
  list_sum (map (fun x => S (length x)) (split_lines_aux cur s))
  <= S (length cur + length s).
Proof.
  induction n as [|n IH]; intros s cur Hn.
  - destruct s; [|cbn [length] in Hn; lia].
    cbn [split_lines_aux map]. rewrite list_sum_cons, length_rev. cbn. lia.
  - destruct s as [|x s].
    { cbn [split_lines_aux map]. rewrite list_sum_cons, length_rev. cbn. lia. }
    cbn [length] in Hn. cbn [split_lines_aux].
    assert (Hpush : list_sum (map (fun x => S (length x))
                                  (split_lines_aux (x :: cur) s))
                    <= S (length cur + length (x :: s))).
    { specialize (IH s (x :: cur)). cbn [length] in *. lia. }
    destruct (N.eqb x LF).
    + cbn [map]. rewrite list_sum_cons, length_rev.
      specialize (IH s []). cbn [length] in *. lia.
    + destruct (N.eqb x CR); [|exact Hpush].
      destruct s as [|y s']; [exact Hpush|].
      destruct (N.eqb y LF); [|exact Hpush].
      cbn [map]. rewrite list_sum_cons, length_rev.
      specialize (IH s' []). cbn [length] in *. lia.
Qed.

Lemma sum_split_lines : forall text,
  list_sum (map (fun x => S (length x)) (split_lines text)) <= S (length text).
Proof.
  intros text. unfold split_lines.
  pose proof (@sum_split_lines_aux (length text) text [] (le_n _)) as H.
  cbn [length] in H. lia.
Qed.

Lemma locate_loop_none : forall lines index i count,
  (count + Z.of_nat (list_sum (map (fun x => S (length x)) lines)) <= index)%Z ->
  locate_loop lines index i count = None.
Proof.
  induction lines as [|p rest IH]; intros index i count H; [reflexivity|].
  cbn [map] in H. rewrite list_sum_cons in H. cbn [locate_loop].
  destruct (Z.ltb_spec index (count + (Z.of_nat (length p) + 1))) as [Hin|Hout];
    [lia|].
  apply IH. lia.
Qed.

(** X1. An offset beyond the end of the text is not an error for the locator:
    it answers with the last line and with the column of the last character
    of that line (column 1 when the line is empty), not with a position after
    the text. *)
Theorem getLineAndColumnFromIndex_past_end : forall text index,
  (Z.of_nat (length text) < index)%Z ->
  getLineAndColumnFromIndex text index
  = mkLineCol (Z.of_nat (length (split_lines text)))
              (Z.max 1 (Z.of_nat (length (last (split_lines text) []))))
              (last (split_lines text) [])
  /\ (1 <= lc_column (getLineAndColumnFromIndex text index)
      <= Z.max 1 (Z.of_nat (length (lc_lineText
                                      (getLineAndColumnFromIndex text index)))))%Z
  /\ (1 <= lc_line (getLineAndColumnFromIndex text index))%Z.
Proof.
  intros text index H.
  assert (E : getLineAndColumnFromIndex text index
              = mkLineCol (Z.of_nat (length (split_lines text)))
                  (Z.max 1 (Z.of_nat (length (last (split_lines text) []))))
                  (last (split_lines text) [])).
  { unfold getLineAndColumnFromIndex.
    rewrite locate_loop_none; [reflexivity|].
    pose proof (sum_split_lines text). lia. }
  rewrite E. cbn [lc_column lc_line lc_lineText].
  split; [reflexivity|]. split; [lia|].
  pose proof (@split_lines_aux_nonempty text []) as Hne.
  fold (split_lines text) in Hne.
  destruct (split_lines text); [contradiction|]. cbn [length]. lia.
Qed.

Lemma getLineAndColumnFromIndex_past_end_example :
  (Z.of_nat (length (u16 "ab" ++ [LF] ++ u16 "cde")) < 100)%Z
  /\ getLineAndColumnFromIndex (u16 "ab" ++ [LF] ++ u16 "cde") 100
     = mkLineCol 2 3 (u16 "cde").
Proof.
  split; [vm_compute; reflexivity|].
  refine (proj1 (@getLineAndColumnFromIndex_past_end
                   (u16 "ab" ++ [LF] ++ u16 "cde") 100%Z _)).
  vm_compute. reflexivity.
Defined.

(** X2. On a text whose line breaks are single line feeds (no carriage return
    directly before a line feed) the locator is exact: for every offset [o]
    within the text it returns the line [l+1] and the column [c+1] such that
    [o] is the offset of column [c] of line [l], and the character at that
    column of the returned line is the character at offset [o]. *)
Theorem getLineAndColumnFromIndex_lf : forall text o,
  has_crlf text = false ->
  o <= length text ->
  exists l c,
    getLineAndColumnFromIndex text (Z.of_nat o)
    = mkLineCol (Z.of_nat l + 1) (Z.of_nat c + 1)
                (nth l (split_lines text) [])
    /\ nth_error (split_lines text) l = Some (nth l (split_lines text) [])
    /\ c <= length (nth l (split_lines text) [])
    /\ o = offset_of (split_lines text) l c
    /\ (c < length (nth l (split_lines text) []) ->
        nth_error text o = nth_error (nth l (split_lines text) []) c).
Proof. exact locate_lf. Qed.

Lemma getLineAndColumnFromIndex_lf_example :
  has_crlf (u16 "ab" ++ [LF] ++ u16 "cde") = false
  /\ 4 <= length (u16 "ab" ++ [LF] ++ u16 "cde")
  /\ exists l c,
       getLineAndColumnFromIndex (u16 "ab" ++ [LF] ++ u16 "cde") (Z.of_nat 4)
       = mkLineCol (Z.of_nat l + 1) (Z.of_nat c + 1)
                   (nth l (split_lines (u16 "ab" ++ [LF] ++ u16 "cde")) [])
       /\ nth_error (split_lines (u16 "ab" ++ [LF] ++ u16 "cde")) l
          = Some (nth l (split_lines (u16 "ab" ++ [LF] ++ u16 "cde")) [])
       /\ c <= length (nth l (split_lines (u16 "ab" ++ [LF] ++ u16 "cde")) [])
       /\ 4 = offset_of (split_lines (u16 "ab" ++ [LF] ++ u16 "cde")) l c
       /\ (c < length (nth l (split_lines (u16 "ab" ++ [LF] ++ u16 "cde")) []) ->
           nth_error (u16 "ab" ++ [LF] ++ u16 "cde") 4
           = nth_error (nth l (split_lines (u16 "ab" ++ [LF] ++ u16 "cde")) []) c).
Proof.
  split; [reflexivity|]. split; [vm_compute; lia|].
  apply (@getLineAndColumnFromIndex_lf (u16 "ab" ++ [LF] ++ u16 "cde") 4).
  - reflexivity.
  - vm_compute. lia.
Defined.

(** X3. The caret of a syntax-error report points at the offending
    character: on a text whose line breaks are single line feeds, the report
    for offset [o] shows the line that holds [o], preceded by at most two
    lines of context, and directly below it a line of blanks that ends in
    a caret; the caret stands in the column of the shown line that holds the
    character at offset [o]. *)
Theorem located_report_caret : forall rel msg text o,
  has_crlf text = false ->
  o <= length text ->
  exists l c pre post,
    let line := nth l (split_lines text) [] in
    let shown :=
      (padStart 3 (String_of_N (N.of_nat (l + 1))) ++ u16 " | ") ++ line in
    let column := length shown - length line + c in
    o = offset_of (split_lines text) l c
    /\ nth_error (split_lines text) l = Some line
    /\ c <= length line
    /\ lines_of (located_report rel msg text (Z.of_nat o))
       = pre ++ [shown; repeat 32%N column ++ u16 "^"] ++ post
    /\ length pre <= 2
    /\ (c < length line -> nth_error shown column = nth_error text o).
Proof.
  intros rel msg text o Hcr Ho.
  destruct (locate_lf text Hcr Ho) as (l & c & Hlc & Hnth & Hc & Hoff & Hchar).
  destruct (located_report_lines rel msg text (Z.of_nat o))
    as (l' & pre & post & Hl' & Hline & Hlines & Hpre).
  rewrite Hlc in Hline, Hlines. cbn [lc_line lc_column] in Hline, Hlines.
  assert (l' = l) by lia. subst l'.
  exists l, c, pre, post. cbv zeta.
  split; [exact Hoff|]. split; [exact Hnth|]. split; [exact Hc|].
  set (prefix := padStart 3 (String_of_N (N.of_nat (l + 1))) ++ u16 " | ") in *.
  assert (Hcol : length (prefix ++ nth l (split_lines text) [])
                 - length (nth l (split_lines text) []) + c
                 = length prefix + c).
  { rewrite length_app. lia. }
  rewrite Hcol. split; [|split; [exact Hpre|]].
  - rewrite Hlines. unfold spaces.
    replace (Z.to_nat (Z.of_nat (length prefix) + Z.max 0 (Z.of_nat c + 1 - 1)))
      with (length prefix + c) by lia.
    reflexivity.
  - intros Hlt. rewrite nth_error_app2 by lia.
    replace (length prefix + c - length prefix) with c by lia.
    symmetry. apply Hchar. exact Hlt.
Qed.

Lemma located_report_caret_example :
  has_crlf COMMA_TEXT = false
  /\ 5 <= length COMMA_TEXT
  /\ exists l c pre post,
       let line := nth l (split_lines COMMA_TEXT) [] in
       let shown :=
         (padStart 3 (String_of_N (N.of_nat (l + 1))) ++ u16 " | ") ++ line in
       let column := length shown - length line + c in
       5 = offset_of (split_lines COMMA_TEXT) l c
       /\ nth_error (split_lines COMMA_TEXT) l = Some line
       /\ c <= length line
       /\ lines_of (located_report (u16 "servers/foo/manifest.json")
                                   COMMA_ERROR COMMA_TEXT (Z.of_nat 5))
          = pre ++ [shown; repeat 32%N column ++ u16 "^"] ++ post
       /\ length pre <= 2
       /\ (c < length line -> nth_error shown column = nth_error COMMA_TEXT 5).
Proof.
  split; [reflexivity|]. split; [vm_compute; lia|].
  apply (@located_report_caret (u16 "servers/foo/manifest.json") COMMA_ERROR
                               COMMA_TEXT 5).
  - reflexivity.
  - vm_compute. lia.
Defined.
Lemma loops_agree : forall lines index charCount i lineNum r,
  locate_loop lines (Z.of_nat index) i (Z.of_nat charCount) = Some r ->
  (Z.of_nat (snippet_loop lines index charCount lineNum) - Z.of_nat lineNum
   = lc_line r - i - 1)%Z
  /\ snippet_loop lines index charCount lineNum < lineNum + length lines.
Proof.
  induction lines as [|p rest IH]; intros index charCount i lineNum r H;
    [discriminate|].
  cbn [locate_loop snippet_loop] in *.
  replace (Z.of_nat index <? Z.of_nat charCount + (Z.of_nat (length p) + 1))%Z
    with (index <? charCount + length p + 1) in H.
  2:{ destruct (Nat.ltb_spec index (charCount + length p + 1));
      symmetry; [apply Z.ltb_lt | apply Z.ltb_ge]; lia. }
  destruct (index <? charCount + length p + 1).
  - injection H as <-. cbn [lc_line length]. lia.
  - replace (Z.of_nat charCount + (Z.of_nat (length p) + 1))%Z
      with (Z.of_nat (charCount + length p + 1)) in H by lia.
    apply (IH _ _ _ (S lineNum)) in H. cbn [length]. lia.
Qed.

Lemma mapi_from_slice : forall A B (f : A -> nat -> B) d n from start (l : list A),
  from + n <= length l ->
  mapi_from f start (firstn n (skipn from l))
  = map (fun j => f (nth (from + j) l d) (start + j)) (seq 0 n).
Proof.
  induction n as [|n IH]; intros from start l H; [reflexivity|].
  assert (Hs : skipn from l = nth from l d :: skipn (S from) l).
  { clear IH. revert from H. induction l as [|x l IHl]; intros from H.
    - cbn [length] in H. lia.
    - destruct from as [|from]; [reflexivity|].
      cbn [skipn nth]. apply IHl. cbn [length] in H. lia. }
  rewrite Hs. cbn [firstn mapi_from seq map].
  rewrite !Nat.add_0_r. f_equal.
  rewrite IH by lia. rewrite <- seq_shift, map_map.
  apply map_ext. intros j. f_equal; [f_equal|]; lia.
Qed.

(** X4. The snippet around an offset, on a text whose line breaks are single
    line feeds: the line number it reports is the line the locator finds for
    the offset (clamped to the length of the text); the snippet shows that
    line and up to [contextLines] lines before and after it, at most
    [2 * contextLines + 1] lines in all, each with its line number, and
    splitting the snippet at line feeds gives these lines back. *)
Theorem getSnippetAroundIndex_window : forall text index contextLines,
  has_crlf text = false ->
  exists l,
    let lines := split_lines text in
    let sn := getSnippetAroundIndex text index contextLines in
    let first := l - contextLines in
    let count := Nat.min (length lines - 1) (l + contextLines) + 1 - first in
    l < length lines
    /\ sn_line sn = l + 1
    /\ Z.of_nat (sn_line sn)
       = lc_line (getLineAndColumnFromIndex
                    text (Z.of_nat (Nat.min index (length text))))
    /\ split_chr LF (sn_snippet sn)
       = map (fun j =>
                padStart 4 (String_of_N (N.of_nat (first + j + 1)))
                  ++ u16 " | " ++ nth (first + j) lines [])
             (seq 0 count)
    /\ first <= l < first + count
    /\ count <= 2 * contextLines + 1.
Proof.
  intros text index contextLines Hcr. cbv zeta.
  assert (Ho : Nat.min index (length text) <= length text) by lia.
  destruct (locate_lf text Hcr Ho) as (l & c & Hlc & Hnth & _).
  assert (Hl : l < length (split_lines text)).
  { apply nth_error_Some. rewrite Hnth. discriminate. }
  unfold getLineAndColumnFromIndex in Hlc.
  destruct (locate_loop (split_lines text)
              (Z.of_nat (Nat.min index (length text))) 0 0) as [r|] eqn:E.
  2:{ exfalso. revert E. generalize (Nat.min index (length text)) Ho.
      intros o Ho' E.
      pose proof (join_split_lines text Hcr) as Hjoin.
      assert (Hne : split_lines text <> []) by apply split_lines_aux_nonempty.
      pose proof (length_join_lf Hne) as Hlen. rewrite Hjoin in Hlen.
      destruct (@locate_loop_spec (split_lines text) (Z.of_nat o) 0 0)
        as (l0 & c0 & line0 & Hloop & _); [lia | lia |].
      congruence. }
  subst r.
  pose proof (@loops_agree (split_lines text) (Nat.min index (length text))
                0 0%Z 0 _ E) as [Hagree _].
  cbn [lc_line] in Hagree.
  assert (Hloop : snippet_loop (split_lines text)
                    (Nat.max 0 (Nat.min index (length text))) 0 0 = l).
  { cbn [Nat.max]. lia. }
  exists l. unfold getSnippetAroundIndex. cbv zeta. cbn [sn_line sn_snippet].
  rewrite Hloop.
  split; [exact Hl|]. split; [reflexivity|]. split.
  { unfold getLineAndColumnFromIndex. rewrite E. cbn [lc_line]. lia. }
  split; [|lia].
  set (first := l - contextLines).
  set (last_ := Nat.min (length (split_lines text) - 1) (l + contextLines)).
  unfold slice, jsstring in *.
  rewrite mapi_from_slice with (d := @nil jschar)
    by (unfold first, last_; lia).
  rewrite split_chr_join.
  - apply map_ext. intros j. reflexivity.
  - replace (last_ + 1 - first) with (S (last_ - first))
      by (unfold first, last_; lia).
    discriminate.
  - apply Forall_forall. intros piece Hin.
    apply in_map_iff in Hin. destruct Hin as (j & <- & Hj).
    apply in_seq in Hj.
    pose proof (split_lines_no_LF text) as Hno.
    rewrite Forall_forall in Hno.
    match goal with
    | |- context [padStart 4 (String_of_N ?n)] =>
        pose proof (uint_chars_digits (N.to_uint n)) as Hd;
        fold (String_of_N n) in Hd
    end.
    rewrite app_assoc. intros H. apply in_app_or in H.
    destruct H as [H|H]; [exact (padStart_no_LF Hd H)|].
    apply (Hno (nth (first + j) (split_lines text) [])); [|exact H].
    apply nth_In. unfold first, last_, jsstring in *. lia.
Qed.

Lemma getSnippetAroundIndex_window_example :
  has_crlf INVALID_TEXT = false
  /\ exists l,
       let lines := split_lines INVALID_TEXT in
       let sn := getSnippetAroundIndex INVALID_TEXT 4 2 in
       let first := l - 2 in
       let count := Nat.min (length lines - 1) (l + 2) + 1 - first in
       l < length lines
       /\ sn_line sn = l + 1
       /\ Z.of_nat (sn_line sn)
          = lc_line (getLineAndColumnFromIndex
                       INVALID_TEXT (Z.of_nat (Nat.min 4 (length INVALID_TEXT))))
       /\ split_chr LF (sn_snippet sn)
          = map (fun j =>
                   padStart 4 (String_of_N (N.of_nat (first + j + 1)))
                     ++ u16 " | " ++ nth (first + j) lines [])
                (seq 0 count)
       /\ first <= l < first + count
       /\ count <= 2 * 2 + 1.
Proof.
  split; [reflexivity|].
  apply (@getSnippetAroundIndex_window INVALID_TEXT 4 2). reflexivity.
Defined.

(** ** Error Locator: from a line and a column to the offset and back *)

Lemma locate_loop_offset_of : forall lines l c line i count,
  nth_error lines l = Some line ->
  c <= length line ->
  locate_loop lines (count + Z.of_nat (offset_of lines l c)) i count
  = Some (mkLineCol (i + Z.of_nat l + 1) (Z.of_nat c + 1) line).
Proof.
  induction lines as [|p rest IH]; intros l c line i count Hnth Hc.
  - destruct l; discriminate.
  - cbn [locate_loop]. destruct l as [|l].
    + cbn [nth_error] in Hnth. injection Hnth as ->.
      unfold offset_of. cbn [firstn map list_sum fold_right Nat.add].
      replace (count + Z.of_nat c <? count + (Z.of_nat (length line) + 1))%Z
        with true by (symmetry; apply Z.ltb_lt; lia).
      f_equal. f_equal; lia.
    + cbn [nth_error] in Hnth.
      assert (Hoff : offset_of (p :: rest) (S l) c
                     = S (length p) + offset_of rest l c).
      { unfold offset_of. cbn [firstn map]. rewrite list_sum_cons. lia. }
      rewrite Hoff.
      replace (count + Z.of_nat (S (length p) + offset_of rest l c)
               <? count + (Z.of_nat (length p) + 1))%Z
        with false by (symmetry; apply Z.ltb_ge; lia).
      replace (count + Z.of_nat (S (length p) + offset_of rest l c))%Z
        with ((count + (Z.of_nat (length p) + 1))
              + Z.of_nat (offset_of rest l c))%Z by lia.
      rewrite (IH l c line (i + 1)%Z _ Hnth Hc). f_equal. f_equal. lia.
Qed.

(** X5. The locator inverts the offset of a position, on every text: for
    column [c] (counted from 0, the position behind the last character
    included) of line [l] (counted from 0), at the offset that counts one
    separator character for each earlier line, the locator returns line
    [l+1], column [c+1] and the text of the line. *)
Theorem getLineAndColumnFromIndex_offset_of : forall text l c line,
  nth_error (split_lines text) l = Some line ->
  c <= length line ->
  getLineAndColumnFromIndex text (Z.of_nat (offset_of (split_lines text) l c))
  = mkLineCol (Z.of_nat l + 1) (Z.of_nat c + 1) line.
Proof.
  intros text l c line Hnth Hc. unfold getLineAndColumnFromIndex.
  pose proof (@locate_loop_offset_of (split_lines text) l c line 0%Z 0%Z
                Hnth Hc) as H.
  rewrite Z.add_0_l in H. rewrite H. f_equal.
Qed.

Lemma getLineAndColumnFromIndex_offset_of_example :
  nth_error (split_lines (u16 "1" ++ [CR; LF] ++ u16 "b")) 1 = Some (u16 "b")
  /\ offset_of (split_lines (u16 "1" ++ [CR; LF] ++ u16 "b")) 1 0 = 2
  /\ getLineAndColumnFromIndex (u16 "1" ++ [CR; LF] ++ u16 "b") 2
     = mkLineCol 2 1 (u16 "b").
Proof.
  split; [reflexivity|]. split; [reflexivity|].
  apply (@getLineAndColumnFromIndex_offset_of
           (u16 "1" ++ [CR; LF] ++ u16 "b") 1 0 (u16 "b")).
  - reflexivity.
  - cbn. lia.
Defined.

(** ** Logger: annotations *)

Lemma escapeData_cons : forall c s,
  escapeData (c :: s)
  = (if N.eqb c 37 then u16 "%25"
     else if N.eqb c CR then u16 "%0D"
     else if N.eqb c LF then u16 "%0A"
     else [c]) ++ escapeData s.
Proof. reflexivity. Qed.

Lemma escapeData_no_line_break : forall s,
  ~ In CR (escapeData s) /\ ~ In LF (escapeData s).
Proof.
  induction s as [|c s [IHc IHl]]; [split; intros []|].
  rewrite escapeData_cons.
  destruct (N.eqb_spec c 37) as [->|H37].
  - split; intros H; apply in_app_or in H; destruct H as [H|H]; auto;
      vm_compute in H; intuition discriminate.
  - destruct (N.eqb_spec c CR) as [->|Hcr].
    + split; intros H; apply in_app_or in H; destruct H as [H|H]; auto;
        vm_compute in H; intuition discriminate.
    + destruct (N.eqb_spec c LF) as [->|Hlf].
      * split; intros H; apply in_app_or in H; destruct H as [H|H]; auto;
          vm_compute in H; intuition discriminate.
      * split; intros [H|H]; auto.
Qed.

(** X6. An annotation for GitHub Actions is one line: a message at level
    [error] or [warn] gives exactly one annotation when the program runs in
    GitHub Actions, and none otherwise (a message at level [info] never gives
    one); the annotation holds neither a carriage return nor a line feed,
    whatever the header and the lines of the message hold. *)
Theorem stdout_lines_annotation : forall isGitHubActions e,
  length (stdout_lines isGitHubActions e)
  = (if isGitHubActions && is_finding e then 1 else 0)
  /\ Forall (fun l => ~ In CR l /\ ~ In LF l) (stdout_lines isGitHubActions e).
Proof.
  intros gha e. destruct e as [level header lines | path | url].
  2,3: destruct gha; (split; [reflexivity | apply Forall_nil]).
  destruct level, gha; cbn [stdout_lines is_finding andb length];
    (split; [reflexivity|]); try apply Forall_nil;
    (apply Forall_cons; [|apply Forall_nil]).
  - destruct (escapeData_no_line_break (join (u16 " ") (header :: lines)))
      as [Hc Hl].
    split; intros H; apply in_app_or in H; destruct H as [H|H]; auto;
      vm_compute in H; intuition discriminate.
  - destruct (escapeData_no_line_break (join (u16 " ") (header :: lines)))
      as [Hc Hl].
    split; intros H; apply in_app_or in H; destruct H as [H|H]; auto;
      vm_compute in H; intuition discriminate.
Qed.

(** X7. Escaping loses nothing: two different messages have different
    escaped texts (a percent sign of the message is escaped as well, so the
    text [%0A] of a message is not taken for an escaped line feed). *)
Theorem escapeData_injective : forall a b,
  a <> b -> escapeData a <> escapeData b.
Proof.
  intros a b Hne Heq. apply Hne. clear Hne. revert b Heq.
  induction a as [|x a IH]; intros [|y b] Heq.
  - reflexivity.
  - rewrite escapeData_cons in Heq. cbn [escapeData flat_map] in Heq.
    destruct (N.eqb y 37); [discriminate|].
    destruct (N.eqb y CR); [discriminate|].
    destruct (N.eqb y LF); discriminate.
  - rewrite escapeData_cons in Heq. cbn [escapeData flat_map] in Heq.
    destruct (N.eqb x 37); [discriminate|].
    destruct (N.eqb x CR); [discriminate|].
    destruct (N.eqb x LF); discriminate.
  - rewrite !escapeData_cons in Heq.
    destruct (N.eqb_spec x 37) as [->|Hx1];
      [|destruct (N.eqb_spec x CR) as [->|Hx2];
        [|destruct (N.eqb_spec x LF) as [->|Hx3]]];
      (destruct (N.eqb_spec y 37) as [->|Hy1];
        [|destruct (N.eqb_spec y CR) as [->|Hy2];
          [|destruct (N.eqb_spec y LF) as [->|Hy3]]]);
      cbn in Heq; try discriminate;
      try (injection Heq as Heq; f_equal; apply IH; exact Heq);
      try (injection Heq as Hxy Heq; congruence).
    injection Heq as -> Heq. f_equal. apply IH. exact Heq.
Qed.

Lemma escapeData_injective_example :
  u16 "%0A" <> [LF]
  /\ escapeData (u16 "%0A") <> escapeData [LF].
Proof.
  split; [discriminate|].
  apply (@escapeData_injective (u16 "%0A") [LF]). discriminate.
Defined.

(** ** Server names *)

Lemma cls_matches_separator : forall x,
  cls_matches flag_i (one_of (u16 "-_")) x = one_of (u16 "-_") x.
Proof.
  intros x. unfold cls_matches. cbn [ignoreCase flag_i].
  assert (Hone : forall y, one_of (u16 "-_") y = (N.eqb y 45 || N.eqb y 95))
    by (intros y; unfold one_of; change (u16 "-_") with [45%N; 95%N];
        cbn [existsb]; rewrite orb_false_r; reflexivity).
  rewrite !Hone. unfold to_upper, to_lower.
  destruct (N.leb_spec 97 x), (N.leb_spec x 122), (N.leb_spec 65 x),
    (N.leb_spec x 90); cbn [andb];
    repeat match goal with
           | |- context [N.eqb ?a ?b] => destruct (N.eqb_spec a b)
           end; cbn [orb]; try reflexivity; lia.
Qed.

Lemma startsWith_ci_length : forall p s,
  startsWith_ci p s = true -> length p <= length s.
Proof.
  induction p as [|c p IH]; intros s H; [cbn; lia|].
  destruct s as [|x s]; [discriminate|].
  cbn [startsWith_ci] in H. apply andb_true_iff in H. destruct H as [_ H].
  apply IH in H. cbn [length]. lia.
Qed.

(** A literal up to the end of the text. *)
Lemma rmatch_lit_end : forall lit prev s cap,
  rmatch flag_i (RSeq (RLit lit) REol) prev s cap
         (fun _ s' cap' => Some (s', cap'))
  = if equals_ci lit s then Some ([], cap) else None.
Proof.
  intros lit prev s cap. cbn [rmatch]. rewrite rmatch_lit_ci by reflexivity.
  unfold equals_ci. destruct (startsWith_ci lit s) eqn:E; [|reflexivity].
  cbn [andb]. apply startsWith_ci_length in E.
  destruct (Nat.eqb_spec (length s) (length lit)) as [El|El].
  - rewrite skipn_all2 by lia. reflexivity.
  - destruct (skipn (length lit) s) as [|y r] eqn:Es; [|reflexivity].
    exfalso. assert (Hl : length (skipn (length lit) s) = 0)
      by (rewrite Es; reflexivity).
    rewrite length_skipn in Hl. lia.
Qed.

Lemma match_here_suffix : forall lit prev s,
  match_here flag_i
    (RSeq (ROpt (RCls (one_of (u16 "-_")))) (RSeq (RLit lit) REol)) prev s
  = if is_suffix_ci lit s then Some ([], None) else None.
Proof.
  intros lit prev s. unfold match_here, ROpt.
  change (rmatch flag_i
            (RSeq (RAlt (RCls (one_of (u16 "-_"))) REps)
                  (RSeq (RLit lit) REol)) prev s None
            (fun _ s' cap => Some (s', cap)))
    with (match rmatch flag_i (RCls (one_of (u16 "-_"))) prev s None
                  (fun prev' s' cap' =>
                     rmatch flag_i (RSeq (RLit lit) REol) prev' s' cap'
                            (fun _ s'' cap'' => Some (s'', cap''))) with
          | Some res => Some res
          | None =>
              rmatch flag_i (RSeq (RLit lit) REol) prev s None
                     (fun _ s'' cap'' => Some (s'', cap''))
          end).
  rewrite rmatch_lit_end. unfold is_suffix_ci.
  destruct s as [|x s]; [cbn [rmatch orb]; reflexivity|].
  change (rmatch flag_i (RCls (one_of (u16 "-_"))) prev (x :: s) None
            (fun prev' s' cap' =>
               rmatch flag_i (RSeq (RLit lit) REol) prev' s' cap'
                      (fun _ s'' cap'' => Some (s'', cap''))))
    with (if cls_matches flag_i (one_of (u16 "-_")) x
          then rmatch flag_i (RSeq (RLit lit) REol) (Some x) s None
                      (fun _ s'' cap'' => Some (s'', cap''))
          else None).
  rewrite cls_matches_separator, rmatch_lit_end.
  destruct (one_of (u16 "-_") x); cbn [andb orb]; [|reflexivity].
  destruct (equals_ci lit s); cbn [orb]; reflexivity.
Qed.

Lemma exec_from_suffix : forall lit s prev i,
  match exec_from flag_i
          (RSeq (ROpt (RCls (one_of (u16 "-_")))) (RSeq (RLit lit) REol))
          prev s i with
  | Some m =>
      i <= m_index m
      /\ firstn (m_index m - i) s = strip_suffix lit s
      /\ m_index m - i + length (m_text m) = length s
  | None => strip_suffix lit s = s
  end.
Proof.
  intros lit. induction s as [|x s IH]; intros prev i.
  - cbn [exec_from strip_suffix]. rewrite match_here_suffix.
    destruct (is_suffix_ci lit []); [|reflexivity].
    cbn [m_index m_text]. rewrite Nat.sub_diag. repeat split. lia.
  - cbn [exec_from strip_suffix]. rewrite match_here_suffix.
    destruct (is_suffix_ci lit (x :: s)).
    + cbn [m_index m_text]. rewrite Nat.sub_diag.
      split; [lia|]. split; [reflexivity|].
      change (length (@nil jschar)) with 0.
      rewrite Nat.sub_0_r, firstn_all. reflexivity.
    + specialize (IH (Some x) (S i)).
      destruct (exec_from flag_i _ (Some x) s (S i)) as [m|].
      * destruct IH as (Hle & Hfirst & Hlen). split; [lia|].
        replace (m_index m - i) with (S (m_index m - S i)) by lia.
        cbn [firstn length]. rewrite Hfirst. split; [reflexivity | lia].
      * rewrite IH. reflexivity.
Qed.

Lemma replace_first_suffix : forall lit s,
  replace_first flag_i
    (RSeq (ROpt (RCls (one_of (u16 "-_")))) (RSeq (RLit lit) REol)) [] s
  = strip_suffix lit s.
Proof.
  intros lit s. unfold replace_first, exec.
  pose proof (exec_from_suffix lit s None 0) as H.
  destruct (exec_from flag_i _ None s 0) as [m|]; [|symmetry; exact H].
  destruct H as (_ & Hfirst & Hlen). rewrite Nat.sub_0_r in *.
  rewrite Hlen, skipn_all, Hfirst. cbn [app]. apply app_nil_r.
Qed.

Lemma strip_suffix_prefix : forall lit s,
  exists removed,
    s = strip_suffix lit s ++ removed /\ length removed <= length lit + 1.
Proof.
  intros lit. induction s as [|x s (removed & Hs & Hlen)].
  - exists []. cbn [strip_suffix]. destruct (is_suffix_ci lit []);
      split; (reflexivity || cbn; lia).
  - cbn [strip_suffix]. destruct (is_suffix_ci lit (x :: s)) eqn:E.
    + exists (x :: s). split; [reflexivity|].
      unfold is_suffix_ci, equals_ci in E.
      apply orb_true_iff in E. destruct E as [E|E].
      * apply andb_true_iff in E. destruct E as [_ E].
        apply andb_true_iff in E. destruct E as [_ E].
        apply Nat.eqb_eq in E. cbn [length]. lia.
      * apply andb_true_iff in E. destruct E as [_ E].
        apply Nat.eqb_eq in E. lia.
    + exists removed. split; [|exact Hlen].
      cbn [app]. f_equal. exact Hs.
Qed.

(** X8. The name of a server in the messages is the name of the folder of
    its manifest, without a final [smp] and then without a final [mc], each
    with one [-] or [_] before it if there is one, letters compared without
    case.  Nothing but such an end is removed: the name is a prefix of the
    folder name, shorter by at most seven characters. *)
Theorem prettyServerName_spec : forall P manifestPath,
  let name := path_basename P (path_dirname P manifestPath) in
  prettyServerName P manifestPath
  = strip_suffix (u16 "mc") (strip_suffix (u16 "smp") name)
  /\ exists removed,
       name = prettyServerName P manifestPath ++ removed
       /\ length removed <= 7.
Proof.
  intros P manifestPath name.
  assert (E : prettyServerName P manifestPath
              = strip_suffix (u16 "mc") (strip_suffix (u16 "smp") name)).
  { unfold prettyServerName. cbv zeta. fold name. unfold re_mc, re_smp.
    rewrite !replace_first_suffix. reflexivity. }
  split; [exact E|]. rewrite E.
  destruct (strip_suffix_prefix (u16 "smp") name) as (r1 & H1 & L1).
  destruct (strip_suffix_prefix (u16 "mc") (strip_suffix (u16 "smp") name))
    as (r2 & H2 & L2).
  exists (r2 ++ r1). split.
  - rewrite app_assoc, <- H2. exact H1.
  - rewrite length_app. cbn [u16 length] in *.
    change (length (u16 "smp")) with 3 in L1.
    change (length (u16 "mc")) with 2 in L2. lia.
Qed.

Lemma prettyServerName_examples :
  prettyServerName (platform_of world_good)
                   (u16 "/repo/servers/Cool_SMP/manifest.json") = u16 "Cool"
  /\ prettyServerName (platform_of world_good)
                      (u16 "/repo/servers/foomc-smp/manifest.json") = u16 "foo"
  /\ prettyServerName (platform_of world_good)
                      (u16 "/repo/servers/smp-mc/manifest.json") = u16 "smp"
  /\ prettyServerName (platform_of world_good)
                      (u16 "/repo/servers/mc/manifest.json") = [].
Proof.
  split; [|split; [|split]];
    match goal with
    | |- prettyServerName ?P ?p = _ =>
        rewrite (proj1 (prettyServerName_spec P p)); reflexivity
    end.
Defined.

(** ** Manifest validation: the outcomes *)

Section ManifestOutcomes.

Variable P : Platform.

Lemma load_schema_no_exit : forall schemaPath c ts,
  load_schema P schemaPath <> (Exit c, ts).
Proof.
  intros schemaPath c ts. unfold load_schema, readFile.
  destruct schemaPath as [sp|]; [|discriminate].
  destruct (nonempty sp); [|discriminate].
  cbn. destruct (fs_readFileSync P sp) as [t|msg]; cbn; [|discriminate].
  destruct (JSON_parse P t); discriminate.
Qed.

Lemma load_schema_reads : forall schemaPath,
  Forall (fun e => exists path, e = ReadFile path)
         (effects (load_schema P schemaPath)).
Proof.
  intros schemaPath. unfold load_schema, readFile.
  destruct schemaPath as [sp|]; [|apply Forall_nil].
  destruct (nonempty sp); [|apply Forall_nil].
  cbn. destruct (fs_readFileSync P sp) as [t|msg]; cbn.
  - destruct (JSON_parse P t); cbn;
      (apply Forall_cons; [eexists; reflexivity | apply Forall_nil]).
  - apply Forall_cons; [eexists; reflexivity | apply Forall_nil].
Qed.

Lemma report_syntax_error_error : forall manifestPath manifestText err,
  exists e, report_syntax_error P manifestPath manifestText err
            = (Ret false, [e])
            /\ is_error e = true.
Proof.
  intros manifestPath manifestText err. unfold report_syntax_error. cbv zeta.
  destruct (syntax_error_position _ manifestText);
    eexists; (split; [reflexivity|]); reflexivity.
Qed.

(** The result of the manifest validation, stage by stage. *)
Lemma validateManifest_cases : forall manifestPath schemaPath,
  let rel := path_relative P (cwd P) manifestPath in
  let result := validateManifest P manifestPath schemaPath in
  (test no_flags re_path_chars rel = false
   /\ exists e, result = (Ret false, [e]) /\ is_error e = true)
  \/ (test no_flags re_path_chars rel = true
      /\ ((exists msg e,
              fs_readFileSync P manifestPath = Raised msg
              /\ result = (Ret false, [ReadFile manifestPath; e])
              /\ is_error e = true)
          \/ (exists manifestText,
                fs_readFileSync P manifestPath = Value manifestText
                /\ ((exists err e,
                        JSON_parse P manifestText = Raised err
                        /\ result = (Ret false, [ReadFile manifestPath; e])
                        /\ is_error e = true)
                    \/ (exists manifest,
                          JSON_parse P manifestText = Value manifest
                          /\ ((exists msg ts,
                                  load_schema P schemaPath = (Throw msg, ts)
                                  /\ result
                                     = (Throw msg, ReadFile manifestPath :: ts))
                              \/ (exists schema ts,
                                    load_schema P schemaPath = (Ret schema, ts)
                                    /\ ((exists msg,
                                            ajv_validate P schema manifest
                                            = Raised msg
                                            /\ result
                                               = (Throw msg,
                                                  ReadFile manifestPath :: ts))
                                        \/ (ajv_validate P schema manifest
                                            = Value []
                                            /\ result
                                               = (Ret true,
                                                  ReadFile manifestPath :: ts))
                                        \/ (exists errs,
                                              ajv_validate P schema manifest
                                              = Value errs
                                              /\ errs <> []
                                              /\ result
                                                 = (Ret false,
                                                    ReadFile manifestPath
                                                      :: ts
                                                      ++ Log error
                                                           (u16 "Validation failed for "
                                                              ++ rel ++ u16 ":") []
                                                      :: map (violation_report
                                                                P manifestText)
                                                             errs)))))))))).
Proof.
  intros manifestPath schemaPath rel result. subst result.
  unfold validateManifest. fold rel.
  destruct (test no_flags re_path_chars rel) eqn:Hrel; cbn [negb].
  2:{ left. split; [reflexivity|]. eexists. split; reflexivity. }
  right. split; [reflexivity|].
  unfold readFile.
  destruct (fs_readFileSync P manifestPath) as [manifestText|msg] eqn:Hread.
  2:{ left. exists msg. eexists. split; [reflexivity|]. cbn.
      split; reflexivity. }
  right. exists manifestText. split; [reflexivity|]. cbn.
  destruct (JSON_parse P manifestText) as [manifest|err] eqn:Hparse.
  2:{ left. exists err.
      destruct (report_syntax_error_error manifestPath manifestText err)
        as (e & He & Herr).
      exists e. rewrite He. split; [reflexivity|]. split; [reflexivity|exact Herr]. }
  right. exists manifest. split; [reflexivity|].
  destruct (load_schema P schemaPath) as [[schema|msg|c] ts] eqn:Hschema.
  - right. exists schema, ts. split; [reflexivity|]. cbn.
    destruct (ajv_validate P schema manifest) as [errs|msg] eqn:Hajv; cbn.
    + destruct errs as [|e errs].
      * right. left. split; [reflexivity|]. cbn. rewrite app_nil_r. reflexivity.
      * right. right. exists (e :: errs). split; [reflexivity|].
        split; [discriminate|].
        rewrite effects_M_iter_emit. cbn. rewrite app_nil_r. reflexivity.
    + left. exists msg. split; [reflexivity|]. rewrite app_nil_r. reflexivity.
  - left. exists msg, ts. split; reflexivity.
  - exfalso. exact (@load_schema_no_exit _ _ _ Hschema).
Qed.

(** X9. The manifest validation returns [true] exactly when every stage
    succeeds: the relative path passes the character test, the file is read,
    its text parses, the schema loads, and the validator reports no
    violation.  It then has written no message at all: its only effects are
    the reads of the manifest and of a schema override. *)
Theorem validateManifest_true_iff : forall manifestPath schemaPath,
  (outcome (validateManifest P manifestPath schemaPath) = Ret true
   <-> test no_flags re_path_chars (path_relative P (cwd P) manifestPath) = true
       /\ exists manifestText manifest schema,
            fs_readFileSync P manifestPath = Value manifestText
            /\ JSON_parse P manifestText = Value manifest
            /\ outcome (load_schema P schemaPath) = Ret schema
            /\ ajv_validate P schema manifest = Value [])
  /\ (outcome (validateManifest P manifestPath schemaPath) = Ret true ->
      Forall (fun e => exists path, e = ReadFile path)
             (effects (validateManifest P manifestPath schemaPath))).
Proof.
  intros manifestPath schemaPath.
  pose proof (load_schema_reads schemaPath) as Hreads.
  destruct (validateManifest_cases manifestPath schemaPath)
    as [(Hrel & e & -> & He)
       |(Hrel & [(msg & e & Hread & -> & He)
                |(t & Hread & [(err & e & Hparse & -> & He)
                              |(m & Hparse & [(msg & ts & Hs & ->)
                                             |(schema & ts & Hs
                                               & [(msg & Hajv & ->)
                                                 |[(Hajv & ->)
                                                  |(errs & Hajv & Hne & ->)]])])])])];
    cbn [outcome effects fst snd].
  all: try (split; [split; [discriminate|] | discriminate]).
  - intros (H & _). congruence.
  - intros (_ & t & m & s & H & _). congruence.
  - intros (_ & t' & m & s & H1 & H2 & _). congruence.
  - intros (_ & t' & m' & s & H1 & H2 & H3 & _).
    rewrite Hs in H3. discriminate.
  - intros (_ & t' & m' & s & H1 & H2 & H3 & H4).
    rewrite Hs in H3. cbn in H3. congruence.
  - split.
    + split; [|reflexivity]. intros _. split; [exact Hrel|].
      exists t, m, schema. rewrite Hs. repeat split; assumption.
    + intros _. rewrite Hs in Hreads. cbn in Hreads.
      apply Forall_cons; [eexists; reflexivity | exact Hreads].
  - intros (_ & t' & m' & s & H1 & H2 & H3 & H4).
    rewrite Hs in H3. cbn in H3.
    assert (t' = t) by congruence. subst t'.
    assert (m' = m) by congruence. subst m'.
    assert (s = schema) by congruence. subst s.
    rewrite Hajv in H4. injection H4 as ->. contradiction.
Qed.

(** X10. A failed manifest validation is never silent: whenever the
    validation returns [false] it has written at least one message at level
    [error]. *)
Theorem validateManifest_false_reported : forall manifestPath schemaPath,
  outcome (validateManifest P manifestPath schemaPath) = Ret false ->
  exists e, In e (effects (validateManifest P manifestPath schemaPath))
            /\ is_error e = true.
Proof.
  intros manifestPath schemaPath.
  destruct (validateManifest_cases manifestPath schemaPath)
    as [(Hrel & e & -> & He)
       |(Hrel & [(msg & e & Hread & -> & He)
                |(t & Hread & [(err & e & Hparse & -> & He)
                              |(m & Hparse & [(msg & ts & Hs & ->)
                                             |(schema & ts & Hs
                                               & [(msg & Hajv & ->)
                                                 |[(Hajv & ->)
                                                  |(errs & Hajv & Hne & ->)]])])])])];
    cbn [outcome effects fst snd]; intros H; try discriminate.
  - exists e. split; [left; reflexivity | exact He].
  - exists e. split; [right; left; reflexivity | exact He].
  - exists e. split; [right; left; reflexivity | exact He].
  - eexists. split.
    + right. apply in_or_app. right. left. reflexivity.
    + reflexivity.
Qed.

(** X11. The manifest validation throws only in the schema stage: exactly
    when the manifest was read and parsed and then the schema override cannot
    be read or parsed, or the validator rejects the schema.  It has then
    written no message: the error is left to the caller. *)
Theorem validateManifest_throws_iff : forall manifestPath schemaPath msg,
  (outcome (validateManifest P manifestPath schemaPath) = Throw msg
   <-> test no_flags re_path_chars (path_relative P (cwd P) manifestPath) = true
       /\ exists manifestText manifest,
            fs_readFileSync P manifestPath = Value manifestText
            /\ JSON_parse P manifestText = Value manifest
            /\ (outcome (load_schema P schemaPath) = Throw msg
                \/ exists schema,
                     outcome (load_schema P schemaPath) = Ret schema
                     /\ ajv_validate P schema manifest = Raised msg))
  /\ (outcome (validateManifest P manifestPath schemaPath) = Throw msg ->
      Forall (fun e => exists path, e = ReadFile path)
             (effects (validateManifest P manifestPath schemaPath))).
Proof.
  intros manifestPath schemaPath msg0.
  pose proof (load_schema_reads schemaPath) as Hreads.
  destruct (validateManifest_cases manifestPath schemaPath)
    as [(Hrel & e & -> & He)
       |(Hrel & [(msg & e & Hread & -> & He)
                |(t & Hread & [(err & e & Hparse & -> & He)
                              |(m & Hparse & [(msg & ts & Hs & ->)
                                             |(schema & ts & Hs
                                               & [(msg & Hajv & ->)
                                                 |[(Hajv & ->)
                                                  |(errs & Hajv & Hne & ->)]])])])])];
    cbn [outcome effects fst snd]; rewrite ?Hs in *; cbn [outcome fst] in *.
  all: try (split; [split; [discriminate|] | discriminate]).
  - intros (H & _). congruence.
  - intros (_ & t & m & H & _). congruence.
  - intros (_ & t' & m & H1 & H2 & _). congruence.
  - split.
    + split.
      * intros H. injection H as ->. split; [exact Hrel|].
        exists t, m. repeat split; try assumption. left. reflexivity.
      * intros (_ & t' & m' & H1 & H2 & [H3|(s & H3 & _)]); congruence.
    + intros _. cbn in Hreads.
      apply Forall_cons; [eexists; reflexivity | exact Hreads].
  - split.
    + split.
      * intros H. injection H as ->. split; [exact Hrel|].
        exists t, m. repeat split; try assumption. right.
        exists schema. split; [reflexivity | exact Hajv].
      * intros (_ & t' & m' & H1 & H2 & [H3|(s & H3 & H4)]); [discriminate|].
        assert (t' = t) by congruence. subst t'.
        assert (m' = m) by congruence. subst m'.
        assert (s = schema) by congruence. subst s. congruence.
    + intros _. cbn in Hreads.
      apply Forall_cons; [eexists; reflexivity | exact Hreads].
  - intros (_ & t' & m' & H1 & H2 & [H3|(s & H3 & H4)]); [discriminate|].
    assert (t' = t) by congruence. subst t'.
    assert (m' = m) by congruence. subst m'.
    assert (s = schema) by congruence. subst s. congruence.
  - intros (_ & t' & m' & H1 & H2 & [H3|(s & H3 & H4)]); [discriminate|].
    assert (t' = t) by congruence. subst t'.
    assert (m' = m) by congruence. subst m'.
    assert (s = schema) by congruence. subst s. congruence.
Qed.

End ManifestOutcomes.

Lemma validateManifest_false_reported_example :
  outcome (validateManifest (platform_of world_broken) FOO_MANIFEST None)
  = Ret false
  /\ exists e,
       In e (effects (validateManifest (platform_of world_broken)
                                       FOO_MANIFEST None))
       /\ is_error e = true.
Proof.
  split; [reflexivity|].
  apply (@validateManifest_false_reported (platform_of world_broken)
                                          FOO_MANIFEST None).
  reflexivity.
Defined.

(** ** Manifest validation: the position the parser names *)

(** X12. When the message of the parser names a position, the report is
    located there.  The position is read from the digits behind the first
    [position] (letters in any case) of the message that is followed, after
    optional white space, by a digit; with such a position the validation
    returns [false] after one error that shows the line and the column of
    that offset, and the two fallbacks are not consulted. *)
Theorem validateManifest_parser_position :
  forall P manifestPath schemaPath manifestText err digits,
    test no_flags re_path_chars (path_relative P (cwd P) manifestPath) = true ->
    fs_readFileSync P manifestPath = Value manifestText ->
    JSON_parse P manifestText = Raised err ->
    position_digits err = Some digits ->
    position_in_message err = Some (parseInt digits)
    /\ validateManifest P manifestPath schemaPath
       = (Ret false,
          [ ReadFile manifestPath;
            located_report
              (path_join P [ u16 "servers";
                             path_basename P (path_dirname P manifestPath);
                             path_basename P manifestPath ])
              err manifestText (parseInt digits) ]).
Proof.
  intros P manifestPath schemaPath manifestText err digits
         Hrel Hread Hparse Hdigits.
  assert (Hpos : position_in_message err = Some (parseInt digits))
    by (rewrite position_in_message_spec, Hdigits; reflexivity).
  split; [exact Hpos|].
  assert (Hne : nonempty err = true).
  { destruct err; [discriminate Hdigits | reflexivity]. }
  unfold validateManifest. rewrite Hrel. cbn [negb].
  erewrite readFile_value by eassumption. cbn. rewrite Hparse.
  unfold report_syntax_error. cbv zeta. rewrite Hne.
  unfold syntax_error_position. rewrite Hpos. reflexivity.
Qed.

Lemma validateManifest_parser_position_example :
  position_digits BRACE_ERROR = Some (u16 "12")
  /\ nth_error BRACE_TEXT 12 = Some 125%N
  /\ validateManifest (platform_of world_brace) FOO_MANIFEST None
     = (Ret false,
        [ ReadFile FOO_MANIFEST;
          Log error
              (u16 "servers/foo/manifest.json: SyntaxError: Unexpected token } in JSON at position 12 (3:1)")
              [ u16 "  1 | {";
                u16 "  2 |   " ++ [QUOTE] ++ u16 "a" ++ [QUOTE] ++ u16 ": 1,";
                u16 "  3 | }";
                u16 "      ^";
                [];
                u16 "Suggestion: check for trailing commas, missing quotes, or incorrect brackets." ] ]).
Proof.
  split; [reflexivity|]. split; [reflexivity|].
  refine (eq_trans
            (proj2 (@validateManifest_parser_position
                      (platform_of world_brace) FOO_MANIFEST None BRACE_TEXT
                      BRACE_ERROR (u16 "12") _ _ _ _)) _);
    reflexivity.
Defined.

(** ** Asset Checker: failures without a message *)

Section AssetFailures.

Variable P : Platform.

(** X13. The asset check can fail without a word: when the manifest cannot
    be read, when its text does not parse or parses to [null], and when the
    declared icon is a value other than a string (a number, say), the check
    returns [false] and writes no message. *)
Theorem validateAssets_silent_failure : forall manifestPath,
  (exists msg, fs_readFileSync P manifestPath = Raised msg)
  \/ (exists manifestText,
        fs_readFileSync P manifestPath = Value manifestText
        /\ ((exists msg, JSON_parse P manifestText = Raised msg)
            \/ JSON_parse P manifestText = Value JNull
            \/ exists fields afields v,
                 JSON_parse P manifestText = Value (JObj fields)
                 /\ lookup (u16 "assets") fields = Some (JObj afields)
                 /\ lookup (u16 "icon") afields = Some v
                 /\ truthy v = true
                 /\ (forall s, v <> JStr s))) ->
  validateAssets P manifestPath = (Ret false, [ReadFile manifestPath]).
Proof.
  intros manifestPath H. unfold validateAssets, readFile.
  destruct H as [(msg & Hread) | (t & Hread & H)]; rewrite Hread; cbn;
    [reflexivity|].
  destruct H as [(msg & Hparse) | [Hparse | H]].
  - rewrite Hparse. reflexivity.
  - rewrite Hparse. reflexivity.
  - destruct H as (fields & afields & v & Hparse & Hassets & Hicon & Hv & Hstr).
    rewrite Hparse. cbn. rewrite Hassets. cbn. rewrite Hicon. cbn.
    unfold check_asset. cbn [truthy_val]. rewrite Hv.
    destruct v as [|b|n|s|items|fs]; try reflexivity.
    exfalso. exact (Hstr s eq_refl).
Qed.

End AssetFailures.

Lemma validateAssets_silent_failure_example :
  fs_readFileSync (platform_of world_icon_number) FOO_MANIFEST = Value FOO_TEXT
  /\ JSON_parse (platform_of world_icon_number) FOO_TEXT
     = Value (JObj [ (u16 "assets", JObj [ (u16 "icon", JNum 42) ]) ])
  /\ validateAssets (platform_of world_icon_number) FOO_MANIFEST
     = (Ret false, [ReadFile FOO_MANIFEST]).
Proof.
  split; [reflexivity|]. split; [reflexivity|].
  apply (@validateAssets_silent_failure (platform_of world_icon_number)
                                        FOO_MANIFEST).
  right. exists FOO_TEXT. split; [reflexivity|]. right. right.
  exists [ (u16 "assets", JObj [ (u16 "icon", JNum 42) ]) ],
         [ (u16 "icon", JNum 42) ], (JNum 42).
  repeat split; try reflexivity. intros s. discriminate.
Defined.

(** ** Status Prober: the request *)

Lemma requests_bind : forall A B (m : M A) (f : A -> M B),
  requests (bind m f)
  = requests m ++ match outcome m with
                  | Ret a => requests (f a)
                  | _ => []
                  end.
Proof.
  intros A B m f. unfold requests. rewrite effects_bind, filter_app.
  destruct (outcome m); reflexivity.
Qed.

Lemma requests_try_catch : forall A (m : M A) h,
  requests (try_catch m h)
  = requests m ++ match outcome m with
                  | Throw msg => requests (h msg)
                  | _ => []
                  end.
Proof.
  intros A m h. unfold requests. rewrite effects_try_catch, filter_app.
  destruct (outcome m); reflexivity.
Qed.

Lemma no_requests_ret : forall A (a : A), no_requests (ret a).
Proof. reflexivity. Qed.

Lemma no_requests_lift : forall A (o : Try A), no_requests (lift o).
Proof. intros A [a|msg]; reflexivity. Qed.

Lemma no_requests_emit : forall e, is_request e = false -> no_requests (emit e).
Proof. intros e H. unfold no_requests, requests. cbn. rewrite H. reflexivity. Qed.

Lemma no_requests_bind : forall A B (m : M A) (f : A -> M B),
  no_requests m -> (forall a, no_requests (f a)) -> no_requests (bind m f).
Proof.
  intros A B m f Hm Hf. unfold no_requests in *. rewrite requests_bind, Hm.
  destruct (outcome m); [apply Hf | reflexivity | reflexivity].
Qed.

Ltac no_requests_step :=
  match goal with
  | |- no_requests (bind _ _) => apply no_requests_bind; [| intros ?]
  | |- no_requests (ret _) => apply no_requests_ret
  | |- no_requests (lift _) => apply no_requests_lift
  | |- no_requests (emit _) => apply no_requests_emit; reflexivity
  | |- no_requests (reportWarning _ _) => apply no_requests_emit; reflexivity
  | |- no_requests (if ?c then _ else _) => destruct c
  end.

Section Requests.

Variable P : Platform.

Lemma motd_text_no_requests : forall response,
  no_requests (motd_text P response).
Proof. intros response. unfold motd_text. repeat no_requests_step. Qed.

Lemma requests_guarded_probe : forall serverName address apiUrl,
  requests (guarded_probe P serverName address apiUrl) = [HttpGet apiUrl].
Proof.
  intros serverName address apiUrl. unfold guarded_probe.
  rewrite requests_try_catch.
  assert (Hp : requests (probe P serverName address apiUrl) = [HttpGet apiUrl]).
  { unfold probe. rewrite requests_bind. cbn [emit outcome fst].
    match goal with
    | |- _ ++ requests ?m = _ => assert (Hq : no_requests m)
    end.
    { repeat (no_requests_step || apply motd_text_no_requests). }
    rewrite Hq. reflexivity. }
  rewrite Hp.
  destruct (outcome (probe P serverName address apiUrl)); reflexivity.
Qed.

Lemma at_most_one_bind : forall A B (m : M A) (f : A -> M B),
  no_requests m ->
  (forall a, length (requests (f a)) <= 1) ->
  length (requests (bind m f)) <= 1.
Proof.
  intros A B m f Hm Hf. rewrite requests_bind, Hm.
  destruct (outcome m); [apply Hf | cbn; lia | cbn; lia].
Qed.

(** X14. The status check sends at most one request, whatever the manifest
    holds and whatever the service answers. *)
Theorem checkServerStatus_one_request : forall manifestPath,
  length (requests (checkServerStatus P manifestPath)) <= 1.
Proof.
  intros manifestPath. unfold checkServerStatus.
  rewrite requests_try_catch.
  match goal with
  | |- length (requests ?m ++ match outcome ?m with _ => _ end) <= 1 =>
      assert (Hm : length (requests m) <= 1);
      [| destruct (outcome m); cbn [requests effects ret snd filter];
         rewrite app_nil_r; exact Hm]
  end.
  unfold readFile.
  repeat match goal with
         | |- length (requests (bind _ _)) <= 1 =>
             apply at_most_one_bind;
             [solve [repeat no_requests_step] | intros ?]
         | |- length (requests (if ?c then _ else _)) <= 1 => destruct c
         | |- length (requests (ret _)) <= 1 => cbn; lia
         end.
  rewrite requests_guarded_probe. cbn. lia.
Qed.

(** X15. The request of the status check goes to the primary address: the
    declared address, or the first element of a declared list of addresses
    (the further addresses of the list are never probed).  For a manifest
    that does not declare the bedrock edition and whose primary address is
    a text, the one request is a GET of the status URL of that address. *)
Theorem checkServerStatus_first_address :
  forall manifestPath manifestText fields address encoded,
    fs_readFileSync P manifestPath = Value manifestText ->
    JSON_parse P manifestText = Value (JObj fields) ->
    not_bedrock P fields ->
    primary_address fields = Some (JStr address) ->
    encodeURIComponent P address = Value encoded ->
    requests (checkServerStatus P manifestPath)
    = [HttpGet (u16 "https://api.mcsrvstat.us/3/" ++ encoded)].
Proof.
  intros manifestPath manifestText fields address encoded
         Hread Hparse Hed Haddr Henc.
  pose (v := JStr address).
  change (primary_address fields = Some v) in Haddr.
  change (encodeURIComponent P (ToString v) = Value encoded) in Henc.
  clearbody v.
  unfold checkServerStatus. rewrite requests_try_catch.
  match goal with
  | |- requests ?m ++ _ = _ =>
      assert (Hm : requests m
                   = [HttpGet (u16 "https://api.mcsrvstat.us/3/" ++ encoded)])
  end.
  { erewrite readFile_value by eassumption.
    rewrite requests_bind. cbn [outcome fst requests effects snd filter
                                is_request app].
    rewrite Hparse. rewrite requests_bind.
    cbn [lift outcome fst requests effects snd filter app].
    rewrite requests_bind.
    cbn [get_prop lift outcome fst requests effects snd filter app].
    rewrite requests_bind.
    assert (Hb : (if truthy_val (lookup (u16 "edition") fields)
                  then lower <- lift (call_toLowerCase P
                                        (lookup (u16 "edition") fields));;
                       ret (jsstring_eqb lower (u16 "bedrock"))
                  else ret false) = (Ret false, [])).
    { unfold not_bedrock in Hed.
      destruct (lookup (u16 "edition") fields) as [[|b|n|e|items|fs]|];
        cbn [truthy_val]; try (rewrite Hed; reflexivity); try reflexivity.
      destruct Hed as [-> | Hed]; [reflexivity|].
      destruct e as [|c e]; [reflexivity|].
      cbn [truthy call_toLowerCase lift bind ret]. rewrite Hed. reflexivity. }
    rewrite Hb. cbn [outcome fst requests effects snd filter app].
    rewrite requests_bind.
    cbn [get_prop lift outcome fst requests effects snd filter app].
    unfold primary_address in Haddr.
    destruct (lookup (u16 "server-address") fields) as [sa|]; [|discriminate].
    assert (Hhd : exists rest,
               match Some sa with
               | Some (JArr items) => map Some items
               | _ => [Some sa]
               end = Some v :: rest).
    { destruct sa as [|b|n|e|items|fs];
        try (injection Haddr as <-; exists []; reflexivity).
      destruct items as [|x items]; [discriminate|].
      injection Haddr as <-. exists (map Some items). reflexivity. }
    destruct Hhd as [rest Hhd]. cbv beta iota in Hhd |- *.
    unfold jsvalue in *. rewrite Hhd.
    cbn [length Nat.eqb hd ToString_val].
    rewrite requests_bind, Henc.
    cbn [lift outcome fst requests effects snd filter app].
    apply requests_guarded_probe. }
  rewrite Hm.
  match goal with
  | |- _ ++ match outcome ?m with _ => _ end = _ => destruct (outcome m)
  end; reflexivity.
Qed.

End Requests.

Lemma checkServerStatus_first_address_example :
  fs_readFileSync (platform_of world_two_addresses) FOO_MANIFEST
  = Value FOO_TEXT
  /\ JSON_parse (platform_of world_two_addresses) FOO_TEXT
     = Value (JObj [ (u16 "server-address",
                      JArr [ JStr (u16 "play.foo.net");
                             JStr (u16 "backup.foo.net") ]) ])
  /\ requests (checkServerStatus (platform_of world_two_addresses)
                                 FOO_MANIFEST)
     = [HttpGet STATUS_URL].
Proof.
  split; [reflexivity|]. split; [reflexivity|].
  apply (@checkServerStatus_first_address
           (platform_of world_two_addresses) FOO_MANIFEST FOO_TEXT
           [ (u16 "server-address",
              JArr [ JStr (u16 "play.foo.net"); JStr (u16 "backup.foo.net") ]) ]
           (u16 "play.foo.net") (u16 "play.foo.net")).
  - reflexivity.
  - reflexivity.
  - exact I.
  - reflexivity.
  - reflexivity.
Defined.

(** ** Status Prober: the report *)

Section ProbeReport.

Variable P : Platform.

Lemma call_join_strings : forall callee (lines : list jsstring) sep,
  call_join callee (Some (JArr (map JStr lines))) sep
  = Value (join sep lines).
Proof.
  intros callee lines sep. cbn [call_join]. rewrite map_map.
  f_equal. f_equal. rewrite <- (map_id lines) at 2.
  apply map_ext. intros s. reflexivity.
Qed.

(** X16. What the status check reports for an answer of the service that
    parses to an object: a server that is not online gives the warning
    [OFFLINE]; a server that is online gives the warning [MAINTENANCE]
    exactly when the lines of its message of the day, joined by blanks and
    put in lower case, contain one of the keywords, and the warning names the
    keywords found, in the order of the keyword list, and shows the lines; an
    online server without such a keyword, or without a message of the day,
    gives no message.  The result is [true] in each case. *)
Theorem guarded_probe_report :
  forall serverName address apiUrl data fields,
    https_get P apiUrl = Value data ->
    JSON_parse P data = Value (JObj fields) ->
    (truthy_val (lookup (u16 "online") fields) = false ->
     guarded_probe P serverName address apiUrl
     = (Ret true,
        [ HttpGet apiUrl;
          Log warn (u16 "Server " ++ serverName ++ u16 " ("
                      ++ ToString_val address ++ u16 ") appears to be OFFLINE")
              [ u16 "This is just a warning - validation will continue.";
                u16 "The server might be temporarily down or undergoing maintenance." ] ]))
    /\ (truthy_val (lookup (u16 "online") fields) = true ->
        truthy_val (lookup (u16 "motd") fields) = false ->
        guarded_probe P serverName address apiUrl
        = (Ret true, [HttpGet apiUrl]))
    /\ (forall mfields (lines : list jsstring),
           truthy_val (lookup (u16 "online") fields) = true ->
           lookup (u16 "motd") fields = Some (JObj mfields) ->
           lookup (u16 "clean") mfields = Some (JArr (map JStr lines)) ->
           let found :=
             filter (fun keyword =>
                       includes keyword (toLowerCase P (join (u16 " ") lines)))
                    maintenanceKeywords in
           guarded_probe P serverName address apiUrl
           = (Ret true,
              HttpGet apiUrl
                :: match found with
                   | [] => []
                   | _ :: _ =>
                       [ Log warn
                             (u16 "Server " ++ serverName ++ u16 " ("
                                ++ ToString_val address
                                ++ u16 ") may be in MAINTENANCE mode")
                             [ u16 "MOTD contains maintenance-related keywords: "
                                 ++ join (u16 ", ") found;
                               u16 "The server might be undergoing maintenance or updates.";
                               u16 "MOTD: " ++ join (u16 " | ") lines ] ]
                   end)).
Proof.
  intros serverName address apiUrl data fields Hget Hparse.
  split; [|split].
  - intros Hoff. unfold guarded_probe, probe.
    cbn [emit bind]. rewrite Hget. cbn [lift bind]. rewrite Hparse.
    cbn [lift bind get_prop]. rewrite Hoff. reflexivity.
  - intros Hon Hmotd. unfold guarded_probe, probe, motd_text.
    cbn [emit bind]. rewrite Hget. cbn [lift bind]. rewrite Hparse.
    cbn [lift bind get_prop]. rewrite Hon, Hmotd. reflexivity.
  - intros mfields lines Hon Hmotd Hclean found.
    unfold guarded_probe, probe, motd_text.
    cbn [emit bind]. rewrite Hget. cbn [lift bind]. rewrite Hparse.
    cbn [lift bind get_prop]. rewrite Hon, Hmotd.
    cbn [negb truthy_val truthy get_prop_val get_prop lift bind].
    rewrite Hclean. cbn [truthy_val truthy].
    rewrite !call_join_strings. cbn [lift bind ret app].
    fold found. destruct found as [|k ks]; reflexivity.
Qed.

End ProbeReport.

Lemma guarded_probe_report_example :
  https_get (platform_of world_maintenance) STATUS_URL
  = Value (u16 "{ maintenance }")
  /\ JSON_parse (platform_of world_maintenance) (u16 "{ maintenance }")
     = Value MAINTENANCE_ANSWER
  /\ guarded_probe (platform_of world_maintenance) (u16 "foo")
                   (Some (JStr (u16 "play.foo.net"))) STATUS_URL
     = (Ret true,
        [ HttpGet STATUS_URL;
          Log warn (u16 "Server foo (play.foo.net) may be in MAINTENANCE mode")
              [ u16 "MOTD contains maintenance-related keywords: wartung, wartungen";
                u16 "The server might be undergoing maintenance or updates.";
                u16 "MOTD: Foo Network | Wartungen bis 18 Uhr" ] ]).
Proof.
  split; [reflexivity|]. split; [reflexivity|].
  refine (proj2 (proj2
            (@guarded_probe_report (platform_of world_maintenance) (u16 "foo")
               (Some (JStr (u16 "play.foo.net"))) STATUS_URL
               (u16 "{ maintenance }")
               [ (u16 "online", JBool true);
                 (u16 "motd",
                  JObj [ (u16 "clean",
                          JArr (map JStr [ u16 "Foo Network";
                                           u16 "Wartungen bis 18 Uhr" ])) ]) ]
               _ _))
            [ (u16 "clean",
               JArr (map JStr [ u16 "Foo Network";
                                u16 "Wartungen bis 18 Uhr" ])) ]
            [ u16 "Foo Network"; u16 "Wartungen bis 18 Uhr" ] _ _ _);
    reflexivity.
Defined.

(** ** Status Prober: entries that are skipped *)

(** X17. Two kinds of entries are skipped by the status check, without a
    request and without a message: an entry whose edition is [bedrock], in
    any case of the letters, and an entry that declares no edition and an
    empty list of addresses.  The check returns [true] for both. *)
Theorem checkServerStatus_skipped :
  forall P manifestPath manifestText fields,
    fs_readFileSync P manifestPath = Value manifestText ->
    JSON_parse P manifestText = Value (JObj fields) ->
    (exists edition : jsstring,
        lookup (u16 "edition") fields = Some (JStr edition)
        /\ edition <> []
        /\ toLowerCase P edition = u16 "bedrock")
    \/ (lookup (u16 "edition") fields = None
        /\ lookup (u16 "server-address") fields = Some (JArr [])) ->
    checkServerStatus P manifestPath = (Ret true, [ReadFile manifestPath])
    /\ requests (checkServerStatus P manifestPath) = [].
Proof.
  intros P manifestPath manifestText fields Hread Hparse H.
  assert (E : checkServerStatus P manifestPath
              = (Ret true, [ReadFile manifestPath])).
  { destruct H as [(edition & Hed & Hne & Hlow) | [Hed Haddr]].
    - eapply checkServerStatus_bedrock; eassumption.
    - eapply checkServerStatus_empty_list; eassumption. }
  split; [exact E|]. rewrite E. reflexivity.
Qed.

Lemma checkServerStatus_skipped_example :
  fs_readFileSync (platform_of world_bedrock) FOO_MANIFEST = Value FOO_TEXT
  /\ JSON_parse (platform_of world_bedrock) FOO_TEXT
     = Value (JObj [ (u16 "edition", JStr (u16 "Bedrock"));
                     (u16 "server-address", JStr (u16 "play.foo.net")) ])
  /\ checkServerStatus (platform_of world_bedrock) FOO_MANIFEST
     = (Ret true, [ReadFile FOO_MANIFEST]).
Proof.
  split; [reflexivity|]. split; [reflexivity|].
  refine (proj1 (@checkServerStatus_skipped
                   (platform_of world_bedrock) FOO_MANIFEST FOO_TEXT
                   [ (u16 "edition", JStr (u16 "Bedrock"));
                     (u16 "server-address", JStr (u16 "play.foo.net")) ]
                   _ _ _)).
  - reflexivity.
  - reflexivity.
  - left. exists (u16 "Bedrock"). split; [reflexivity|].
    split; [discriminate | reflexivity].
Defined.

(** ** Orchestrator: discovery and the command line *)

Section Discovery.

Variable P : Platform.

Lemma scan_entries_spec : forall entries found,
  Forall (fun e => exists b,
            fs_isDirectory P (path_join P [servers_dir P; e]) = Value b)
         entries ->
  scan_entries P (servers_dir P) entries found
  = Value (mkDiscovery
             (manifests found
                ++ map (manifest_of P)
                     (filter (fun e => is_directory P e && has_manifest P e)
                             entries))
             (missing found
                ++ filter (fun e => is_directory P e && negb (has_manifest P e))
                     entries)).
Proof.
  induction entries as [|e rest IH]; intros found H.
  - cbn. rewrite !app_nil_r. destruct found. reflexivity.
  - inversion H as [|? ? [b Hb] Hrest]; subst.
    assert (Hd : is_directory P e = b)
      by (unfold is_directory; rewrite Hb; destruct b; reflexivity).
    assert (Hm : fs_existsSync P
                   (path_join P [path_join P [servers_dir P; e];
                                 u16 "manifest.json"])
                 = has_manifest P e) by reflexivity.
    cbn [scan_entries filter]. rewrite Hb, Hd, Hm.
    destruct b.
    + destruct (has_manifest P e);
        cbn [andb negb]; rewrite IH by assumption; cbn [manifests missing map];
        rewrite <- ?app_assoc; reflexivity.
    + cbn [andb]. apply IH. assumption.
Qed.

(** X18. Discovery sorts the entries of the servers directory: an entry that
    is not a directory is skipped, a directory with a [manifest.json] gives
    the path of that manifest, a directory without one is listed as missing;
    both lists keep the order of the directory listing. *)
Theorem findManifestFiles_partition : forall entries,
  fs_readdirSync P (servers_dir P) = Value entries ->
  Forall (fun e => exists b,
            fs_isDirectory P (path_join P [servers_dir P; e]) = Value b)
         entries ->
  findManifestFiles P
  = Value (mkDiscovery
             (map (manifest_of P)
                  (filter (fun e => is_directory P e && has_manifest P e)
                          entries))
             (filter (fun e => is_directory P e && negb (has_manifest P e))
                     entries)).
Proof.
  intros entries Hdir Hstat. unfold findManifestFiles. cbv zeta.
  fold (servers_dir P). rewrite Hdir.
  rewrite scan_entries_spec by assumption. reflexivity.
Qed.

Lemma scan_entries_failure : forall pre e post msg found,
  Forall (fun x => exists b,
            fs_isDirectory P (path_join P [servers_dir P; x]) = Value b) pre ->
  fs_isDirectory P (path_join P [servers_dir P; e]) = Raised msg ->
  scan_entries P (servers_dir P) (pre ++ e :: post) found = Raised msg.
Proof.
  induction pre as [|x pre IH]; intros e post msg found Hpre He.
  - cbn [app scan_entries]. rewrite He. reflexivity.
  - inversion Hpre as [|? ? [b Hb] Hrest]; subst.
    cbn [app scan_entries]. rewrite Hb.
    destruct b; [destruct (fs_existsSync P _)|]; apply IH; assumption.
Qed.

(** Loading the module fails when the root schema cannot be read or parsed:
    the script ends with that error, uncaught, before it writes anything. *)
Lemma script_load_failure : forall msg,
  (fs_readFileSync P (root_schema_path P) = Raised msg
   \/ exists text,
        fs_readFileSync P (root_schema_path P) = Value text
        /\ JSON_parse P text = Raised msg) ->
  script P = (Throw msg, [ReadFile (root_schema_path P)]).
Proof.
  intros msg [H | (text & Hread & Hparse)]; unfold script, readFile.
  - rewrite H. reflexivity.
  - rewrite Hread. cbn. rewrite Hparse. reflexivity.
Qed.

(** X19. Discovery has no error handling of its own: when the servers
    directory cannot be listed, or when one of its entries cannot be
    examined, the error is thrown (the entries before it are forgotten).
    The script, once its module is loaded (the root schema has been read
    and parsed), then writes the line of the folder filter, if there is
    one, and the line [Unexpected error: ...] with the message of the
    error, checks nothing and ends with status 1. *)
Theorem run_discovery_error : forall msg text schema,
  fs_readFileSync P (root_schema_path P) = Value text ->
  JSON_parse P text = Value schema ->
  (fs_readdirSync P (servers_dir P) = Raised msg
   \/ exists pre e post,
        fs_readdirSync P (servers_dir P) = Value (pre ++ e :: post)
        /\ Forall (fun x => exists b,
                     fs_isDirectory P (path_join P [servers_dir P; x])
                     = Value b) pre
        /\ fs_isDirectory P (path_join P [servers_dir P; e]) = Raised msg) ->
  findManifestFiles P = Raised msg
  /\ script P
     = (Exit 1,
        ReadFile (root_schema_path P)
          :: match parse_folders (argv P) with
             | Some folders =>
                 [ Log info (u16 "Checking only specified folders: "
                               ++ join (u16 ", ") folders) [] ]
             | None => []
             end ++ [ Log error (u16 "Unexpected error: " ++ msg) [] ]).
Proof.
  intros msg text schema Hread Hparse H.
  assert (Hd : findManifestFiles P = Raised msg).
  { unfold findManifestFiles. cbv zeta. fold (servers_dir P).
    destruct H as [H | (pre & e & post & Hdir & Hpre & He)].
    - rewrite H. reflexivity.
    - rewrite Hdir. apply scan_entries_failure; assumption. }
  split; [exact Hd|].
  unfold script, readFile. rewrite Hread. cbn [emit lift bind app].
  rewrite Hparse. cbn [lift bind app].
  unfold run, main. cbv zeta.
  change (findManifestFiles (with_rootSchema schema P))
    with (findManifestFiles P).
  change (argv (with_rootSchema schema P)) with (argv P).
  rewrite Hd.
  destruct (parse_folders (argv P)); reflexivity.
Qed.

End Discovery.

Lemma findManifestFiles_partition_example :
  fs_readdirSync (platform_of (world_two []))
                 (servers_dir (platform_of (world_two [])))
  = Value [u16 "foo"; u16 "bar"; u16 "manifest-schema.json"]
  /\ findManifestFiles (platform_of (world_two []))
     = Value (mkDiscovery [FOO_MANIFEST] [u16 "bar"]).
Proof.
  split; [reflexivity|].
  rewrite (@findManifestFiles_partition (platform_of (world_two []))
             [u16 "foo"; u16 "bar"; u16 "manifest-schema.json"]).
  - reflexivity.
  - reflexivity.
  - apply Forall_cons; [exists true; reflexivity|].
    apply Forall_cons; [exists true; reflexivity|].
    apply Forall_cons; [exists false; reflexivity|]. apply Forall_nil.
Defined.

(** The script and its entry block: on a platform whose root schema is what
    loading the module reads, the script does what the entry block does,
    after the read of the root schema. *)
Lemma script_loaded : forall P text,
  fs_readFileSync P (root_schema_path P) = Value text ->
  JSON_parse P text = Value (rootSchema P) ->
  script P
  = (outcome (run P), ReadFile (root_schema_path P) :: effects (run P)).
Proof.
  intros P text Hread Hparse. unfold script, readFile.
  rewrite Hread. cbn [emit lift bind app]. rewrite Hparse.
  cbn [lift bind app].
  assert (E : with_rootSchema (rootSchema P) P = P)
    by (destruct P; reflexivity).
  rewrite E. destruct (run P) as [o t]. reflexivity.
Qed.

(** In the worlds of the examples the module loads. *)
Lemma script_of_world : forall w,
  script (platform_of w)
  = (outcome (run (platform_of w)),
     ReadFile ROOT_SCHEMA_PATH :: effects (run (platform_of w))).
Proof.
  intros w. apply (@script_loaded (platform_of w) ROOT_SCHEMA_TEXT);
    reflexivity.
Qed.

Lemma run_discovery_error_example :
  fs_readFileSync platform_dangling (root_schema_path platform_dangling)
  = Value ROOT_SCHEMA_TEXT
  /\ JSON_parse platform_dangling ROOT_SCHEMA_TEXT = Value ROOT_SCHEMA
  /\ fs_readdirSync platform_dangling (servers_dir platform_dangling)
     = Value [u16 "bar"; u16 "old"; u16 "foo"; u16 "manifest-schema.json"]
  /\ fs_isDirectory platform_dangling (u16 "/repo/servers/old")
     = Raised (u16 "ENOENT: no such file or directory, stat '/repo/servers/old'")
  /\ script platform_dangling
     = (Exit 1,
        [ ReadFile ROOT_SCHEMA_PATH;
          Log error
              (u16 "Unexpected error: ENOENT: no such file or directory, stat '/repo/servers/old'")
              [] ]).
Proof.
  split; [reflexivity|]. split; [reflexivity|]. split; [reflexivity|].
  split; [reflexivity|].
  refine (proj2 (@run_discovery_error platform_dangling
                   (u16 "ENOENT: no such file or directory, stat '/repo/servers/old'")
                   ROOT_SCHEMA_TEXT ROOT_SCHEMA eq_refl eq_refl _)).
  right. exists [u16 "bar"], (u16 "old"),
                [u16 "foo"; u16 "manifest-schema.json"].
  split; [reflexivity|]. split; [|reflexivity].
  apply Forall_cons; [exists true; reflexivity | apply Forall_nil].
Defined.

(** Where the servers directory does not exist, the root schema cannot be
    read either: the script ends while its module is loaded, and the line
    [Unexpected error: ...] is not written. *)
Lemma script_load_failure_example :
  fs_readdirSync platform_elsewhere (servers_dir platform_elsewhere)
  = Raised (u16 "ENOENT: no such file or directory, scandir '/elsewhere/servers'")
  /\ script platform_elsewhere
     = (Throw (u16 "ENOENT: no such file or directory, open '/elsewhere/servers/manifest-schema.json'"),
        [ ReadFile (u16 "/elsewhere/servers/manifest-schema.json") ]).
Proof. split; vm_compute; reflexivity. Qed.

Lemma trimStart_idem : forall s, trimStart (trimStart s) = trimStart s.
Proof.
  induction s as [|c s IH]; [reflexivity|].
  cbn [trimStart]. destruct (is_space c) eqn:E; [exact IH|].
  cbn [trimStart]. rewrite E. reflexivity.
Qed.

Lemma trimStart_snoc : forall t x,
  is_space x = false -> trimStart (t ++ [x]) = trimStart t ++ [x].
Proof.
  induction t as [|c t IH]; intros x Hx.
  - cbn [app trimStart]. rewrite Hx. reflexivity.
  - cbn [app trimStart]. destruct (is_space c); [apply IH; exact Hx | reflexivity].
Qed.

Lemma trimStart_head : forall s c r,
  trimStart s = c :: r -> is_space c = false.
Proof.
  induction s as [|x s IH]; intros c r H; [discriminate|].
  cbn [trimStart] in H. destruct (is_space x) eqn:E; [eapply IH; exact H|].
  injection H as <- _. exact E.
Qed.

Lemma In_trimStart : forall s x, In x (trimStart s) -> In x s.
Proof.
  induction s as [|c s IH]; intros x H; [exact H|].
  cbn [trimStart] in H. destruct (is_space c); [right; apply IH; exact H | exact H].
Qed.

Lemma In_trim : forall s x, In x (trim s) -> In x s.
Proof.
  intros s x H. unfold trim in H.
  apply in_rev in H. apply In_trimStart in H. apply in_rev in H.
  apply In_trimStart in H. exact H.
Qed.

Lemma trim_idem : forall s, trim (trim s) = trim s.
Proof.
  intros s. unfold trim.
  destruct (trimStart s) as [|c r] eqn:E; [reflexivity|].
  pose proof (trimStart_head _ E) as Hc.
  cbn [rev]. rewrite trimStart_snoc by exact Hc.
  rewrite rev_app_distr. cbn [rev app].
  cbn [trimStart]. rewrite Hc. cbn [rev]. rewrite rev_involutive.
  rewrite trimStart_snoc by exact Hc. rewrite trimStart_idem.
  rewrite rev_app_distr. reflexivity.
Qed.

Lemma trim_ends : forall s,
  match trim s with
  | [] => True
  | c :: _ => is_space c = false /\ is_space (last (trim s) c) = false
  end.
Proof.
  intros s. unfold trim.
  destruct (trimStart s) as [|c r] eqn:E; [exact I|].
  pose proof (trimStart_head _ E) as Hc.
  cbn [rev]. rewrite trimStart_snoc by exact Hc.
  rewrite rev_app_distr. cbn [rev app]. split; [exact Hc|].
  destruct (trimStart (rev r)) as [|d q] eqn:Er; [exact Hc|].
  pose proof (trimStart_head _ Er) as Hd.
  change (c :: rev (d :: q)) with ([c] ++ rev (d :: q)).
  cbn [rev]. rewrite app_assoc, last_last. exact Hd.
Qed.

Lemma last_default : forall A (l : list A) d d',
  l <> [] -> last l d = last l d'.
Proof.
  induction l as [|x l IH]; intros d d' H; [contradiction|].
  destruct l as [|y l]; [reflexivity|].
  change (last (x :: y :: l) d) with (last (y :: l) d).
  change (last (x :: y :: l) d') with (last (y :: l) d').
  apply IH. discriminate.
Qed.

Lemma split_chr_aux_no_sep : forall c s cur,
  ~ In c cur -> Forall (fun l => ~ In c l) (split_chr_aux c cur s).
Proof.
  induction s as [|x s IH]; intros cur Hcur; cbn [split_chr_aux].
  - apply Forall_cons; [|apply Forall_nil]. intros H. apply in_rev in H. tauto.
  - destruct (N.eqb_spec x c) as [->|Hx].
    + apply Forall_cons; [intros H; apply in_rev in H; tauto|].
      apply IH. intros [].
    + apply IH. intros [H|H]; [congruence | tauto].
Qed.

(** X20. The names of a folder filter are clean: every name that
    [--folders=...] yields is non-empty, holds no comma, and neither starts
    nor ends with white space (the pieces between the commas are trimmed and
    the empty ones are dropped). *)
Theorem parse_folders_names : forall args folders,
  parse_folders args = Some folders ->
  Forall (fun f => f <> []
                   /\ ~ In 44%N f
                   /\ trim f = f
                   /\ is_space (hd 0%N f) = false
                   /\ is_space (last f 0%N) = false) folders.
Proof.
  intros args folders H. unfold parse_folders in H.
  destruct (find (startsWith (u16 "--folders=")) args) as [foldersArg|];
    [|discriminate].
  destruct (nonempty (nth 1 (split_chr 61%N foldersArg) [])); [|discriminate].
  injection H as <-.
  apply Forall_forall. intros f Hf.
  apply filter_In in Hf. destruct Hf as [Hin Hne].
  apply in_map_iff in Hin. destruct Hin as (piece & <- & Hpiece).
  pose proof (@split_chr_aux_no_sep 44%N
                (nth 1 (split_chr 61%N foldersArg) []) [] (fun H => H)) as Hno.
  rewrite Forall_forall in Hno. specialize (Hno _ Hpiece).
  split; [intros E; rewrite E in Hne; discriminate|].
  split; [intros Hc; apply Hno; apply In_trim; exact Hc|].
  split; [apply trim_idem|].
  pose proof (trim_ends piece) as He.
  destruct (trim piece) as [|c r] eqn:Et; [discriminate|].
  destruct He as [Hh Hl]. split; [exact Hh|].
  rewrite <- Hl. f_equal. apply last_default. discriminate.
Qed.

Lemma parse_folders_names_example :
  parse_folders [u16 "--folders= foo ,,bar"] = Some [u16 "foo"; u16 "bar"]
  /\ Forall (fun f => f <> []
                      /\ ~ In 44%N f
                      /\ trim f = f
                      /\ is_space (hd 0%N f) = false
                      /\ is_space (last f 0%N) = false)
            [u16 "foo"; u16 "bar"].
Proof.
  split; [reflexivity|].
  apply (@parse_folders_names [u16 "--folders= foo ,,bar"]). reflexivity.
Defined.

(** ** Orchestrator: the output of a run *)

Section RunOutput.

Variable P : Platform.

Lemma main_with_selection : forall d o t,
  findManifestFiles P = Value d ->
  let ff := parse_folders (argv P) in
  let sel := selected_manifests P ff (manifests d) in
  let rm := relevant_missing ff (missing d) in
  sel <> [] ->
  check_manifests P [] sel (all_found rm) = (o, t) ->
  main P
  = (verdict o,
     filter_line ff ++ map missing_report rm ++ t
       ++ match o with
          | Ret true => [Log info (u16 "All checks passed!") []]
          | _ => []
          end).
Proof.
  intros d o t Hd ff sel rm Hsel Hcm.
  unfold main. cbv zeta. fold ff. rewrite Hd.
  assert (Hlen : (length sel =? 0) = false)
    by (destruct sel; [contradiction | reflexivity]).
  destruct ff as [folders|] eqn:Eff.
  - cbn [logger emit bind lift manifests missing].
    fold sel. rewrite Hlen, andb_false_r. cbn [andb ret bind].
    rewrite relevant_missing_guard. fold rm. fold (all_found rm).
    unfold reportError, logger.
    rewrite (effects_M_iter_emit
               (fun dirName => Log error (u16 "Missing manifest.json for server: "
                                            ++ dirName) []) rm).
    cbn [bind]. rewrite Hcm.
    destruct o as [[|]|msg|c]; cbn; rewrite ?app_nil_r; reflexivity.
  - cbn [logger emit bind lift manifests missing ret].
    fold sel. rewrite Hlen. cbn [andb ret bind].
    rewrite relevant_missing_guard. fold rm. fold (all_found rm).
    unfold reportError, logger.
    rewrite (effects_M_iter_emit
               (fun dirName => Log error (u16 "Missing manifest.json for server: "
                                            ++ dirName) []) rm).
    cbn [bind]. rewrite Hcm.
    destruct o as [[|]|msg|c]; cbn; rewrite ?app_nil_r; reflexivity.
Qed.

(** What the checks of an entry do at its turn. *)
Lemma entry_effects_at_call : forall earlier p,
  entry_effects (at_call earlier p P) p
  = effects (validateManifest (at_call earlier p P) p (local_schema_path P p))
      ++ effects (validateAssets P p)
      ++ effects (checkServerStatus P p).
Proof. reflexivity. Qed.

Lemma schema_stage_ok_at_call : forall earlier p,
  schema_stage_ok (at_call earlier p P) p
  <-> forall msg,
        outcome (validateManifest (at_call earlier p P) p
                                  (local_schema_path P p)) <> Throw msg.
Proof. intros earlier p. split; intros H; exact H. Qed.

Lemma check_manifests_effects : forall files earlier allValid,
  Forall (in_turn schema_stage_ok) (turns P earlier files) ->
  effects (check_manifests P earlier files allValid)
  = flat_map (in_turn entry_effects) (turns P earlier files)
  /\ exists b, outcome (check_manifests P earlier files allValid) = Ret b.
Proof.
  induction files as [|p files IH]; intros earlier allValid Hok.
  - split; [reflexivity | exists allValid; reflexivity].
  - cbn [turns] in Hok. inversion Hok as [|? ? Hp Hrest]; subst.
    pose proof (proj1 (schema_stage_ok_at_call earlier p) Hp) as Hp'.
    clear Hp. rename Hp' into Hp.
    cbn [check_manifests turns flat_map].
    change (in_turn entry_effects (at_call earlier p P, p))
      with (entry_effects (at_call earlier p P) p).
    rewrite entry_effects_at_call.
    pose proof (validateManifest_stays (at_call earlier p P) p
                  (local_schema_path P p)) as Hstay.
    unfold stays in Hstay.
    destruct (validateAssets_returns P p) as [av Eav].
    pose proof (checkServerStatus_outcome P p) as Ecs.
    rewrite effects_bind, outcome_bind.
    destruct (outcome (validateManifest (at_call earlier p P) p
                                        (local_schema_path P p)))
      as [mv|msg|c] eqn:Emv;
      [|exfalso; exact (Hp msg eq_refl) | contradiction].
    rewrite effects_bind, outcome_bind, Eav.
    rewrite effects_bind, outcome_bind, Ecs.
    destruct (IH (earlier ++ [p])
                 (if negb mv || negb av then false else allValid) Hrest)
      as [IHe IHo].
    rewrite IHe. split; [|exact IHo].
    rewrite <- !app_assoc. reflexivity.
Qed.

Lemma check_manifests_abort : forall pre earlier p post msg allValid,
  Forall (in_turn schema_stage_ok) (turns P earlier pre) ->
  outcome (validateManifest (at_call (earlier ++ pre) p P) p
                            (local_schema_path P p)) = Throw msg ->
  check_manifests P earlier (pre ++ p :: post) allValid
  = (Throw msg,
     flat_map (in_turn entry_effects) (turns P earlier pre)
       ++ effects (validateManifest (at_call (earlier ++ pre) p P) p
                                    (local_schema_path P p))).
Proof.
  induction pre as [|q pre IH]; intros earlier p post msg allValid Hok Hp.
  - rewrite app_nil_r in Hp |- *. cbn [app check_manifests turns flat_map].
    destruct (validateManifest (at_call earlier p P) p (local_schema_path P p))
      as [o t].
    cbn [outcome fst] in Hp. subst o. reflexivity.
  - cbn [turns] in Hok. inversion Hok as [|? ? Hq Hrest]; subst.
    pose proof (proj1 (schema_stage_ok_at_call earlier q) Hq) as Hq'.
    clear Hq. rename Hq' into Hq.
    cbn [app check_manifests turns flat_map].
    change (in_turn entry_effects (at_call earlier q P, q))
      with (entry_effects (at_call earlier q P) q).
    rewrite entry_effects_at_call.
    pose proof (validateManifest_stays (at_call earlier q P) q
                  (local_schema_path P q)) as Hstay.
    unfold stays in Hstay.
    destruct (validateAssets_returns P q) as [av Eav].
    pose proof (checkServerStatus_outcome P q) as Ecs.
    replace (earlier ++ q :: pre) with ((earlier ++ [q]) ++ pre) in Hp |- *
      by (rewrite <- app_assoc; reflexivity).
    destruct (validateManifest (at_call earlier q P) q (local_schema_path P q))
      as [o1 t1].
    destruct (validateAssets P q) as [o2 t2].
    destruct (checkServerStatus P q) as [o3 t3].
    cbn [outcome effects fst snd] in *. subst o2 o3.
    destruct o1 as [mv|m|c]; [|exfalso; exact (Hq m eq_refl) | contradiction].
    cbn [bind].
    rewrite (IH (earlier ++ [q]) p post msg _ Hrest Hp).
    rewrite <- !app_assoc. reflexivity.
Qed.

(** X21. Every selected entry is checked, whatever the entries before it
    gave: once discovery has succeeded and some manifest is selected, and
    provided no manifest validation throws at its turn (with the validator
    of the module as the entries before have left it), the run writes the
    line of the folder filter (if there is one), one error for each
    directory without a manifest that it is concerned with, then what the
    manifest validation, the asset check and the status check of each
    selected entry do, entry by entry in the order of discovery, and at last
    [All checks passed!], exactly when no manifest is missing and every
    entry passes at its turn. *)
Theorem run_checks_every_entry : forall d,
  findManifestFiles P = Value d ->
  let ff := parse_folders (argv P) in
  let sel := selected_manifests P ff (manifests d) in
  let rm := relevant_missing ff (missing d) in
  sel <> [] ->
  Forall (in_turn schema_stage_ok) (turns P [] sel) ->
  exists ok : bool,
    (ok = true <-> rm = [] /\ Forall (in_turn passes) (turns P [] sel))
    /\ run P
       = (Exit (if ok then 0 else 1),
          filter_line ff ++ map missing_report rm
            ++ flat_map (in_turn entry_effects) (turns P [] sel)
            ++ (if ok then [Log info (u16 "All checks passed!") []] else [])).
Proof.
  intros d Hd ff sel rm Hsel Hok.
  destruct (check_manifests_effects sel [] (all_found rm) Hok) as [He [b Ho]].
  destruct (check_manifests P [] sel (all_found rm)) as [o t] eqn:Hcm.
  cbn [outcome effects fst snd] in He, Ho. subst o t.
  exists b. split.
  - pose proof (check_manifests_true P sel [] (all_found rm)) as Htrue.
    rewrite Hcm in Htrue. cbn [outcome fst] in Htrue.
    split.
    + intros ->. destruct Htrue as [Ht _]. destruct (Ht eq_refl) as [Ha HF].
      split; [|exact HF]. destruct rm; [reflexivity | discriminate].
    + intros [Hrm HF]. destruct Htrue as [_ Ht].
      assert (E : Ret b = Ret true)
        by (apply Ht; split; [rewrite Hrm; reflexivity | exact HF]).
      injection E as ->. reflexivity.
  - unfold run. rewrite (main_with_selection Hd Hsel Hcm).
    fold ff sel rm. destruct b; reflexivity.
Qed.

(** X22. A manifest validation that throws ends the run: when the manifest
    validation of a selected entry throws at its turn (its schema override
    cannot be read or parsed, or the validator of the module, as the
    entries before have left it, rejects the schema), the entries after it
    are not checked, the asset check and the status check of the entry
    itself are not run, and the run writes [Unexpected error: ...] with the
    message and ends with status 1. *)
Theorem run_aborts_on_schema_error : forall d pre p post msg,
  findManifestFiles P = Value d ->
  let ff := parse_folders (argv P) in
  let rm := relevant_missing ff (missing d) in
  selected_manifests P ff (manifests d) = pre ++ p :: post ->
  Forall (in_turn schema_stage_ok) (turns P [] pre) ->
  outcome (validateManifest (at_call pre p P) p (local_schema_path P p))
  = Throw msg ->
  run P
  = (Exit 1,
     filter_line ff ++ map missing_report rm
       ++ flat_map (in_turn entry_effects) (turns P [] pre)
       ++ effects (validateManifest (at_call pre p P) p
                                    (local_schema_path P p))
       ++ [Log error (u16 "Unexpected error: " ++ msg) []]).
Proof.
  intros d pre p post msg Hd ff rm Hsel Hok Hp.
  pose proof (@check_manifests_abort pre [] p post msg (all_found rm) Hok Hp)
    as Hcm.
  rewrite <- Hsel in Hcm.
  assert (Hne : selected_manifests P ff (manifests d) <> [])
    by (rewrite Hsel; destruct pre; discriminate).
  unfold run. rewrite (main_with_selection Hd Hne Hcm).
  fold ff rm. cbn. rewrite <- !app_assoc. reflexivity.
Qed.

End RunOutput.

Lemma run_checks_every_entry_example :
  findManifestFiles (platform_of (world_two []))
  = Value (mkDiscovery [FOO_MANIFEST] [u16 "bar"])
  /\ Forall (in_turn schema_stage_ok)
            (turns (platform_of (world_two [])) [] [FOO_MANIFEST])
  /\ run (platform_of (world_two []))
     = (Exit 1,
        [ Log error (u16 "Missing manifest.json for server: bar") [];
          ReadFile FOO_MANIFEST; ReadFile FOO_MANIFEST; ReadFile FOO_MANIFEST;
          HttpGet STATUS_URL ]).
Proof.
  assert (Hstage : Forall (in_turn schema_stage_ok)
                     (turns (platform_of (world_two [])) [] [FOO_MANIFEST])).
  { apply Forall_cons; [|apply Forall_nil]. intros msg. discriminate. }
  split; [reflexivity|]. split; [exact Hstage|].
  destruct (@run_checks_every_entry (platform_of (world_two []))
              (mkDiscovery [FOO_MANIFEST] [u16 "bar"]))
    as (ok & Hok & Hrun).
  - reflexivity.
  - discriminate.
  - exact Hstage.
  - rewrite Hrun. destruct ok.
    + destruct Hok as [Hok _]. destruct (Hok eq_refl) as [H _]. discriminate H.
    + reflexivity.
Defined.

(** Two runs that a manifest validation ends.  The schema override of the
    one entry breaks off, and parsing it throws.  The schema overrides of
    two entries bear the same [$id]: the first entry is checked, and the
    manifest validation of the second throws, for the validator of the
    module has the [$id] from the first. *)
Lemma run_aborts_on_schema_error_example :
  (findManifestFiles (platform_of world_bad_schema)
   = Value (mkDiscovery [FOO_MANIFEST] [])
   /\ run (platform_of world_bad_schema)
      = (Exit 1,
         [ ReadFile FOO_MANIFEST; ReadFile FOO_SCHEMA;
           Log error (u16 "Unexpected error: Unexpected end of JSON input")
               [] ]))
  /\ (findManifestFiles (platform_of world_same_id)
      = Value (mkDiscovery [BAR_MANIFEST; FOO_MANIFEST] [])
      /\ Forall (in_turn schema_stage_ok)
                (turns (platform_of world_same_id) [] [BAR_MANIFEST])
      /\ outcome (validateManifest (platform_of world_same_id) FOO_MANIFEST
                    (local_schema_path (platform_of world_same_id)
                                       FOO_MANIFEST))
         = Ret true
      /\ run (platform_of world_same_id)
         = (Exit 1,
            [ ReadFile BAR_MANIFEST; ReadFile BAR_SCHEMA;
              ReadFile BAR_MANIFEST; ReadFile BAR_MANIFEST;
              HttpGet STATUS_URL;
              ReadFile FOO_MANIFEST; ReadFile FOO_SCHEMA;
              Log error
                  (u16 "Unexpected error: schema with key or id "
                     ++ [QUOTE]
                     ++ u16 "https://example.org/manifest-schema.json"
                     ++ [QUOTE] ++ u16 " already exists")
                  [] ])).
Proof.
  split.
  - split; [reflexivity|].
    apply (@run_aborts_on_schema_error (platform_of world_bad_schema)
             (mkDiscovery [FOO_MANIFEST] []) [] FOO_MANIFEST []
             (u16 "Unexpected end of JSON input")).
    + reflexivity.
    + reflexivity.
    + apply Forall_nil.
    + reflexivity.
  - assert (Hstage : Forall (in_turn schema_stage_ok)
                       (turns (platform_of world_same_id) [] [BAR_MANIFEST])).
    { apply Forall_cons; [|apply Forall_nil]. intros msg. vm_compute.
      discriminate. }
    split; [vm_compute; reflexivity|]. split; [exact Hstage|].
    split; [vm_compute; reflexivity|].
    rewrite (@run_aborts_on_schema_error (platform_of world_same_id)
               (mkDiscovery [BAR_MANIFEST; FOO_MANIFEST] [])
               [BAR_MANIFEST] FOO_MANIFEST []
               (u16 "schema with key or id " ++ [QUOTE]
                  ++ u16 "https://example.org/manifest-schema.json"
                  ++ [QUOTE] ++ u16 " already exists")).
    + vm_compute. reflexivity.
    + vm_compute. reflexivity.
    + vm_compute. reflexivity.
    + exact Hstage.
    + vm_compute. reflexivity.
Defined.

(** ** Orchestrator: a filter that selects nothing *)

(** X23. A folder filter that selects no manifest ends the run at once: the
    run writes the line of the filter and the line [No matching server
    folders found to validate.] and ends with status 0.  Nothing else is
    reported, not even a directory that the filter names and that lacks its
    manifest. *)
Theorem run_filter_selects_nothing : forall P d folders,
  findManifestFiles P = Value d ->
  parse_folders (argv P) = Some folders ->
  folders <> [] ->
  selected_manifests P (Some folders) (manifests d) = [] ->
  run P
  = (Exit 0,
     [ Log info (u16 "Checking only specified folders: "
                   ++ join (u16 ", ") folders) [];
       Log info (u16 "No matching server folders found to validate.") [] ]).
Proof.
  intros P d folders Hd Hff Hne Hsel.
  assert (Hr : restricted (Some folders) = true)
    by (destruct folders; [contradiction | reflexivity]).
  pose proof (run_nothing_selected P Hd Hff Hr Hsel) as He.
  pose proof (exit_status_run P) as Hx.
  rewrite (main_outcome P Hd) in Hx. cbv zeta in Hx.
  rewrite Hff, Hsel, Hr in Hx. cbn [length Nat.eqb andb] in Hx.
  unfold exit_status in Hx.
  destruct (run P) as [o t]. cbn [outcome effects fst snd] in *.
  subst t. destruct o as [u|msg|c]; try discriminate.
  injection Hx as ->. reflexivity.
Qed.

Lemma run_filter_selects_nothing_example :
  findManifestFiles (platform_of (world_two [u16 "--folders=bar"]))
  = Value (mkDiscovery [FOO_MANIFEST] [u16 "bar"])
  /\ relevant_missing (Some [u16 "bar"]) [u16 "bar"] = [u16 "bar"]
  /\ run (platform_of (world_two [u16 "--folders=bar"]))
     = (Exit 0,
        [ Log info (u16 "Checking only specified folders: bar") [];
          Log info (u16 "No matching server folders found to validate.") [] ]).
Proof.
  split; [reflexivity|]. split; [reflexivity|].
  apply (@run_filter_selects_nothing
           (platform_of (world_two [u16 "--folders=bar"]))
           (mkDiscovery [FOO_MANIFEST] [u16 "bar"]) [u16 "bar"]).
  - reflexivity.
  - reflexivity.
  - discriminate.
  - reflexivity.
Defined.

(** ** Comment Publisher: the other comments of the thread *)

Lemma NoDup_map_eq : forall A B (f : A -> B) (l : list A) a b,
  NoDup (map f l) -> In a l -> In b l -> f a = f b -> a = b.
Proof.
  induction l as [|x l IH]; intros a b Hnd Ha Hb Hf; [contradiction|].
  cbn [map] in Hnd. inversion Hnd as [|? ? Hx Hnd']; subst.
  destruct Ha as [<- | Ha], Hb as [<- | Hb].
  - reflexivity.
  - exfalso. apply Hx. rewrite Hf. apply in_map. exact Hb.
  - exfalso. apply Hx. rewrite <- Hf. apply in_map. exact Ha.
  - apply IH; assumption.
Qed.

Lemma In_first_page : forall c t, In c (listComments t) -> In c t.
Proof.
  intros c t H. rewrite <- (firstn_skipn PER_PAGE t).
  apply in_or_app. left. exact H.
Qed.

(** X24. A publish run leaves the rest of the thread alone: it changes no
    comment other than the one it overwrites (on a thread whose comments have
    distinct ids, every comment that is not a marker comment of the bot is
    still there afterwards), it deletes and reorders nothing, and it adds at
    most one comment, at the end. *)
Theorem publish_keeps_other_comments : forall actor l t,
  NoDup (map c_id t) ->
  (forall c, In c t -> is_bot_comment c = false ->
             In c (snd (publish actor l t)))
  /\ map c_id (snd (publish actor l t))
     = map c_id t ++ match fst (publish actor l t) with
                     | Created => [fresh_id t]
                     | Updated _ => []
                     end
  /\ (forall c, In c (snd (publish actor l t)) ->
                In c t \/ c_body c = buildComment l).
Proof.
  intros actor l t Hnd. unfold publish.
  destruct (find is_bot_comment (listComments t)) as [b|] eqn:Hfind;
    cbn [fst snd].
  - apply find_some in Hfind. destruct Hfind as [Hb Hbot].
    apply In_first_page in Hb.
    split; [|split].
    + intros c Hc Hnot. unfold updateComment.
      apply in_map_iff. exists c. split; [|exact Hc].
      destruct (Z.eqb_spec (c_id c) (c_id b)) as [E|E]; [|reflexivity].
      assert (c = b) by (eapply NoDup_map_eq; eassumption).
      subst c. congruence.
    + rewrite updateComment_ids, app_nil_r. reflexivity.
    + intros c Hc. unfold updateComment in Hc.
      apply in_map_iff in Hc. destruct Hc as (x & Hx & Hin).
      destruct (Z.eqb (c_id x) (c_id b)).
      * right. subst c. reflexivity.
      * left. subst c. exact Hin.
  - split; [|split].
    + intros c Hc _. unfold createComment. apply in_or_app. left. exact Hc.
    + unfold createComment. rewrite map_app. reflexivity.
    + intros c Hc. unfold createComment in Hc. apply in_app_or in Hc.
      destruct Hc as [Hc | [<- | []]]; [left; exact Hc | right; reflexivity].
Qed.

Lemma publish_keeps_other_comments_example :
  NoDup (map c_id THREAD_TWO)
  /\ In (mkComment 2 (u16 "User") (u16 "looks good"))
        (snd (publish BOT LOGS_ONE_ERROR THREAD_TWO))
  /\ map c_id (snd (publish BOT LOGS_ONE_ERROR THREAD_TWO)) = [1; 2; 3]%Z.
Proof.
  assert (Hnd : NoDup (map c_id THREAD_TWO)).
  { repeat (apply NoDup_cons; [cbn; intuition discriminate|]). apply NoDup_nil. }
  split; [exact Hnd|].
  destruct (@publish_keeps_other_comments BOT LOGS_ONE_ERROR THREAD_TWO Hnd)
    as (Hkeep & Hids & _).
  split.
  - apply Hkeep; [right; left; reflexivity | reflexivity].
  - rewrite Hids. reflexivity.
Defined.

Lemma publish_as_other : forall actor l th,
  jsstring_eqb actor BOT = false ->
  bot_comments th = [] ->
  snd (publish actor l th)
  = th ++ [mkComment (fresh_id th) actor (buildComment l)]
  /\ bot_comments (snd (publish actor l th)) = [].
Proof.
  intros actor l th Hactor Hnone.
  assert (E : snd (publish actor l th)
              = th ++ [mkComment (fresh_id th) actor (buildComment l)]).
  { unfold publish. rewrite (find_first_page_none _ Hnone). reflexivity. }
  split; [exact E|]. rewrite E.
  unfold bot_comments in *. rewrite filter_app, Hnone. cbn [filter app].
  unfold is_bot_comment. cbn [c_user_type]. fold BOT. rewrite Hactor.
  reflexivity.
Qed.

(** X25. The script finds its comment again only when it runs as an identity
    of type [Bot]: run as any other identity on a thread without a marker
    comment of a bot, every run adds one more comment, so [n] runs leave [n]
    comments with the report. *)
Theorem publish_not_as_bot : forall actor l n t,
  jsstring_eqb actor BOT = false ->
  bot_comments t = [] ->
  let t' := Nat.iter n (fun th => snd (publish actor l th)) t in
  length t' = length t + n
  /\ bot_comments t' = []
  /\ length (filter (fun c => jsstring_eqb (c_body c) (buildComment l)) t')
     = length (filter (fun c => jsstring_eqb (c_body c) (buildComment l)) t)
       + n.
Proof.
  intros actor l n t Hactor Hnone. cbv zeta.
  induction n as [|n (IHlen & IHbot & IHbody)].
  - cbn [Nat.iter nat_rect]. repeat split; [lia | exact Hnone | lia].
  - change (Nat.iter (S n) (fun th => snd (publish actor l th)) t)
      with (snd (publish actor l
                   (Nat.iter n (fun th => snd (publish actor l th)) t))).
    destruct (@publish_as_other actor l _ Hactor IHbot) as [E Hbot].
    split; [|split; [exact Hbot|]]; rewrite E.
    + rewrite length_app. cbn [length]. lia.
    + rewrite filter_app, length_app, IHbody. cbn [filter c_body].
      assert (Eb : jsstring_eqb (buildComment l) (buildComment l) = true)
        by (apply jsstring_eqb_eq; reflexivity).
      rewrite Eb. cbn [length]. lia.
Qed.

Lemma publish_not_as_bot_example :
  jsstring_eqb (u16 "User") BOT = false
  /\ bot_comments THREAD_USERS = []
  /\ length (Nat.iter 3 (fun th => snd (publish (u16 "User") LOGS_CLEAN th))
                      THREAD_USERS)
     = 5.
Proof.
  split; [reflexivity|]. split; [reflexivity|].
  refine (proj1 (@publish_not_as_bot (u16 "User") LOGS_CLEAN 3 THREAD_USERS
                   _ _)); reflexivity.
Defined.

(** ** Comment Publisher: a second run *)

Lemma find_split : forall A (f : A -> bool) l b,
  find f l = Some b ->
  exists pre post,
    l = pre ++ b :: post /\ f b = true /\ Forall (fun x => f x = false) pre.
Proof.
  induction l as [|x l IH]; intros b H; [discriminate|].
  cbn [find] in H. destruct (f x) eqn:E.
  - injection H as <-. exists [], l. repeat split; [exact E | apply Forall_nil].
  - destruct (IH _ H) as (pre & post & -> & Hb & Hpre).
    exists (x :: pre), post. repeat split; [exact Hb|].
    apply Forall_cons; assumption.
Qed.

Lemma updateComment_twice : forall comment_id body t,
  updateComment comment_id body (updateComment comment_id body t)
  = updateComment comment_id body t.
Proof.
  intros comment_id body t. unfold updateComment. rewrite map_map.
  apply map_ext. intros c.
  destruct (Z.eqb (c_id c) comment_id) eqn:E; cbn [c_id]; rewrite E;
    reflexivity.
Qed.

(** The comment a second run finds is the one the first run wrote. *)
Lemma find_after_update : forall l t b,
  find is_bot_comment t = Some b ->
  exists b',
    find is_bot_comment (updateComment (c_id b) (buildComment l) t) = Some b'
    /\ c_id b' = c_id b.
Proof.
  intros l t b H.
  destruct (find_split _ _ H) as (pre & post & -> & Hb & Hpre). clear H.
  induction pre as [|x pre IH].
  - cbn [app updateComment map find]. rewrite Z.eqb_refl.
    unfold is_bot_comment at 1. cbn [c_user_type c_body].
    unfold is_bot_comment in Hb. apply andb_true_iff in Hb.
    destruct Hb as [Htype _]. rewrite Htype, buildComment_marker.
    eexists. split; reflexivity.
  - inversion Hpre as [|? ? Hx Hpre']; subst.
    cbn [app updateComment map find].
    destruct (Z.eqb_spec (c_id x) (c_id b)) as [E|E].
    + destruct (is_bot_comment (mkComment (c_id x) (c_user_type x)
                                          (buildComment l))).
      * eexists. split; [reflexivity | exact E].
      * apply IH. exact Hpre'.
    + rewrite Hx. apply IH. exact Hpre'.
Qed.

(** X26. Publishing is idempotent for the bot when the comment of the
    first run lies on the first page of the thread, the only one the script
    reads: when the first page holds a marker comment of the bot, or the
    thread has fewer than thirty comments, a second run with the same logs,
    as an identity of type [Bot], finds the comment of the first run,
    overwrites it with the same text and so leaves the thread exactly as the
    first run left it. *)
Theorem publish_twice : forall l t,
  (bot_comments (listComments t) = [] -> length t < PER_PAGE) ->
  snd (publish BOT l (snd (publish BOT l t))) = snd (publish BOT l t)
  /\ exists comment_id,
       fst (publish BOT l (snd (publish BOT l t))) = Updated comment_id.
Proof.
  intros l t Hpage.
  destruct (find is_bot_comment (listComments t)) as [b|] eqn:Hfind.
  - assert (E : publish BOT l t
                = (Updated (c_id b),
                   updateComment (c_id b) (buildComment l) t))
      by (unfold publish; rewrite Hfind; reflexivity).
    rewrite E. cbn [snd].
    destruct (find_after_update l _ Hfind) as (b' & Hfind' & Hid).
    assert (Hfind'' : find is_bot_comment
                        (listComments
                           (updateComment (c_id b) (buildComment l) t))
                      = Some b').
    { unfold listComments, updateComment. rewrite firstn_map. exact Hfind'. }
    unfold publish. rewrite Hfind''. cbn [fst snd].
    rewrite Hid. split; [apply updateComment_twice | eexists; reflexivity].
  - assert (E : publish BOT l t
                = (Created, createComment BOT (buildComment l) t))
      by (unfold publish; rewrite Hfind; reflexivity).
    rewrite E. cbn [snd].
    assert (Hnone : bot_comments (listComments t) = []).
    { unfold bot_comments. rewrite find_filter in Hfind.
      destruct (filter is_bot_comment (listComments t));
        [reflexivity | discriminate]. }
    specialize (Hpage Hnone).
    assert (Hall : listComments t = t)
      by (unfold listComments; apply firstn_all2; lia).
    rewrite Hall in Hnone.
    assert (Hfind' : find is_bot_comment
                       (listComments (createComment BOT (buildComment l) t))
                     = Some (mkComment (fresh_id t) BOT (buildComment l))).
    { unfold listComments, createComment.
      rewrite firstn_all2 by (rewrite length_app; cbn [length]; lia).
      rewrite find_filter, filter_app. unfold bot_comments in Hnone.
      rewrite Hnone. cbn [filter app]. rewrite is_bot_comment_new.
      reflexivity. }
    unfold publish. rewrite Hfind'. cbn [fst snd c_id].
    split; [|eexists; reflexivity].
    unfold createComment, updateComment. rewrite map_app. cbn [map c_id].
    rewrite Z.eqb_refl. f_equal.
    rewrite <- (map_id t) at 2. apply map_ext_in. intros c Hc.
    pose proof (fresh_id_above t c Hc) as Hlt.
    destruct (Z.eqb_spec (c_id c) (fresh_id t)); [lia | reflexivity].
Qed.

Lemma publish_twice_example :
  length THREAD_USERS < PER_PAGE
  /\ snd (publish BOT LOGS_ONE_ERROR
            (snd (publish BOT LOGS_ONE_ERROR THREAD_USERS)))
     = THREAD_USERS ++ [mkComment 10 BOT (buildComment LOGS_ONE_ERROR)].
Proof.
  assert (Hlen : length THREAD_USERS < PER_PAGE) by (vm_compute; lia).
  split; [exact Hlen|].
  rewrite (proj1 (@publish_twice LOGS_ONE_ERROR THREAD_USERS
                    (fun _ => Hlen))).
  reflexivity.
Defined.

(** The comment of an earlier run that lies behind the first page is
    overwritten by no later run: each run creates one more. *)
Lemma publish_twice_behind_first_page :
  bot_comments (listComments THREAD_FULL_PAGE) = []
  /\ length THREAD_FULL_PAGE = PER_PAGE
  /\ fst (publish BOT LOGS_CLEAN (snd (publish BOT LOGS_CLEAN THREAD_FULL_PAGE)))
     = Created
  /\ length (snd (publish BOT LOGS_CLEAN
                    (snd (publish BOT LOGS_CLEAN THREAD_FULL_PAGE))))
     = 32.
Proof. repeat split; vm_compute; reflexivity. Qed.

(** ** Comment Publisher: the tagged lines of a log *)

Lemma startsWith_split : forall p s,
  startsWith p s = true -> s = p ++ skipn (length p) s.
Proof.
  induction p as [|c p IH]; intros s H; [reflexivity|].
  destruct s as [|x s]; [discriminate|].
  cbn [startsWith] in H. apply andb_true_iff in H. destruct H as [Hc Hp].
  apply N.eqb_eq in Hc. subst x. cbn [length skipn app]. f_equal.
  apply IH. exact Hp.
Qed.

Lemma startsWith_app_l : forall p a b,
  startsWith p a = true -> startsWith p (a ++ b) = true.
Proof.
  induction p as [|c p IH]; intros a b H; [reflexivity|].
  destruct a as [|x a]; [discriminate|].
  cbn [startsWith app] in *. apply andb_true_iff in H. destruct H as [Hc Hp].
  rewrite Hc. cbn [andb]. apply IH. exact Hp.
Qed.

Lemma startsWith_app_short : forall p a b,
  length p <= length a -> startsWith p (a ++ b) = startsWith p a.
Proof.
  induction p as [|c p IH]; intros a b H; [reflexivity|].
  destruct a as [|x a]; [cbn [length] in H; lia|].
  cbn [startsWith app]. rewrite IH by (cbn [length] in H; lia). reflexivity.
Qed.

(** A tag without a line terminator does not run across one. *)
Lemma startsWith_across : forall p a t b,
  forallb is_dot p = true -> is_dot t = false ->
  startsWith p (a ++ t :: b) = true -> startsWith p a = true.
Proof.
  induction p as [|c p IH]; intros a t b Hp Ht H; [reflexivity|].
  cbn [forallb] in Hp. apply andb_true_iff in Hp. destruct Hp as [Hc Hp].
  destruct a as [|x a].
  - cbn [app startsWith] in H. apply andb_true_iff in H. destruct H as [E _].
    apply N.eqb_eq in E. subst c. congruence.
  - cbn [app startsWith] in *. apply andb_true_iff in H. destruct H as [E H].
    rewrite E. cbn [andb]. eapply IH; eassumption.
Qed.

Lemma take_skip_dots : forall s, take_dots s ++ skip_dots s = s.
Proof.
  induction s as [|x s IH]; [reflexivity|].
  cbn [take_dots skip_dots]. destruct (is_dot x); [|reflexivity].
  cbn [app]. f_equal. exact IH.
Qed.

Lemma take_dots_dots : forall s, forallb is_dot (take_dots s) = true.
Proof.
  induction s as [|x s IH]; [reflexivity|].
  cbn [take_dots]. destruct (is_dot x) eqn:E; [|reflexivity].
  cbn [forallb]. rewrite E. exact IH.
Qed.

Lemma skip_dots_head : forall s,
  match skip_dots s with
  | [] => True
  | t :: _ => is_dot t = false
  end.
Proof.
  induction s as [|x s IH]; [exact I|].
  cbn [skip_dots]. destruct (is_dot x) eqn:E; [exact IH | exact E].
Qed.

Lemma take_dots_app : forall a rest,
  forallb is_dot a = true ->
  match rest with [] => True | t :: _ => is_dot t = false end ->
  take_dots (a ++ rest) = a /\ skip_dots (a ++ rest) = rest.
Proof.
  induction a as [|x a IH]; intros rest Ha Hrest.
  - cbn [app]. destruct rest as [|t rest]; [split; reflexivity|].
    cbn [take_dots skip_dots]. rewrite Hrest. split; reflexivity.
  - cbn [forallb] in Ha. apply andb_true_iff in Ha. destruct Ha as [Hx Ha].
    cbn [app take_dots skip_dots]. rewrite Hx.
    destruct (IH rest Ha Hrest) as [-> ->]. split; reflexivity.
Qed.

Lemma split_terminators_aux_eq : forall s cur,
  split_terminators_aux cur s
  = (rev cur ++ take_dots s)
      :: match skip_dots s with
         | [] => []
         | _ :: s1 => split_terminators_aux [] s1
         end.
Proof.
  induction s as [|x s IH]; intros cur.
  - cbn. rewrite app_nil_r. reflexivity.
  - cbn [split_terminators_aux take_dots skip_dots]. unfold is_dot.
    destruct (is_line_terminator x); cbn [negb].
    + rewrite app_nil_r. reflexivity.
    + rewrite IH. cbn [rev]. rewrite <- app_assoc. reflexivity.
Qed.

Lemma suffix_from_spec : forall t s suf,
  suffix_from t s = Some suf ->
  startsWith t suf = true /\ exists pre, s = pre ++ suf.
Proof.
  induction s as [|x s IH]; intros suf H.
  - cbn [suffix_from] in H. destruct (startsWith t []) eqn:E; [|discriminate].
    injection H as <-. split; [exact E | exists []; reflexivity].
  - cbn [suffix_from] in H. destruct (startsWith t (x :: s)) eqn:E.
    + injection H as <-. split; [exact E | exists []; reflexivity].
    + destruct (IH _ H) as [Hs [pre ->]]. split; [exact Hs|].
      exists (x :: pre). reflexivity.
Qed.

Lemma suffix_from_indexOf : forall t s i,
  match indexOf_from t s i with
  | Some j => i <= j /\ suffix_from t s = Some (skipn (j - i) s)
  | None => suffix_from t s = None
  end.
Proof.
  induction s as [|x s IH]; intros i.
  - cbn [indexOf_from suffix_from]. destruct (startsWith t []).
    + split; [lia|]. rewrite Nat.sub_diag. reflexivity.
    + reflexivity.
  - cbn [indexOf_from suffix_from]. destruct (startsWith t (x :: s)).
    + split; [lia|]. rewrite Nat.sub_diag. reflexivity.
    + specialize (IH (S i)). destruct (indexOf_from t s (S i)) as [j|].
      * destruct IH as [Hle IH]. split; [lia|].
        replace (j - i) with (S (j - S i)) by lia. exact IH.
      * exact IH.
Qed.

Lemma from_tag_suffix : forall tag line,
  from_tag tag line
  = match suffix_from tag line with Some suf => [suf] | None => [] end.
Proof.
  intros tag line. unfold from_tag, indexOf.
  pose proof (suffix_from_indexOf tag line 0) as H.
  destruct (indexOf_from tag line 0) as [j|].
  - destruct H as [_ ->]. rewrite Nat.sub_0_r. reflexivity.
  - rewrite H. reflexivity.
Qed.

Lemma suffix_from_app : forall t a b suf,
  suffix_from t a = Some suf -> suffix_from t (a ++ b) = Some (suf ++ b).
Proof.
  induction a as [|x a IH]; intros b suf H.
  - cbn [suffix_from] in H. destruct (startsWith t []) eqn:E; [|discriminate].
    injection H as <-. cbn [app].
    destruct t; [|discriminate]. destruct b; reflexivity.
  - cbn [suffix_from] in H. cbn [app suffix_from].
    destruct (startsWith t (x :: a)) eqn:E.
    + injection H as <-.
      change (x :: a ++ b) with ((x :: a) ++ b).
      rewrite startsWith_app_l by exact E. reflexivity.
    + destruct (suffix_from_spec _ _ H) as [Hs [pre Hpre]].
      assert (Hlen : length t <= length a).
      { rewrite (startsWith_split _ _ Hs) in Hpre. subst a.
        rewrite !length_app. lia. }
      change (x :: a ++ b) with ((x :: a) ++ b).
      rewrite startsWith_app_short by (cbn [length]; lia).
      rewrite E. apply IH. exact H.
Qed.

Lemma suffix_from_next_line : forall t a x b,
  t <> [] -> forallb is_dot t = true -> is_dot x = false ->
  suffix_from t a = None ->
  suffix_from t (a ++ x :: b) = suffix_from t b.
Proof.
  induction a as [|y a IH]; intros x b Hne Ht Hx H.
  - cbn [app suffix_from].
    destruct (startsWith t (x :: b)) eqn:E; [|reflexivity].
    exfalso. destruct t as [|c t]; [contradiction|].
    cbn [startsWith] in E. apply andb_true_iff in E. destruct E as [E _].
    apply N.eqb_eq in E. subst c. cbn [forallb] in Ht.
    rewrite Hx in Ht. discriminate.
  - cbn [suffix_from] in H. destruct (startsWith t (y :: a)) eqn:E;
      [discriminate|].
    cbn [app suffix_from].
    destruct (startsWith t (y :: a ++ x :: b)) eqn:E'.
    + exfalso.
      change (y :: a ++ x :: b) with ((y :: a) ++ x :: b) in E'.
      rewrite (@startsWith_across _ _ _ _ Ht Hx E') in E. discriminate.
    + apply IH; assumption.
Qed.

(** The matcher on a literal, without the [i] flag. *)
Lemma rmatch_lit : forall fl lit prev s cap (k : mcont),
  ignoreCase fl = false ->
  (forall p1 p2 s' c, k p1 s' c = k p2 s' c) ->
  rmatch fl (RLit lit) prev s cap k
  = if startsWith lit s then k None (skipn (length lit) s) cap else None.
Proof.
  intros fl lit prev s cap k Hfl Hk. revert prev s.
  induction lit as [|c lit IH]; intros prev s.
  - cbn [RLit rmatch startsWith length skipn]. apply Hk.
  - cbn [RLit rmatch]. destruct s as [|x s]; [reflexivity|].
    cbn [startsWith length skipn]. unfold chr_matches. rewrite Hfl.
    destruct (N.eqb c x); [apply IH | reflexivity].
Qed.

(** [.*$] with the [m] flag runs to the end of the line. *)
Lemma iterate_dots : forall n s prev cap,
  length s <= n ->
  iterate true (rmatch flag_m (RCls is_dot))
          (fun prev' s' cap' =>
             rmatch flag_m REol prev' s' cap' (fun _ s'' cap'' => Some (s'', cap'')))
          n prev s cap
  = Some (skip_dots s, cap).
Proof.
  induction n as [|n IH]; intros s prev cap Hn.
  - destruct s; [reflexivity | cbn [length] in Hn; lia].
  - destruct s as [|x s]; [reflexivity|].
    cbn [length] in Hn.
    cbn [iterate rmatch skip_dots]. unfold cls_matches. cbn [ignoreCase flag_m].
    destruct (is_dot x) eqn:E.
    + replace (length s <? length (x :: s)) with true
        by (symmetry; apply Nat.ltb_lt; cbn [length]; lia).
      rewrite IH by lia. reflexivity.
    + unfold at_eol. cbn [multiline flag_m andb].
      unfold is_dot in E. apply negb_false_iff in E. rewrite E. reflexivity.
Qed.

Lemma match_here_tagged_line : forall tag prev s,
  match_here flag_m (re_tagged_line tag) prev s
  = if startsWith (u16 tag) s
    then Some (skip_dots (skipn (length (u16 tag)) s), None)
    else None.
Proof.
  intros tag prev s. unfold match_here, re_tagged_line. cbn [rmatch].
  rewrite rmatch_lit.
  - destruct (startsWith (u16 tag) s); [|reflexivity].
    apply iterate_dots. apply le_n.
  - reflexivity.
  - intros p1 p2 s' c. rewrite !iterate_dots by apply le_n. reflexivity.
Qed.

Lemma firstn_tagged : forall (lit suf : jsstring),
  startsWith lit suf = true ->
  firstn (length suf - length (skip_dots (skipn (length lit) suf))) suf
  = lit ++ take_dots (skipn (length lit) suf).
Proof.
  intros lit suf H.
  pose proof (startsWith_split _ _ H) as Hs.
  pose proof (take_skip_dots (skipn (length lit) suf)) as Hr.
  set (r := skipn (length lit) suf) in *.
  rewrite Hs at 1 2. rewrite <- Hr at 1 3. 
  rewrite app_assoc.
  rewrite !length_app.
  replace (length lit + length (take_dots r) + length (skip_dots r)
           - length (skip_dots r))
    with (length (lit ++ take_dots r) + 0) by (rewrite length_app; lia).
  rewrite firstn_app_2. cbn [firstn]. apply app_nil_r.
Qed.

Lemma exec_from_tagged_line : forall tag s prev i,
  exec_from flag_m (re_tagged_line tag) prev s i
  = match suffix_from (u16 tag) s with
    | Some suf =>
        Some (mkMatch (i + (length s - length suf))
                      (u16 tag ++ take_dots (skipn (length (u16 tag)) suf))
                      None)
    | None => None
    end.
Proof.
  intros tag. induction s as [|x s IH]; intros prev i.
  - cbn [exec_from suffix_from]. rewrite match_here_tagged_line.
    destruct (startsWith (u16 tag) []) eqn:E; [|reflexivity].
    rewrite firstn_tagged by exact E. rewrite Nat.sub_diag, Nat.add_0_r.
    reflexivity.
  - cbn [exec_from suffix_from]. rewrite match_here_tagged_line.
    destruct (startsWith (u16 tag) (x :: s)) eqn:E.
    + rewrite firstn_tagged by exact E. rewrite Nat.sub_diag, Nat.add_0_r.
      reflexivity.
    + rewrite IH. destruct (suffix_from (u16 tag) s) as [suf|] eqn:Es;
        [|reflexivity].
      destruct (suffix_from_spec _ _ Es) as [_ [pre ->]].
      f_equal. f_equal. cbn [length]. rewrite !length_app. lia.
Qed.

Lemma seek_skipn : forall n prev (s : jsstring),
  n <= length s -> exists p, seek n prev s = Some (p, skipn n s).
Proof.
  induction n as [|n IH]; intros prev s H.
  - exists prev. reflexivity.
  - destruct s as [|x s]; [cbn [length] in H; lia|].
    cbn [seek skipn]. apply IH. cbn [length] in H. lia.
Qed.

Lemma seek_prev : forall n p1 p2 (s : jsstring),
  match seek n p1 s, seek n p2 s with
  | Some (_, a), Some (_, b) => a = b
  | None, None => True
  | _, _ => False
  end.
Proof.
  induction n as [|n IH]; intros p1 p2 s; [reflexivity|].
  destruct s as [|x s]; [exact I|].
  cbn [seek]. destruct (seek n (Some x) s) as [[q a]|]; [reflexivity | exact I].
Qed.

Lemma match_all_fuel_prev : forall tag fuel p1 p2 s,
  match_all_fuel flag_m fuel (re_tagged_line tag) p1 s
  = match_all_fuel flag_m fuel (re_tagged_line tag) p2 s.
Proof.
  intros tag. induction fuel as [|fuel IH]; intros p1 p2 s; [reflexivity|].
  cbn [match_all_fuel]. rewrite !exec_from_tagged_line.
  destruct (suffix_from (u16 tag) s) as [suf|]; [|reflexivity].
  cbn [m_text m_index]. f_equal.
  match goal with
  | |- match seek ?n p1 s with _ => _ end = _ =>
      pose proof (seek_prev n p1 p2 s) as Hseek;
      destruct (seek n p1 s) as [[q1 a1]|], (seek n p2 s) as [[q2 a2]|];
      try contradiction; [subst a2; apply IH | reflexivity]
  end.
Qed.

(** One step of the search for tagged lines: the line from the first
    occurrence of the tag on, and the search goes on behind that line. *)
Lemma match_all_fuel_step : forall tag fuel prev s,
  u16 tag <> [] ->
  match_all_fuel flag_m (S fuel) (re_tagged_line tag) prev s
  = match suffix_from (u16 tag) s with
    | Some suf =>
        (u16 tag ++ take_dots (skipn (length (u16 tag)) suf))
          :: match_all_fuel flag_m fuel (re_tagged_line tag) None
               (skip_dots (skipn (length (u16 tag)) suf))
    | None => []
    end.
Proof.
  intros tag fuel prev s Hne. cbn [match_all_fuel].
  rewrite exec_from_tagged_line.
  destruct (suffix_from (u16 tag) s) as [suf|] eqn:Es; [|reflexivity].
  cbn [m_text m_index]. f_equal.
  destruct (suffix_from_spec _ _ Es) as [Hs [pre Hpre]].
  pose proof (startsWith_split _ _ Hs) as Hsuf.
  pose proof (take_skip_dots (skipn (length (u16 tag)) suf)) as Hr.
  set (lit := u16 tag) in *.
  set (r := skipn (length lit) suf) in *.
  assert (Hlen : (length (lit ++ take_dots r) =? 0) = false).
  { apply Nat.eqb_neq. rewrite length_app.
    destruct lit; [contradiction | cbn [length]; lia]. }
  rewrite Hlen.
  assert (Hs' : s = (pre ++ lit ++ take_dots r) ++ skip_dots r).
  { rewrite Hpre, Hsuf. rewrite <- Hr at 1. rewrite <- !app_assoc. reflexivity. }
  assert (Hn : 0 + (length s - length suf) + length (lit ++ take_dots r)
               = length (pre ++ lit ++ take_dots r)).
  { rewrite Hpre, !length_app. lia. }
  rewrite Hn.
  destruct (@seek_skipn (length (pre ++ lit ++ take_dots r)) prev s)
    as [p Hp].
  { rewrite Hs'. rewrite (length_app (pre ++ lit ++ take_dots r)). lia. }
  rewrite Hp.
  replace (skipn (length (pre ++ lit ++ take_dots r)) s) with (skip_dots r).
  2:{ rewrite Hs'. rewrite skipn_app, skipn_all, Nat.sub_diag.
      reflexivity. }
  apply match_all_fuel_prev.
Qed.

Lemma match_all_fuel_nil : forall tag fuel prev,
  u16 tag <> [] ->
  match_all_fuel flag_m fuel (re_tagged_line tag) prev [] = [].
Proof.
  intros tag [|fuel] prev Hne; [reflexivity|].
  rewrite match_all_fuel_step by exact Hne.
  cbn [suffix_from]. destruct (u16 tag); [contradiction | reflexivity].
Qed.

Lemma from_tag_nil : forall tag, tag <> [] -> from_tag tag [] = [].
Proof. intros [|c tag] H; [contradiction | reflexivity]. Qed.

Lemma tagged_lines_fuel : forall tag,
  u16 tag <> [] ->
  forallb is_dot (u16 tag) = true ->
  forall n s fuel,
    length s <= n -> length s < fuel ->
    match_all_fuel flag_m fuel (re_tagged_line tag) None s
    = flat_map (from_tag (u16 tag)) (terminated_lines s).
Proof.
  intros tag Hne Hdots.
  induction n as [|n IH]; intros s fuel Hn Hfuel.
  - destruct s; [|cbn [length] in Hn; lia].
    rewrite match_all_fuel_nil by exact Hne.
    cbn. rewrite from_tag_nil by exact Hne. reflexivity.
  - destruct fuel as [|fuel]; [lia|].
    unfold terminated_lines. rewrite split_terminators_aux_eq.
    cbn [rev app flat_map].
    pose proof (take_skip_dots s) as Hs.
    pose proof (skip_dots_head s) as Hhead.
    pose proof (take_dots_dots s) as Hl0.
    set (l0 := take_dots s) in *. set (rest := skip_dots s) in *.
    rewrite from_tag_suffix.
    rewrite match_all_fuel_step by exact Hne.
    destruct (suffix_from (u16 tag) l0) as [suf|] eqn:El0.
    + (* the tag occurs in the first line *)
      rewrite <- Hs at 1. rewrite (@suffix_from_app _ _ rest _ El0).
      destruct (suffix_from_spec _ _ El0) as [Hsw [pre Hpre]].
      pose proof (startsWith_split _ _ Hsw) as Hsuf.
      assert (Hr0 : forallb is_dot (skipn (length (u16 tag)) suf) = true).
      { rewrite Hpre, Hsuf, !forallb_app in Hl0.
        apply andb_true_iff in Hl0. destruct Hl0 as [_ Hl0].
        apply andb_true_iff in Hl0. tauto. }
      assert (Hskip : skipn (length (u16 tag)) (suf ++ rest)
                      = skipn (length (u16 tag)) suf ++ rest).
      { rewrite skipn_app.
        replace (length (u16 tag) - length suf) with 0; [reflexivity|].
        rewrite Hsuf at 1. rewrite length_app. lia. }
      rewrite Hskip.
      destruct (@take_dots_app _ rest Hr0 Hhead) as [-> ->].
      cbn [app]. rewrite <- Hsuf. f_equal.
      assert (Hshort : length rest < length s).
      { rewrite <- Hs, Hpre, Hsuf, !length_app.
        destruct (u16 tag); [contradiction | cbn [length]; lia]. }
      rewrite (IH rest fuel) by lia.
      destruct rest as [|t s1] eqn:Er.
      * cbn. rewrite from_tag_nil by exact Hne. reflexivity.
      * unfold terminated_lines. cbn [split_terminators_aux].
        unfold is_dot in Hhead. apply negb_false_iff in Hhead.
        rewrite Hhead. cbn [rev flat_map].
        rewrite from_tag_nil by exact Hne. reflexivity.
    + (* no tag in the first line *)
      cbn [app].
      destruct rest as [|t s1] eqn:Er.
      * rewrite app_nil_r in Hs. rewrite <- Hs, El0. reflexivity.
      * rewrite <- Hs.
        rewrite (@suffix_from_next_line _ _ _ s1 Hne Hdots Hhead El0).
        rewrite <- (@match_all_fuel_step tag fuel None s1) by exact Hne.
        apply IH.
        -- assert (length s = length l0 + S (length s1))
             by (rewrite <- Hs, length_app; reflexivity).
           lia.
        -- assert (length s = length l0 + S (length s1))
             by (rewrite <- Hs, length_app; reflexivity).
           lia.
Qed.

(** X27. The tagged lines of a log are found line by line: for a tag that is
    not empty and holds no line terminator (as [[warn]] and [[error]]), the
    search gives, for each line of the text in which the tag occurs, the line
    from the first occurrence of the tag on, and nothing for the other
    lines; the lines are the parts of the text between line terminators. *)
Theorem tagged_lines_spec : forall tag text,
  u16 tag <> [] ->
  forallb is_dot (u16 tag) = true ->
  tagged_lines tag text
  = flat_map (from_tag (u16 tag)) (terminated_lines text).
Proof.
  intros tag text Hne Hdots. unfold tagged_lines, match_all.
  apply (@tagged_lines_fuel tag Hne Hdots (length text)); lia.
Qed.

Lemma tagged_lines_spec_example :
  u16 "[error]" <> []
  /\ forallb is_dot (u16 "[error]") = true
  /\ tagged_lines "[error]"
       (u16 "[info] ok" ++ [LF] ++ u16 "x [error] a [error] b" ++ [CR; LF]
          ++ u16 "[error] c")
     = [ u16 "[error] a [error] b"; u16 "[error] c" ].
Proof.
  split; [discriminate|]. split; [reflexivity|].
  rewrite (@tagged_lines_spec "[error]"
             (u16 "[info] ok" ++ [LF] ++ u16 "x [error] a [error] b" ++ [CR; LF]
                ++ u16 "[error] c")).
  - reflexivity.
  - discriminate.
  - reflexivity.
Defined.

(** [\s*] takes the white space at the start. *)
Lemma iterate_spaces : forall n s prev cap,
  length s <= n ->
  iterate true (rmatch no_flags (RCls is_space))
          (fun _ s' cap' => Some (s', cap')) n prev s cap
  = Some (trimStart s, cap).
Proof.
  induction n as [|n IH]; intros s prev cap Hn.
  - destruct s; [reflexivity | cbn [length] in Hn; lia].
  - destruct s as [|x s]; [reflexivity|].
    cbn [length] in Hn.
    cbn [iterate rmatch trimStart]. unfold cls_matches.
    cbn [ignoreCase no_flags].
    destruct (is_space x) eqn:E; [|reflexivity].
    replace (length s <? length (x :: s)) with true
      by (symmetry; apply Nat.ltb_lt; cbn [length]; lia).
    rewrite IH by lia. reflexivity.
Qed.

Lemma trimStart_suffix : forall s, exists sp, s = sp ++ trimStart s.
Proof.
  induction s as [|x s [sp IH]]; [exists []; reflexivity|].
  cbn [trimStart]. destruct (is_space x).
  - exists (x :: sp). cbn [app]. f_equal. exact IH.
  - exists []. reflexivity.
Qed.

(** Removing the tag from a text that starts with it. *)
Lemma replace_first_tag : forall tag rest,
  replace_first no_flags (re_tag tag) [] (u16 tag ++ rest) = trimStart rest.
Proof.
  intros tag rest. unfold replace_first, exec.
  assert (Hm : match_here no_flags (re_tag tag) None (u16 tag ++ rest)
               = Some (trimStart rest, None)).
  { unfold match_here, re_tag. cbn [rmatch]. rewrite rmatch_lit.
    - rewrite startsWith_app.
      rewrite skipn_app, skipn_all, Nat.sub_diag. cbn [skipn app].
      apply iterate_spaces. apply le_n.
    - reflexivity.
    - intros p1 p2 s' c. rewrite !iterate_spaces by apply le_n. reflexivity. }
  destruct (u16 tag ++ rest) as [|x s] eqn:E.
  - cbn [exec_from]. rewrite Hm. cbn [m_index m_text firstn app length skipn].
    destruct (u16 tag); [|discriminate]. cbn [app] in E. subst rest.
    reflexivity.
  - cbn [exec_from]. rewrite Hm. rewrite <- E. clear Hm.
    cbn [m_index m_text firstn app Nat.add].
    destruct (trimStart_suffix rest) as [sp Hsp].
    assert (Hs : u16 tag ++ rest = (u16 tag ++ sp) ++ trimStart rest)
      by (rewrite Hsp at 1; rewrite app_assoc; reflexivity).
    assert (Hk : length (u16 tag ++ rest) - length (trimStart rest)
                 = length (u16 tag ++ sp)).
    { rewrite Hs at 1. rewrite (length_app (u16 tag ++ sp)). lia. }
    rewrite Hk.
    assert (Hf : firstn (length (u16 tag ++ sp)) (u16 tag ++ rest)
                 = u16 tag ++ sp).
    { rewrite Hs. replace (length (u16 tag ++ sp))
        with (length (u16 tag ++ sp) + 0) by lia.
      rewrite firstn_app_2. cbn [firstn]. apply app_nil_r. }
    rewrite Hf. rewrite Hs at 1.
    rewrite skipn_app, skipn_all, Nat.sub_diag. reflexivity.
Qed.

Lemma suffix_from_eq : forall tag line suf,
  suffix_from tag line = Some suf ->
  exists i, indexOf tag line = Some i
            /\ suf = skipn i line
            /\ suf = tag ++ skipn (i + length tag) line.
Proof.
  intros tag line suf H. unfold indexOf.
  pose proof (suffix_from_indexOf tag line 0) as Hi.
  destruct (suffix_from_spec _ _ H) as [Hs _].
  destruct (indexOf_from tag line 0) as [j|]; [|congruence].
  destruct Hi as [_ Hi]. rewrite Nat.sub_0_r in Hi.
  exists j. split; [reflexivity|].
  assert (suf = skipn j line) by congruence. subst suf.
  split; [reflexivity|].
  rewrite (startsWith_split _ _ Hs) at 1. rewrite skipn_skipn.
  f_equal. f_equal. lia.
Qed.

(** The bullets of a section, from the lines of a log. *)
Lemma bullets_of_log : forall tag (bullet : jsstring -> jsstring) text,
  u16 tag <> [] ->
  forallb is_dot (u16 tag) = true ->
  map (fun m => bullet (replace_first no_flags (re_tag tag) [] m))
      (tagged_lines tag text)
  = flat_map (bullet_of_line (u16 tag) bullet) (terminated_lines text).
Proof.
  intros tag bullet text Hne Hdots.
  unfold tagged_lines, match_all.
  rewrite (@tagged_lines_fuel tag Hne Hdots (length text)) by lia.
  induction (terminated_lines text) as [|line lines IH]; [reflexivity|].
  cbn [flat_map]. rewrite map_app, IH. f_equal.
  rewrite from_tag_suffix. unfold bullet_of_line.
  destruct (suffix_from (u16 tag) line) as [suf|] eqn:Es.
  - destruct (suffix_from_eq _ _ Es) as (i & Hi & _ & Hsuf).
    rewrite Hi. cbn [map]. rewrite Hsuf, replace_first_tag. reflexivity.
  - pose proof (suffix_from_indexOf (u16 tag) line 0) as Hi.
    unfold indexOf. destruct (indexOf_from (u16 tag) line 0) as [j|].
    + destruct Hi as [_ Hi]. congruence.
    + reflexivity.
Qed.

(** X28. The bullets of the comment, from the lines of the logs: every line
    of the validation log or of the image log that holds [[error]] gives one
    bullet of the Errors section, and every line of the validation log that
    holds [[warn]] one bullet of the Warnings section; the text of the bullet
    is what stands behind the first occurrence of the tag in the line,
    without leading white space.  The bullets keep the order of the lines,
    those of the validation log first. *)
Theorem buildComment_bullets : forall l,
  buildComment l
  = HEADING
      ++ (let errors :=
            flat_map (bullet_of_line (u16 "[error]") red_bullet)
                     (terminated_lines (validation_text l))
              ++ flat_map (bullet_of_line (u16 "[error]") red_bullet)
                          (terminated_lines (images_text l)) in
          let warnings :=
            flat_map (bullet_of_line (u16 "[warn]") yellow_bullet)
                     (terminated_lines (validation_text l)) in
          match errors, warnings with
          | [], [] => SUCCESS_BANNER
          | _, _ =>
              match errors with
              | [] => []
              | _ :: _ => ERRORS_TITLE ++ concat errors ++ [LF]
              end
              ++ match warnings with
                 | [] => []
                 | _ :: _ => WARNINGS_TITLE ++ concat warnings ++ [LF]
                 end
          end)
      ++ footer (folders_text l).
Proof.
  intros l. unfold buildComment. cbv zeta.
  fold (validation_text l). fold (images_text l). fold (folders_text l).
  unfold render. f_equal. f_equal.
  assert (He : forall text,
             map error_bullet (tagged_lines "[error]" text)
             = flat_map (bullet_of_line (u16 "[error]") red_bullet)
                        (terminated_lines text)).
  { intros text.
    apply (@bullets_of_log "[error]" red_bullet text);
      [discriminate | reflexivity]. }
  assert (Hw : forall text,
             map warning_bullet (tagged_lines "[warn]" text)
             = flat_map (bullet_of_line (u16 "[warn]") yellow_bullet)
                        (terminated_lines text)).
  { intros text.
    apply (@bullets_of_log "[warn]" yellow_bullet text);
      [discriminate | reflexivity]. }
  rewrite <- !He, <- Hw, <- map_app.
  unfold errors_section, warnings_section.
  destruct (tagged_lines "[error]" (validation_text l)
              ++ tagged_lines "[error]" (images_text l)) as [|e es];
    destruct (tagged_lines "[warn]" (validation_text l)) as [|w ws];
    reflexivity.
Qed.

(** X29. Log files that cannot be read count as clean logs: when both files
    are missing the comment shows the success banner, whatever the checked
    folders are. *)
Theorem buildComment_missing_logs : forall l,
  validation_log l = None ->
  images_log l = None ->
  buildComment l = HEADING ++ SUCCESS_BANNER ++ footer (folders_text l).
Proof.
  intros l Hv Hi. unfold buildComment. cbv zeta.
  fold (folders_text l). rewrite Hv, Hi. reflexivity.
Qed.

Lemma buildComment_missing_logs_example :
  buildComment (mkLogs None None (Some (u16 "foo")))
  = HEADING ++ SUCCESS_BANNER ++ u16 "---" ++ [LF]
      ++ u16 "**Checked folders:** `foo`".
Proof.
  apply (@buildComment_missing_logs (mkLogs None None (Some (u16 "foo"))));
    reflexivity.
Defined.

(** The lines of a text written line by line. *)
Lemma terminated_lines_written : forall ls,
  Forall (fun l => forallb is_dot l = true) ls ->
  terminated_lines (flat_map (fun l => l ++ [LF]) ls) = ls ++ [[]].
Proof.
  induction ls as [|l ls IH]; intros H; [reflexivity|].
  inversion H as [|? ? Hl Hls]; subst.
  cbn [flat_map app]. unfold terminated_lines in *.
  rewrite split_terminators_aux_eq. rewrite <- app_assoc. cbn [app].
  destruct (@take_dots_app l (LF :: flat_map (fun l0 => l0 ++ [LF]) ls) Hl
              eq_refl) as [-> ->].
  cbn [rev app]. f_equal. apply IH. exact Hls.
Qed.

Lemma bullets_written :
  forall (wrap : jsstring -> jsstring) (tag : jsstring)
         (bullet shown : jsstring -> jsstring) (ts : list jsstring),
    (forall t, bullet_of_line tag bullet (wrap t) = [shown t]) ->
    flat_map (bullet_of_line tag bullet) (map wrap ts) = map shown ts.
Proof.
  intros wrap tag bullet shown ts H.
  induction ts as [|t ts IH]; [reflexivity|].
  cbn [map flat_map]. rewrite IH, H. reflexivity.
Qed.

(** X30. A message of the logger reaches the comment with the colour reset
    sequence at the end of every bullet: for a message at level [error]
    whose texts hold no line terminator, the script finds in what the logger
    wrote to the error stream one tagged line for the header and one for
    each further line, and the bullet of each is its text, without the white
    space at its start, followed by the reset sequence; likewise at level
    [warn]. *)
Theorem logger_line_bullet : forall header lines,
  Forall (fun t => forallb is_dot t = true) (header :: lines) ->
  map error_bullet
      (tagged_lines "[error]" (stderr_text (Log error header lines)))
  = map (fun t => red_bullet (trimStart (t ++ COLOR_RESET))) (header :: lines)
  /\ map warning_bullet
         (tagged_lines "[warn]" (stderr_text (Log warn header lines)))
     = map (fun t => yellow_bullet (trimStart (t ++ COLOR_RESET)))
           (header :: lines).
Proof.
  intros header lines Hdots.
  assert (Hwritten : forall level,
             Forall (fun l => forallb is_dot l = true)
                    (stderr_lines (Log level header lines))).
  { intros level. cbn [stderr_lines]. apply Forall_map.
    eapply Forall_impl; [|exact Hdots]. intros t Ht. cbv beta.
    rewrite !forallb_app, Ht. destruct level; reflexivity. }
  split.
  - change (map error_bullet ?x)
      with (map (fun m => red_bullet
                            (replace_first no_flags (re_tag "[error]") [] m)) x).
    rewrite (@bullets_of_log "[error]" red_bullet) by (discriminate || reflexivity).
    unfold stderr_text. rewrite (terminated_lines_written (Hwritten error)).
    rewrite flat_map_app. cbn [stderr_lines].
    change (flat_map (bullet_of_line (u16 "[error]") red_bullet) [[]])
      with (@nil jsstring).
    rewrite app_nil_r. apply (@bullets_written _ _ _ (fun t => red_bullet (trimStart (t ++ COLOR_RESET)))).
    intros t. reflexivity.
  - change (map warning_bullet ?x)
      with (map (fun m => yellow_bullet
                            (replace_first no_flags (re_tag "[warn]") [] m)) x).
    rewrite (@bullets_of_log "[warn]" yellow_bullet) by (discriminate || reflexivity).
    unfold stderr_text. rewrite (terminated_lines_written (Hwritten warn)).
    rewrite flat_map_app. cbn [stderr_lines].
    change (flat_map (bullet_of_line (u16 "[warn]") yellow_bullet) [[]])
      with (@nil jsstring).
    rewrite app_nil_r. apply (@bullets_written _ _ _ (fun t => yellow_bullet (trimStart (t ++ COLOR_RESET)))).
    intros t. reflexivity.
Qed.

Lemma logger_line_bullet_example :
  Forall (fun t => forallb is_dot t = true)
         [u16 "Foo is broken"; u16 "  see the manifest"]
  /\ map error_bullet
         (tagged_lines "[error]"
            (stderr_text (Log error (u16 "Foo is broken")
                              [u16 "  see the manifest"])))
     = [ u16 "- " ++ [55357; 56628]%N ++ u16 " Foo is broken" ++ COLOR_RESET
           ++ [LF];
         u16 "- " ++ [55357; 56628]%N ++ u16 " see the manifest"
           ++ COLOR_RESET ++ [LF] ].
Proof.
  assert (H : Forall (fun t => forallb is_dot t = true)
                     [u16 "Foo is broken"; u16 "  see the manifest"]).
  { apply Forall_cons; [reflexivity|].
    apply Forall_cons; [reflexivity | apply Forall_nil]. }
  split; [exact H|].
  rewrite (proj1 (@logger_line_bullet (u16 "Foo is broken")
                    [u16 "  see the manifest"] H)).
  reflexivity.
Defined.

(** A text with a line feed is written as two lines, and only the first
    bears the tag: its bullet ends where the line ends, and the rest of the
    text is not shown. *)
Lemma logger_line_break_example :
  map error_bullet
      (tagged_lines "[error]"
         (stderr_text (Log error (u16 "Foo is broken" ++ [LF] ++ u16 "badly")
                           [])))
  = [ u16 "- " ++ [55357; 56628]%N ++ u16 " Foo is broken" ++ [LF] ].
Proof. vm_compute. reflexivity. Qed.
